(** * WebGPU-Butterfly: the glTF renderer ([src/gltf_renderer.ts])

    A shallow embedding of [GltfRenderer] and [GLTFUtil].

    - Numbers.  Every number the renderer computes with is an integer
      (sizes, counts, byte offsets, indices, enum codes); they are carried
      as [Z], indices into the asset's arrays as [nat].  Matrix and camera
      entries are only copied, never computed with; they are carried as
      [Z] as well.
    - Optional properties ([x?: T]) are [option]s; [None] is [undefined].
    - Object identity.  JS [Map]s keyed by an object are keyed here by the
      position of that object in the asset (a node by its index in
      [nodes], a primitive by mesh index and index in the mesh).
    - Effects.  The renderer mutates its own fields and talks to the GPU
      device; both live in one state record threaded through a state and
      exception monad.  A JS exception keeps the state reached so far. *)

From Stdlib Require Import ZArith String List Lia Bool DecimalString.
From stdpp Require Import base option list gmap strings.
Import ListNotations.

Local Open Scope string_scope.
Local Open Scope list_scope.

(** ** The asset, as [gltf-loader-ts] types it *)

Abbreviation GlTfId := nat (only parsing).

Module Accessor.
Record t := mk {
    bufferView : option GlTfId;
    byteOffset : option Z;
    componentType : Z;
    normalized : option bool;
    count : Z;
    type : string
  }.
End Accessor.

Module BufferView.
Record t := mk {
    name : option string;
    byteOffset : option Z;
    byteLength : Z;
    byteStride : option Z
  }.
End BufferView.

Module MeshPrimitive.
  (** [attributes] is a JS object; the list is [Object.entries] of it. *)
Record t := mk {
    attributes : list (string * GlTfId);
    indices : option GlTfId;
    mode : option Z
  }.
End MeshPrimitive.

Module Mesh.
Record t := mk { primitives : list MeshPrimitive.t }.
End Mesh.

Module Node.
Record t := mk { mesh : option GlTfId }.
End Node.

Module Skin.
Record t := mk {
    inverseBindMatrices : option GlTfId;
    joints : list GlTfId
  }.
End Skin.

Module GlTf.
Record t := mk {
    accessors : list Accessor.t;
    bufferViews : list BufferView.t;
    meshes : list Mesh.t;
    nodes : list Node.t;
    skins : option (list Skin.t)
  }.
End GlTf.

(** ** [GLTFUtil] *)

Module GLTFUtil.

Definition GL_BYTE : Z := 5120.
Definition GL_UNSIGNED_BYTE : Z := 5121.
Definition GL_SHORT : Z := 5122.
Definition GL_UNSIGNED_SHORT : Z := 5123.
Definition GL_UNSIGNED_INT : Z := 5125.
Definition GL_FLOAT : Z := 5126.

Definition GL_POINTS : Z := 0.
Definition GL_LINES : Z := 1.
Definition GL_LINES_LOOP : Z := 2.
Definition GL_LINE_STRIP : Z := 3.
Definition GL_TRIANGLES : Z := 4.
Definition GL_TRIANGLE_STRIP : Z := 5.
Definition GL_TRIANGLE_FAN : Z := 6.

Definition componentCountForType (type : string) : Z :=
    if String.eqb type "SCALAR" then 1
    else if String.eqb type "VEC2" then 2
    else if String.eqb type "VEC3" then 3
    else if String.eqb type "VEC4" then 4
    else 0.

Definition sizeForComponentType (componentType : Z) : Z :=
    if Z.eqb componentType GL_BYTE then 1
    else if Z.eqb componentType GL_UNSIGNED_BYTE then 1
    else if Z.eqb componentType GL_SHORT then 2
    else if Z.eqb componentType GL_UNSIGNED_SHORT then 2
    else if Z.eqb componentType GL_UNSIGNED_INT then 4
    else if Z.eqb componentType GL_FLOAT then 4
    else 0.

Definition packedArrayStrideForAccessor (accessor : Accessor.t) : Z :=
    (sizeForComponentType (Accessor.componentType accessor)
     * componentCountForType (Accessor.type accessor))%Z.

  (** [`${count}`] for an integer [count]. *)
Definition numberToString (n : Z) : string :=
    NilZero.string_of_int (Z.to_int n).

  (** [accessor.normalized ? ... : ...]: [undefined] and [false] are falsy. *)
Definition truthy (b : option bool) : bool :=
    match b with Some true => true | _ => false end.

  (** The [switch] has no [default]: other component types fall off the
      end and the function returns [undefined]. *)
Definition gpuFormatForAccessor (accessor : Accessor.t) : option string :=
    let norm := if truthy (Accessor.normalized accessor) then "norm" else "int" in
    let count := componentCountForType (Accessor.type accessor) in
    let x := if (1 <? count)%Z then "x" +:+ numberToString count else "" in
    let componentType := Accessor.componentType accessor in
    if Z.eqb componentType GL_BYTE then Some ("s" +:+ norm +:+ "8" +:+ x)
    else if Z.eqb componentType GL_UNSIGNED_BYTE then Some ("u" +:+ norm +:+ "8" +:+ x)
    else if Z.eqb componentType GL_SHORT then Some ("s" +:+ norm +:+ "16" +:+ x)
    else if Z.eqb componentType GL_UNSIGNED_SHORT then Some ("u" +:+ norm +:+ "16" +:+ x)
    else if Z.eqb componentType GL_UNSIGNED_INT then Some ("u" +:+ norm +:+ "32" +:+ x)
    else if Z.eqb componentType GL_FLOAT then Some ("float32" +:+ x)
    else None.

  (** [primitive.mode] is optional; [switch (undefined)] matches no case.
      No [default] here either. *)
Definition gpuPrimitiveTopologyForMode (mode : option Z) : option string :=
    match mode with
    | None => None
    | Some m =>
        if Z.eqb m GL_TRIANGLES then Some "triangle-list"
        else if Z.eqb m GL_TRIANGLE_STRIP then Some "triangle-strip"
        else if Z.eqb m GL_LINES then Some "line-list"
        else if Z.eqb m GL_LINE_STRIP then Some "line-strip"
        else if Z.eqb m GL_POINTS then Some "point-list"
        else None
    end.

Definition gpuIndexFormatForComponentType (componentType : Z) : string :=
    if Z.eqb componentType GL_UNSIGNED_SHORT then "uint16"
    else if Z.eqb componentType GL_UNSIGNED_INT then "uint32"
    else "uint32".

End GLTFUtil.

(** ** The GPU device

    The device is an external collaborator.  The model allocates handles
    and records every request with the descriptor exactly as the renderer
    built it; what the device itself makes of a descriptor is not the
    renderer's code. *)

Definition Float32Array_BYTES_PER_ELEMENT : Z := 4.

Definition GPUBuffer := nat.
Definition GPUBindGroupLayout := nat.
Definition GPUBindGroup := nat.
Definition GPUPipelineLayout := nat.
Definition GPUShaderModule := nat.
Definition GPURenderPipeline := nat.

Module GPUBufferUsage.
Definition COPY_DST : Z := 8.
Definition INDEX : Z := 16.
Definition VERTEX : Z := 32.
Definition UNIFORM : Z := 64.
Definition STORAGE : Z := 128.
End GPUBufferUsage.

Module GPUShaderStage.
Definition VERTEX : Z := 1.
Definition FRAGMENT : Z := 2.
End GPUShaderStage.

Module GPUBufferDescriptor.
Record t := mk {
    label : option string;
    size : Z;
    usage : option Z;
    mappedAtCreation : bool
  }.
End GPUBufferDescriptor.

(** A value read off a JS object by name: a number, or some function or
    object (named by the property it was read from). *)
Inductive JsValue :=
| JsNumber (n : Z)
| JsObject (property : string).

Module GPUVertexAttribute.
Record t := mk {
    format : option string;
    offset : Z;
    shaderLocation : JsValue
  }.
End GPUVertexAttribute.

Module GPUVertexBufferLayout.
Record t := mk {
    arrayStride : Z;
    attributes : list GPUVertexAttribute.t
  }.
End GPUVertexBufferLayout.

Module GPURenderPipelineDescriptor.
Record t := mk {
    label : string;
    layout : option GPUPipelineLayout;
    vertexModule : GPUShaderModule;
    vertexEntryPoint : string;
    buffers : list GPUVertexBufferLayout.t;
    topology : option string;
    cullMode : string;
    depthWriteEnabled : bool;
    depthCompare : string;
    depthStencilFormat : string;
    fragmentModule : GPUShaderModule;
    fragmentEntryPoint : string;
    targetFormat : string
  }.
End GPURenderPipelineDescriptor.

Module GPUBindGroupLayoutEntry.
Record t := mk {
    binding : nat;
    visibility : Z;
    bufferType : option string
  }.
End GPUBindGroupLayoutEntry.

Module GPUBindGroupLayoutDescriptor.
Record t := mk {
    label : string;
    entries : list GPUBindGroupLayoutEntry.t
  }.
End GPUBindGroupLayoutDescriptor.

Module GPUBindGroupDescriptor.
  (** An entry is a binding number and the buffer bound there. *)
Record t := mk {
    label : string;
    layout : option GPUBindGroupLayout;
    entries : list (nat * option GPUBuffer)
  }.
End GPUBindGroupDescriptor.

(** Commands recorded while a frame is encoded. *)
Inductive EncoderCommand :=
| BeginRenderPass (loadOp : string)
| SetBindGroup (index : nat) (bindGroup : option GPUBindGroup)
| SetPipeline (pipeline : GPURenderPipeline)
| SetVertexBuffer (slot : nat) (buffer : option GPUBuffer) (offset : option Z)
| SetIndexBuffer (buffer : GPUBuffer) (indexFormat : option string) (offset : option Z)
| DrawIndexed (indexCount instanceCount firstIndex baseVertex firstInstance : Z)
| Draw (vertexCount instanceCount firstVertex firstInstance : Z)
| SetViewport (x y width height minDepth maxDepth : Z)
| SetScissorRect (x y width height : Z)
| EndPass
| Submit
| RequestAnimationFrame.

Module GPUDevice.
  (** [buffers], [bindGroupLayouts], ... list the objects created so far;
      a handle is the position of its descriptor. *)
Record t := mk {
    buffers : list GPUBufferDescriptor.t;
    mappedWrites : list (GPUBuffer * list Z);
    queueWrites : list (GPUBuffer * Z * list Z);
    bindGroupLayouts : list GPUBindGroupLayoutDescriptor.t;
    bindGroups : list GPUBindGroupDescriptor.t;
    pipelineLayouts : list (list (option GPUBindGroupLayout));
    shaderModules : list string;
    renderPipelines : list GPURenderPipelineDescriptor.t;
    commands : list EncoderCommand
  }.

Definition empty : t := mk [] [] [] [] [] [] [] [] [].
End GPUDevice.

(** ** [GLTFGroup] ([src/gltf_group.ts] is not part of the sources; only
    the fields the renderer reads are declared)

    [bufferData0] is the outcome of awaiting [asset.bufferData.get(0)]:
    the bytes, or [None] when the promise rejects. *)

Definition mat4 := list Z.

Module GLTFGroup.
Record t := mk {
    gltf : GlTf.t;
    instanceCount : Z;
    transforms : list mat4;
    nodeMatrics : gmap nat mat4;
    bufferData0 : option (list Z)
  }.
End GLTFGroup.

(** ** GPU-side primitive data *)

Module GPUPrimitiveBufferInfo.
Record t := mk {
    buffer : option GPUBuffer;
    offset : option Z
  }.
End GPUPrimitiveBufferInfo.

Module GPUPrimitiveInfo.
Record t := mk {
    pipeline : GPURenderPipeline;
    buffers : list GPUPrimitiveBufferInfo.t;
    drawCount : Z;
    indexBuffer : option GPUBuffer;
    indexOffset : option Z;
    indexType : option string
  }.
End GPUPrimitiveInfo.

(** Identity of a primitive object: mesh index, index within the mesh. *)
Definition PrimitiveRef : Type := nat * nat.

(** Field updates of the device record. *)

Module DeviceUpdate.
Import GPUDevice.
Definition on_buffers (f : list GPUBufferDescriptor.t -> list GPUBufferDescriptor.t) (d : t) : t :=
    mk (f (buffers d)) (mappedWrites d) (queueWrites d) (bindGroupLayouts d) (bindGroups d) (pipelineLayouts d) (shaderModules d) (renderPipelines d) (commands d).
Definition on_mappedWrites (f : list (GPUBuffer * list Z) -> list (GPUBuffer * list Z)) (d : t) : t :=
    mk (buffers d) (f (mappedWrites d)) (queueWrites d) (bindGroupLayouts d) (bindGroups d) (pipelineLayouts d) (shaderModules d) (renderPipelines d) (commands d).
Definition on_queueWrites (f : list (GPUBuffer * Z * list Z) -> list (GPUBuffer * Z * list Z)) (d : t) : t :=
    mk (buffers d) (mappedWrites d) (f (queueWrites d)) (bindGroupLayouts d) (bindGroups d) (pipelineLayouts d) (shaderModules d) (renderPipelines d) (commands d).
Definition on_bindGroupLayouts (f : list GPUBindGroupLayoutDescriptor.t -> list GPUBindGroupLayoutDescriptor.t) (d : t) : t :=
    mk (buffers d) (mappedWrites d) (queueWrites d) (f (bindGroupLayouts d)) (bindGroups d) (pipelineLayouts d) (shaderModules d) (renderPipelines d) (commands d).
Definition on_bindGroups (f : list GPUBindGroupDescriptor.t -> list GPUBindGroupDescriptor.t) (d : t) : t :=
    mk (buffers d) (mappedWrites d) (queueWrites d) (bindGroupLayouts d) (f (bindGroups d)) (pipelineLayouts d) (shaderModules d) (renderPipelines d) (commands d).
Definition on_pipelineLayouts (f : list (list (option GPUBindGroupLayout)) -> list (list (option GPUBindGroupLayout))) (d : t) : t :=
    mk (buffers d) (mappedWrites d) (queueWrites d) (bindGroupLayouts d) (bindGroups d) (f (pipelineLayouts d)) (shaderModules d) (renderPipelines d) (commands d).
Definition on_shaderModules (f : list string -> list string) (d : t) : t :=
    mk (buffers d) (mappedWrites d) (queueWrites d) (bindGroupLayouts d) (bindGroups d) (pipelineLayouts d) (f (shaderModules d)) (renderPipelines d) (commands d).
Definition on_renderPipelines (f : list GPURenderPipelineDescriptor.t -> list GPURenderPipelineDescriptor.t) (d : t) : t :=
    mk (buffers d) (mappedWrites d) (queueWrites d) (bindGroupLayouts d) (bindGroups d) (pipelineLayouts d) (shaderModules d) (f (renderPipelines d)) (commands d).
Definition on_commands (f : list EncoderCommand -> list EncoderCommand) (d : t) : t :=
    mk (buffers d) (mappedWrites d) (queueWrites d) (bindGroupLayouts d) (bindGroups d) (pipelineLayouts d) (shaderModules d) (renderPipelines d) (f (commands d)).
End DeviceUpdate.

(** ** The renderer's fields ([this])

    [gpuBuffers] is [undefined] until [loadGPUBuffers] assigns it;
    [primitiveGpuData] and [nodeGpuData] are the empty maps [init] gives
    them.  [nodeGpuData] is iterated, so it keeps insertion order.
    [skin0Reads] is a ghost counter: the number of times [skins[0]] was
    read.  [device] holds the device, its queue and the encoder. *)

Module GltfRenderer.
Record t := mk {
    gltf_group : GLTFGroup.t;
    device : GPUDevice.t;
    canvas : Z * Z;
    isFirstRenderer : bool;
    primitiveGpuData : gmap PrimitiveRef GPUPrimitiveInfo.t;
    gpuBuffers : option (list GPUBuffer);
    cameraBuffer : option GPUBuffer;
    instanceBuffer : option GPUBuffer;
    jointTransformBuffer : option GPUBuffer;
    frameBindGroupLayout : option GPUBindGroupLayout;
    frameBindGroup : option GPUBindGroup;
    nodeBindGroupLayout : option GPUBindGroupLayout;
    nodeGpuData : list (nat * GPUBindGroup);
    jointInfoBuffer : option GPUBuffer;
    inverseBindMatrixBuffer : option GPUBuffer;
    constantBindGroupLayout : option GPUBindGroupLayout;
    constantBindGroup : option GPUBindGroup;
    gltfPipelineLayout : option GPUPipelineLayout;
    vertShaderModule : option GPUShaderModule;
    fragShaderModule : option GPUShaderModule;
    skin0Reads : nat
  }.

Definition set_device (v : GPUDevice.t) (r : t) : t :=
    mk (gltf_group r) v (canvas r) (isFirstRenderer r) (primitiveGpuData r) (gpuBuffers r) (cameraBuffer r) (instanceBuffer r) (jointTransformBuffer r) (frameBindGroupLayout r) (frameBindGroup r) (nodeBindGroupLayout r) (nodeGpuData r) (jointInfoBuffer r) (inverseBindMatrixBuffer r) (constantBindGroupLayout r) (constantBindGroup r) (gltfPipelineLayout r) (vertShaderModule r) (fragShaderModule r) (skin0Reads r).

Definition set_primitiveGpuData (v : gmap PrimitiveRef GPUPrimitiveInfo.t) (r : t) : t :=
    mk (gltf_group r) (device r) (canvas r) (isFirstRenderer r) v (gpuBuffers r) (cameraBuffer r) (instanceBuffer r) (jointTransformBuffer r) (frameBindGroupLayout r) (frameBindGroup r) (nodeBindGroupLayout r) (nodeGpuData r) (jointInfoBuffer r) (inverseBindMatrixBuffer r) (constantBindGroupLayout r) (constantBindGroup r) (gltfPipelineLayout r) (vertShaderModule r) (fragShaderModule r) (skin0Reads r).

Definition set_gpuBuffers (v : option (list GPUBuffer)) (r : t) : t :=
    mk (gltf_group r) (device r) (canvas r) (isFirstRenderer r) (primitiveGpuData r) v (cameraBuffer r) (instanceBuffer r) (jointTransformBuffer r) (frameBindGroupLayout r) (frameBindGroup r) (nodeBindGroupLayout r) (nodeGpuData r) (jointInfoBuffer r) (inverseBindMatrixBuffer r) (constantBindGroupLayout r) (constantBindGroup r) (gltfPipelineLayout r) (vertShaderModule r) (fragShaderModule r) (skin0Reads r).

Definition set_cameraBuffer (v : option GPUBuffer) (r : t) : t :=
    mk (gltf_group r) (device r) (canvas r) (isFirstRenderer r) (primitiveGpuData r) (gpuBuffers r) v (instanceBuffer r) (jointTransformBuffer r) (frameBindGroupLayout r) (frameBindGroup r) (nodeBindGroupLayout r) (nodeGpuData r) (jointInfoBuffer r) (inverseBindMatrixBuffer r) (constantBindGroupLayout r) (constantBindGroup r) (gltfPipelineLayout r) (vertShaderModule r) (fragShaderModule r) (skin0Reads r).

Definition set_instanceBuffer (v : option GPUBuffer) (r : t) : t :=
    mk (gltf_group r) (device r) (canvas r) (isFirstRenderer r) (primitiveGpuData r) (gpuBuffers r) (cameraBuffer r) v (jointTransformBuffer r) (frameBindGroupLayout r) (frameBindGroup r) (nodeBindGroupLayout r) (nodeGpuData r) (jointInfoBuffer r) (inverseBindMatrixBuffer r) (constantBindGroupLayout r) (constantBindGroup r) (gltfPipelineLayout r) (vertShaderModule r) (fragShaderModule r) (skin0Reads r).

Definition set_jointTransformBuffer (v : option GPUBuffer) (r : t) : t :=
    mk (gltf_group r) (device r) (canvas r) (isFirstRenderer r) (primitiveGpuData r) (gpuBuffers r) (cameraBuffer r) (instanceBuffer r) v (frameBindGroupLayout r) (frameBindGroup r) (nodeBindGroupLayout r) (nodeGpuData r) (jointInfoBuffer r) (inverseBindMatrixBuffer r) (constantBindGroupLayout r) (constantBindGroup r) (gltfPipelineLayout r) (vertShaderModule r) (fragShaderModule r) (skin0Reads r).

Definition set_frameBindGroupLayout (v : option GPUBindGroupLayout) (r : t) : t :=
    mk (gltf_group r) (device r) (canvas r) (isFirstRenderer r) (primitiveGpuData r) (gpuBuffers r) (cameraBuffer r) (instanceBuffer r) (jointTransformBuffer r) v (frameBindGroup r) (nodeBindGroupLayout r) (nodeGpuData r) (jointInfoBuffer r) (inverseBindMatrixBuffer r) (constantBindGroupLayout r) (constantBindGroup r) (gltfPipelineLayout r) (vertShaderModule r) (fragShaderModule r) (skin0Reads r).

Definition set_frameBindGroup (v : option GPUBindGroup) (r : t) : t :=
    mk (gltf_group r) (device r) (canvas r) (isFirstRenderer r) (primitiveGpuData r) (gpuBuffers r) (cameraBuffer r) (instanceBuffer r) (jointTransformBuffer r) (frameBindGroupLayout r) v (nodeBindGroupLayout r) (nodeGpuData r) (jointInfoBuffer r) (inverseBindMatrixBuffer r) (constantBindGroupLayout r) (constantBindGroup r) (gltfPipelineLayout r) (vertShaderModule r) (fragShaderModule r) (skin0Reads r).

Definition set_nodeBindGroupLayout (v : option GPUBindGroupLayout) (r : t) : t :=
    mk (gltf_group r) (device r) (canvas r) (isFirstRenderer r) (primitiveGpuData r) (gpuBuffers r) (cameraBuffer r) (instanceBuffer r) (jointTransformBuffer r) (frameBindGroupLayout r) (frameBindGroup r) v (nodeGpuData r) (jointInfoBuffer r) (inverseBindMatrixBuffer r) (constantBindGroupLayout r) (constantBindGroup r) (gltfPipelineLayout r) (vertShaderModule r) (fragShaderModule r) (skin0Reads r).

Definition set_nodeGpuData (v : list (nat * GPUBindGroup)) (r : t) : t :=
    mk (gltf_group r) (device r) (canvas r) (isFirstRenderer r) (primitiveGpuData r) (gpuBuffers r) (cameraBuffer r) (instanceBuffer r) (jointTransformBuffer r) (frameBindGroupLayout r) (frameBindGroup r) (nodeBindGroupLayout r) v (jointInfoBuffer r) (inverseBindMatrixBuffer r) (constantBindGroupLayout r) (constantBindGroup r) (gltfPipelineLayout r) (vertShaderModule r) (fragShaderModule r) (skin0Reads r).

Definition set_jointInfoBuffer (v : option GPUBuffer) (r : t) : t :=
    mk (gltf_group r) (device r) (canvas r) (isFirstRenderer r) (primitiveGpuData r) (gpuBuffers r) (cameraBuffer r) (instanceBuffer r) (jointTransformBuffer r) (frameBindGroupLayout r) (frameBindGroup r) (nodeBindGroupLayout r) (nodeGpuData r) v (inverseBindMatrixBuffer r) (constantBindGroupLayout r) (constantBindGroup r) (gltfPipelineLayout r) (vertShaderModule r) (fragShaderModule r) (skin0Reads r).

Definition set_inverseBindMatrixBuffer (v : option GPUBuffer) (r : t) : t :=
    mk (gltf_group r) (device r) (canvas r) (isFirstRenderer r) (primitiveGpuData r) (gpuBuffers r) (cameraBuffer r) (instanceBuffer r) (jointTransformBuffer r) (frameBindGroupLayout r) (frameBindGroup r) (nodeBindGroupLayout r) (nodeGpuData r) (jointInfoBuffer r) v (constantBindGroupLayout r) (constantBindGroup r) (gltfPipelineLayout r) (vertShaderModule r) (fragShaderModule r) (skin0Reads r).

Definition set_constantBindGroupLayout (v : option GPUBindGroupLayout) (r : t) : t :=
    mk (gltf_group r) (device r) (canvas r) (isFirstRenderer r) (primitiveGpuData r) (gpuBuffers r) (cameraBuffer r) (instanceBuffer r) (jointTransformBuffer r) (frameBindGroupLayout r) (frameBindGroup r) (nodeBindGroupLayout r) (nodeGpuData r) (jointInfoBuffer r) (inverseBindMatrixBuffer r) v (constantBindGroup r) (gltfPipelineLayout r) (vertShaderModule r) (fragShaderModule r) (skin0Reads r).

Definition set_constantBindGroup (v : option GPUBindGroup) (r : t) : t :=
    mk (gltf_group r) (device r) (canvas r) (isFirstRenderer r) (primitiveGpuData r) (gpuBuffers r) (cameraBuffer r) (instanceBuffer r) (jointTransformBuffer r) (frameBindGroupLayout r) (frameBindGroup r) (nodeBindGroupLayout r) (nodeGpuData r) (jointInfoBuffer r) (inverseBindMatrixBuffer r) (constantBindGroupLayout r) v (gltfPipelineLayout r) (vertShaderModule r) (fragShaderModule r) (skin0Reads r).

Definition set_gltfPipelineLayout (v : option GPUPipelineLayout) (r : t) : t :=
    mk (gltf_group r) (device r) (canvas r) (isFirstRenderer r) (primitiveGpuData r) (gpuBuffers r) (cameraBuffer r) (instanceBuffer r) (jointTransformBuffer r) (frameBindGroupLayout r) (frameBindGroup r) (nodeBindGroupLayout r) (nodeGpuData r) (jointInfoBuffer r) (inverseBindMatrixBuffer r) (constantBindGroupLayout r) (constantBindGroup r) v (vertShaderModule r) (fragShaderModule r) (skin0Reads r).

Definition set_vertShaderModule (v : option GPUShaderModule) (r : t) : t :=
    mk (gltf_group r) (device r) (canvas r) (isFirstRenderer r) (primitiveGpuData r) (gpuBuffers r) (cameraBuffer r) (instanceBuffer r) (jointTransformBuffer r) (frameBindGroupLayout r) (frameBindGroup r) (nodeBindGroupLayout r) (nodeGpuData r) (jointInfoBuffer r) (inverseBindMatrixBuffer r) (constantBindGroupLayout r) (constantBindGroup r) (gltfPipelineLayout r) v (fragShaderModule r) (skin0Reads r).

Definition set_fragShaderModule (v : option GPUShaderModule) (r : t) : t :=
    mk (gltf_group r) (device r) (canvas r) (isFirstRenderer r) (primitiveGpuData r) (gpuBuffers r) (cameraBuffer r) (instanceBuffer r) (jointTransformBuffer r) (frameBindGroupLayout r) (frameBindGroup r) (nodeBindGroupLayout r) (nodeGpuData r) (jointInfoBuffer r) (inverseBindMatrixBuffer r) (constantBindGroupLayout r) (constantBindGroup r) (gltfPipelineLayout r) (vertShaderModule r) v (skin0Reads r).

Definition set_skin0Reads (v : nat) (r : t) : t :=
    mk (gltf_group r) (device r) (canvas r) (isFirstRenderer r) (primitiveGpuData r) (gpuBuffers r) (cameraBuffer r) (instanceBuffer r) (jointTransformBuffer r) (frameBindGroupLayout r) (frameBindGroup r) (nodeBindGroupLayout r) (nodeGpuData r) (jointInfoBuffer r) (inverseBindMatrixBuffer r) (constantBindGroupLayout r) (constantBindGroup r) (gltfPipelineLayout r) (vertShaderModule r) (fragShaderModule r) v.

End GltfRenderer.

(** ** Exceptions and the renderer monad *)

Inductive JsError :=
| TypeError (what : string)
| RangeError (what : string)
| Rejected (what : string).

Inductive Res (A : Type) :=
| Ok (a : A) (r : GltfRenderer.t)
| Throw (e : JsError) (r : GltfRenderer.t).
Arguments Ok {A} a r.
Arguments Throw {A} e r.

Definition M (A : Type) : Type := GltfRenderer.t -> Res A.

Definition ret {A} (a : A) : M A := fun r => Ok a r.

Definition bind {A B} (m : M A) (k : A -> M B) : M B :=
  fun r => match m r with
           | Ok a r' => k a r'
           | Throw e r' => Throw e r'
           end.

Definition throw {A} (e : JsError) : M A := fun r => Throw e r.

Definition this : M GltfRenderer.t := fun r => Ok r r.

Definition assign (f : GltfRenderer.t -> GltfRenderer.t) : M unit :=
  fun r => Ok tt (f r).

(** The renderer as the call left it, whether it returned or threw. *)
Definition stateOf {A} (x : Res A) : GltfRenderer.t :=
  match x with Ok _ r => r | Throw _ r => r end.

Declare Scope js_scope.
Delimit Scope js_scope with js.
Notation "x <~ m ;; k" := (bind m (fun x => k))
  (at level 100, m at next level, right associativity) : js_scope.
Notation "m ;;; k" := (bind m (fun _ => k))
  (at level 100, right associativity) : js_scope.
Local Open Scope js_scope.

(** [for (const x of xs) { acc = body(acc, x) }] with the loop-carried
    locals passed along. *)
Fixpoint forOf {A L} (xs : list A) (body : L -> A -> M L) (acc : L) : M L :=
  match xs with
  | [] => ret acc
  | x :: rest => acc' <~ body acc x ;; forOf rest body acc'
  end.

(** [for (const x of xs) { body(x) }] *)
Definition forEach {A} (xs : list A) (body : A -> M unit) : M unit :=
  forOf xs (fun _ x => body x) tt.

(** *** Device requests *)

Definition onDevice (f : GPUDevice.t -> GPUDevice.t) : M unit :=
  assign (fun r => GltfRenderer.set_device (f (GltfRenderer.device r)) r).

Definition createBuffer (descriptor : GPUBufferDescriptor.t) : M GPUBuffer :=
  r <~ this ;;
  onDevice (DeviceUpdate.on_buffers (fun l => l ++ [descriptor])) ;;;
  ret (length (GPUDevice.buffers (GltfRenderer.device r))).

Definition createBindGroupLayout (descriptor : GPUBindGroupLayoutDescriptor.t)
  : M GPUBindGroupLayout :=
  r <~ this ;;
  onDevice (DeviceUpdate.on_bindGroupLayouts (fun l => l ++ [descriptor])) ;;;
  ret (length (GPUDevice.bindGroupLayouts (GltfRenderer.device r))).

Definition createBindGroup (descriptor : GPUBindGroupDescriptor.t) : M GPUBindGroup :=
  r <~ this ;;
  onDevice (DeviceUpdate.on_bindGroups (fun l => l ++ [descriptor])) ;;;
  ret (length (GPUDevice.bindGroups (GltfRenderer.device r))).

Definition createPipelineLayout (bindGroupLayouts : list (option GPUBindGroupLayout))
  : M GPUPipelineLayout :=
  r <~ this ;;
  onDevice (DeviceUpdate.on_pipelineLayouts (fun l => l ++ [bindGroupLayouts])) ;;;
  ret (length (GPUDevice.pipelineLayouts (GltfRenderer.device r))).

Definition createShaderModule (label : string) : M GPUShaderModule :=
  r <~ this ;;
  onDevice (DeviceUpdate.on_shaderModules (fun l => l ++ [label])) ;;;
  ret (length (GPUDevice.shaderModules (GltfRenderer.device r))).

Definition createRenderPipeline (descriptor : GPURenderPipelineDescriptor.t)
  : M GPURenderPipeline :=
  r <~ this ;;
  onDevice (DeviceUpdate.on_renderPipelines (fun l => l ++ [descriptor])) ;;;
  ret (length (GPUDevice.renderPipelines (GltfRenderer.device r))).

(** [device.queue.writeBuffer(buffer, bufferOffset, data)]; [data] is the
    content of the array buffer, one entry per 32-bit float. *)
Definition writeBuffer (buffer : option GPUBuffer) (bufferOffset : Z) (data : list Z)
  : M unit :=
  match buffer with
  | Some b => onDevice (DeviceUpdate.on_queueWrites (fun l => l ++ [(b, bufferOffset, data)]))
  | None => throw (TypeError "writeBuffer: buffer is undefined")
  end.

Definition encode (c : EncoderCommand) : M unit :=
  onDevice (DeviceUpdate.on_commands (fun l => l ++ [c])).

(** *** Typed arrays *)

(** [new ArrayBuffer(byteLength)] for a multiple of 4: the zeroed floats. *)
Definition newArrayBuffer (byteLength : Z) : M (list Z) :=
  if (byteLength <? 0)%Z then throw (RangeError "Invalid array buffer length")
  else ret (repeat 0%Z (Z.to_nat (byteLength / Float32Array_BYTES_PER_ELEMENT))).

(** [new Float32Array(buffer, byteOffset, len).set(src)]: the buffer
    afterwards.  The view must lie inside the buffer, and the source must
    exist and fit the view. *)
Definition float32Set (buffer : list Z) (byteOffset len : Z) (src : option (list Z))
  : M (list Z) :=
  if (Z.of_nat (length buffer) * Float32Array_BYTES_PER_ELEMENT
      <? byteOffset + len * Float32Array_BYTES_PER_ELEMENT)%Z
  then throw (RangeError "Invalid typed array length")
  else match src with
       | None => throw (TypeError "set: source is undefined")
       | Some xs =>
           if (len <? Z.of_nat (length xs))%Z
           then throw (RangeError "offset is out of bounds")
           else
             let start := Z.to_nat (byteOffset / Float32Array_BYTES_PER_ELEMENT) in
             ret (take start buffer ++ xs ++ drop (start + length xs) buffer)
       end.

(** [whole.subarray(begin, end)] on a byte array. *)
Definition relativeIndex (len i : Z) : Z :=
  if (i <? 0)%Z then Z.max (len + i) 0 else Z.min i len.

Definition subarray (whole : list Z) (begin end_ : Z) : list Z :=
  let len := Z.of_nat (length whole) in
  let b := relativeIndex len begin in
  let e := relativeIndex len end_ in
  take (Z.to_nat (Z.max (e - b) 0)) (drop (Z.to_nat b) whole).

(** ** Reading the asset *)

Definition gltfOf (r : GltfRenderer.t) : GlTf.t :=
  GLTFGroup.gltf (GltfRenderer.gltf_group r).

(** [const accessor = gltf.accessors[i]] followed at once by a property
    read of [accessor]: a missing accessor is a [TypeError]. *)
Definition accessorAt (i : option GlTfId) : M Accessor.t :=
  r <~ this ;;
  match i ≫= (fun i => GlTf.accessors (gltfOf r) !! i) with
  | Some accessor => ret accessor
  | None => throw (TypeError "accessor is undefined")
  end.

(** [gltf.bufferViews[i]]; no property is read yet. *)
Definition bufferViewAt (r : GltfRenderer.t) (i : option GlTfId) : option BufferView.t :=
  i ≫= (fun i => GlTf.bufferViews (gltfOf r) !! i).

(** [this.gpuBuffers[i]] *)
Definition gpuBufferAt (i : option GlTfId) : M (option GPUBuffer) :=
  r <~ this ;;
  match GltfRenderer.gpuBuffers r with
  | Some buffers => ret (i ≫= (fun i => buffers !! i))
  | None => throw (TypeError "gpuBuffers is undefined")
  end.

(** [gltf.skins[0]] followed by a property read; counts the read. *)
Definition skins0 : M Skin.t :=
  assign (fun r => GltfRenderer.set_skin0Reads (S (GltfRenderer.skin0Reads r)) r) ;;;
  r <~ this ;;
  match GlTf.skins (gltfOf r) with
  | None => throw (TypeError "skins is undefined")
  | Some skins =>
      match skins !! 0%nat with
      | Some skin => ret skin
      | None => throw (TypeError "skins[0] is undefined")
      end
  end.

Definition hasSkins (r : GltfRenderer.t) : bool :=
  match GlTf.skins (gltfOf r) with Some _ => true | None => false end.

(** ** [loadGPUBuffers] *)

(** [bufferViewUsages] is used both as a [Map] ([set], [has]) and as a
    plain object ([usages[k] = v], [usages[i]]).  A key is the value of
    [accessor.bufferView], a number or [undefined]; as a property name it
    is that value's decimal string, which determines it. *)
Module BufferViewUsages.
Record t := mk {
  entries : gmap (option GlTfId) Z;
  properties : gmap (option GlTfId) Z
}.
Definition empty : t := mk ∅ ∅.
Definition mark (key : option GlTfId) (usage : Z) (u : t) : t :=
  mk (<[key := usage]> (entries u)) (<[key := usage]> (properties u)).
Definition has (i : GlTfId) (u : t) : bool :=
  bool_decide (is_Some (entries u !! Some i)).
Definition property (i : GlTfId) (u : t) : option Z :=
  properties u !! Some i.
End BufferViewUsages.

Definition markPrimitive (usages : BufferViewUsages.t) (primitive : MeshPrimitive.t)
  : M BufferViewUsages.t :=
  usages <~ match MeshPrimitive.indices primitive with
            | Some indices =>
                accessor <~ accessorAt (Some indices) ;;
                ret (BufferViewUsages.mark (Accessor.bufferView accessor)
                       GPUBufferUsage.INDEX usages)
            | None => ret usages
            end ;;
  forOf (map snd (MeshPrimitive.attributes primitive))
    (fun usages attribute =>
       accessor <~ accessorAt (Some attribute) ;;
       ret (BufferViewUsages.mark (Accessor.bufferView accessor)
              GPUBufferUsage.VERTEX usages))
    usages.

Definition markMeshes (usages : BufferViewUsages.t) : M BufferViewUsages.t :=
  r <~ this ;;
  forOf (GlTf.meshes (gltfOf r))
    (fun usages mesh => forOf (Mesh.primitives mesh) markPrimitive usages)
    usages.

Definition markSkin (usages : BufferViewUsages.t) : M BufferViewUsages.t :=
  r <~ this ;;
  if hasSkins r then
    skin <~ skins0 ;;
    accessor <~ accessorAt (Skin.inverseBindMatrices skin) ;;
    ret (BufferViewUsages.mark (Accessor.bufferView accessor)
           (Z.lor GPUBufferUsage.STORAGE GPUBufferUsage.COPY_DST) usages)
  else ret usages.

(** [Math.ceil(byteLength / 4) * 4] on an integer. *)
Definition roundUp4 (byteLength : Z) : Z := ((byteLength + 3) / 4 * 4)%Z.

Definition pushGpuBuffer (b : GPUBuffer) : M unit :=
  r <~ this ;;
  match GltfRenderer.gpuBuffers r with
  | Some buffers => assign (GltfRenderer.set_gpuBuffers (Some (buffers ++ [b])))
  | None => throw (TypeError "gpuBuffers is undefined")
  end.

(** [await this.gltf_group.asset.bufferData.get(0)] *)
Definition awaitBufferData : M (list Z) :=
  r <~ this ;;
  match GLTFGroup.bufferData0 (GltfRenderer.gltf_group r) with
  | Some value => ret value
  | None => throw (Rejected "bufferData")
  end.

(** [gpuBufferArray.set(subArray)] on the mapped range, then [unmap]. *)
Definition setMapped (gpuBuffer : GPUBuffer) (size : Z) (subArray : list Z) : M unit :=
  if (Z.max size 0 <? Z.of_nat (length subArray))%Z
  then throw (RangeError "offset is out of bounds")
  else onDevice (DeviceUpdate.on_mappedWrites (fun l => l ++ [(gpuBuffer, subArray)])).

Definition createBufferForView (usages : BufferViewUsages.t) (i : GlTfId) : M unit :=
  if BufferViewUsages.has i usages then
    r <~ this ;;
    match GlTf.bufferViews (gltfOf r) !! i with
    | None => throw (TypeError "bufferView is undefined")
    | Some bufferView =>
        let size := roundUp4 (BufferView.byteLength bufferView) in
        gpuBuffer <~ createBuffer
          (GPUBufferDescriptor.mk (BufferView.name bufferView) size
             (BufferViewUsages.property i usages) true) ;;
        wholeArray <~ awaitBufferData ;;
        let subArray :=
          match BufferView.byteOffset bufferView with
          | Some byteOffset =>
              subarray wholeArray byteOffset
                (byteOffset + BufferView.byteLength bufferView)
          | None => subarray wholeArray 0 0
          end in
        setMapped gpuBuffer size subArray ;;;
        pushGpuBuffer gpuBuffer
    end
  else
    gpuBuffer <~ createBuffer
      (GPUBufferDescriptor.mk (Some "empty buffer") 4 (Some GPUBufferUsage.COPY_DST) false) ;;
    pushGpuBuffer gpuBuffer.

Definition loadGPUBuffers : M unit :=
  usages <~ markMeshes BufferViewUsages.empty ;;
  usages <~ markSkin usages ;;
  assign (GltfRenderer.set_gpuBuffers (Some [])) ;;;
  r <~ this ;;
  forEach (seq 0 (length (GlTf.bufferViews (gltfOf r)))) (createBufferForView usages).

(** ** Bind groups *)

Definition FRAMEBUFFERSIZE : Z := (Float32Array_BYTES_PER_ELEMENT * 36)%Z.

Definition updateInstanceBuffer : M unit :=
  r <~ this ;;
  let group := GltfRenderer.gltf_group r in
  instanceArrayBuffer <~ newArrayBuffer
    (16 * GLTFGroup.instanceCount group * Float32Array_BYTES_PER_ELEMENT) ;;
  instanceArrayBuffer <~ forOf (imap pair (GLTFGroup.transforms group))
    (fun buffer '(index, mat) =>
       let st := (Z.of_nat index * 16 * Float32Array_BYTES_PER_ELEMENT)%Z in
       float32Set buffer st 16 (Some mat))
    instanceArrayBuffer ;;
  writeBuffer (GltfRenderer.instanceBuffer r) 0 instanceArrayBuffer.

Definition frameBindGroupLayoutDescriptor : GPUBindGroupLayoutDescriptor.t :=
  GPUBindGroupLayoutDescriptor.mk "Frame BindGroupLayout"
    [ GPUBindGroupLayoutEntry.mk 0
        (Z.lor GPUShaderStage.VERTEX GPUShaderStage.FRAGMENT) (Some "uniform");
      GPUBindGroupLayoutEntry.mk 1 GPUShaderStage.VERTEX (Some "read-only-storage");
      GPUBindGroupLayoutEntry.mk 2 GPUShaderStage.VERTEX (Some "read-only-storage") ].

Definition initFrameBindGroup : M unit :=
  (* Camera *)
  cameraBuffer <~ createBuffer
    (GPUBufferDescriptor.mk None (FRAMEBUFFERSIZE * Float32Array_BYTES_PER_ELEMENT)
       (Some (Z.lor GPUBufferUsage.UNIFORM GPUBufferUsage.COPY_DST)) false) ;;
  assign (GltfRenderer.set_cameraBuffer (Some cameraBuffer)) ;;;
  (* Instance matrices *)
  r <~ this ;;
  let instanceNum := GLTFGroup.instanceCount (GltfRenderer.gltf_group r) in
  instanceBuffer <~ createBuffer
    (GPUBufferDescriptor.mk None (16 * instanceNum * Float32Array_BYTES_PER_ELEMENT)
       (Some (Z.lor GPUBufferUsage.STORAGE GPUBufferUsage.COPY_DST)) false) ;;
  assign (GltfRenderer.set_instanceBuffer (Some instanceBuffer)) ;;;
  updateInstanceBuffer ;;;
  (* Joint transforms *)
  (if hasSkins r then
     skin <~ skins0 ;;
     let jointNum := Z.of_nat (length (Skin.joints skin)) in
     jointTransformBuffer <~ createBuffer
       (GPUBufferDescriptor.mk None
          (16 * jointNum * instanceNum * Float32Array_BYTES_PER_ELEMENT)
          (Some (Z.lor GPUBufferUsage.STORAGE GPUBufferUsage.COPY_DST)) false) ;;
     assign (GltfRenderer.set_jointTransformBuffer (Some jointTransformBuffer)) ;;;
     jointTransformArrayBuffer <~ newArrayBuffer
       (16 * jointNum * Float32Array_BYTES_PER_ELEMENT) ;;
     skin <~ skins0 ;;
     jointTransformArrayBuffer <~ forOf (imap pair (Skin.joints skin))
       (fun buffer '(index, joint) =>
          let mat := GlTf.nodes (gltfOf r) !! joint ≫=
                     (fun _ => GLTFGroup.nodeMatrics (GltfRenderer.gltf_group r) !! joint) in
          let st := (Z.of_nat index * 16 * Float32Array_BYTES_PER_ELEMENT)%Z in
          float32Set buffer st 16 mat)
       jointTransformArrayBuffer ;;
     forEach (seq 0 (Z.to_nat instanceNum))
       (fun i =>
          writeBuffer (Some jointTransformBuffer)
            (Z.of_nat i * 16 * jointNum * Float32Array_BYTES_PER_ELEMENT)
            jointTransformArrayBuffer)
   else
     jointTransformBuffer <~ createBuffer
       (GPUBufferDescriptor.mk None (4 * Float32Array_BYTES_PER_ELEMENT)
          (Some (Z.lor GPUBufferUsage.STORAGE GPUBufferUsage.COPY_DST)) false) ;;
     assign (GltfRenderer.set_jointTransformBuffer (Some jointTransformBuffer))) ;;;
  layout <~ createBindGroupLayout frameBindGroupLayoutDescriptor ;;
  assign (GltfRenderer.set_frameBindGroupLayout (Some layout)) ;;;
  r <~ this ;;
  group <~ createBindGroup
    (GPUBindGroupDescriptor.mk "Frame BindGroup" (Some layout)
       [ (0%nat, GltfRenderer.cameraBuffer r);
         (1%nat, GltfRenderer.instanceBuffer r);
         (2%nat, GltfRenderer.jointTransformBuffer r) ]) ;;
  assign (GltfRenderer.set_frameBindGroup (Some group)).

(** [nodeGpuData.set(node, bindGroup)]: a present key keeps its place. *)
Fixpoint mapSet {V} (key : nat) (value : V) (m : list (nat * V)) : list (nat * V) :=
  match m with
  | [] => [(key, value)]
  | (k, v) :: rest =>
      if Nat.eqb k key then (k, value) :: rest else (k, v) :: mapSet key value rest
  end.

(** [node] is the node's position in [gltf.nodes]. *)
Definition setupMeshNodeBindGroup (node : nat) : M unit :=
  nodeUniformBuffer <~ createBuffer
    (GPUBufferDescriptor.mk None (16 * Float32Array_BYTES_PER_ELEMENT)
       (Some (Z.lor GPUBufferUsage.UNIFORM GPUBufferUsage.COPY_DST)) false) ;;
  r <~ this ;;
  (* [new Float32Array(undefined)] is the empty array *)
  let bufferData :=
    default [] (GLTFGroup.nodeMatrics (GltfRenderer.gltf_group r) !! node) in
  writeBuffer (Some nodeUniformBuffer) 0 bufferData ;;;
  bindGroup <~ createBindGroup
    (GPUBindGroupDescriptor.mk "glTF Node BindGroup"
       (GltfRenderer.nodeBindGroupLayout r) [(0%nat, Some nodeUniformBuffer)]) ;;
  assign (fun r => GltfRenderer.set_nodeGpuData
                     (mapSet node bindGroup (GltfRenderer.nodeGpuData r)) r).

Definition initNodeBindGroup : M unit :=
  layout <~ createBindGroupLayout
    (GPUBindGroupLayoutDescriptor.mk "glTF Node BindGroupLayout"
       [GPUBindGroupLayoutEntry.mk 0 GPUShaderStage.VERTEX None]) ;;
  assign (GltfRenderer.set_nodeBindGroupLayout (Some layout)) ;;;
  r <~ this ;;
  forEach (imap pair (GlTf.nodes (gltfOf r)))
    (fun '(index, node) =>
       match Node.mesh node with
       | Some _ => setupMeshNodeBindGroup index
       | None => ret tt
       end).

Definition constantBindGroupLayoutDescriptor : GPUBindGroupLayoutDescriptor.t :=
  GPUBindGroupLayoutDescriptor.mk "Constant BindGroupLayout"
    [ GPUBindGroupLayoutEntry.mk 0 GPUShaderStage.VERTEX (Some "uniform");
      GPUBindGroupLayoutEntry.mk 1 GPUShaderStage.VERTEX (Some "read-only-storage") ].

(** Truth value of a number: only zero is falsy among integers. *)
Definition numberTruthy (n : Z) : bool := negb (n =? 0)%Z.

Definition initConstantBindGroup : M unit :=
  r <~ this ;;
  let hasJoint : Z := if hasSkins r then 1%Z else 0%Z in
  jointNum <~ (if numberTruthy hasJoint
               then skin <~ skins0 ;; ret (Z.of_nat (length (Skin.joints skin)))
               else ret 0%Z) ;;
  (* Joint info buffer *)
  jointInfoBuffer <~ createBuffer
    (GPUBufferDescriptor.mk None (4 * Float32Array_BYTES_PER_ELEMENT)
       (Some (Z.lor GPUBufferUsage.UNIFORM GPUBufferUsage.COPY_DST)) false) ;;
  assign (GltfRenderer.set_jointInfoBuffer (Some jointInfoBuffer)) ;;;
  jointInfoArrayBuffer <~ newArrayBuffer (4 * Float32Array_BYTES_PER_ELEMENT) ;;
  jointInfoArrayBuffer <~
    float32Set jointInfoArrayBuffer 0 4 (Some [hasJoint; jointNum; 0%Z; 0%Z]) ;;
  writeBuffer (Some jointInfoBuffer) 0 jointInfoArrayBuffer ;;;
  (* Inverse bind matrices *)
  (if numberTruthy hasJoint then
     skin <~ skins0 ;;
     accessor <~ accessorAt (Skin.inverseBindMatrices skin) ;;
     inverseBindMatrixBuffer <~ gpuBufferAt (Accessor.bufferView accessor) ;;
     assign (GltfRenderer.set_inverseBindMatrixBuffer inverseBindMatrixBuffer)
   else
     inverseBindMatrixBuffer <~ createBuffer
       (GPUBufferDescriptor.mk None (4 * Float32Array_BYTES_PER_ELEMENT)
          (Some (Z.lor GPUBufferUsage.STORAGE GPUBufferUsage.COPY_DST)) false) ;;
     assign (GltfRenderer.set_inverseBindMatrixBuffer (Some inverseBindMatrixBuffer))) ;;;
  layout <~ createBindGroupLayout constantBindGroupLayoutDescriptor ;;
  assign (GltfRenderer.set_constantBindGroupLayout (Some layout)) ;;;
  r <~ this ;;
  group <~ createBindGroup
    (GPUBindGroupDescriptor.mk "Constant BindGroup" (Some layout)
       [ (0%nat, GltfRenderer.jointInfoBuffer r);
         (1%nat, GltfRenderer.inverseBindMatrixBuffer r) ]) ;;
  assign (GltfRenderer.set_constantBindGroup (Some group)).

(** ** Pipelines *)

(** Make sure the shaders follow this mapping.  A [Map]: iterated in
    insertion order. *)
Definition ShaderLocations : list (string * Z) :=
  [ ("POSITION", 0%Z); ("NORMAL", 1%Z); ("JOINTS_0", 2%Z); ("WEIGHTS_0", 3%Z) ].

(** The second loop of [setupPrimitive] reads [ShaderLocations[attribName]].
    On a [Map] the bracket reads a property of the Map object, never an
    entry: [size], or what every Map inherits from [Map.prototype] and
    [Object.prototype]. *)
Definition inheritedMapProperties : list string :=
  [ "constructor"; "has"; "get"; "set"; "delete"; "clear"; "entries";
    "forEach"; "keys"; "values"; "hasOwnProperty"; "isPrototypeOf";
    "propertyIsEnumerable"; "toLocaleString"; "toString"; "valueOf";
    "__proto__"; "__defineGetter__"; "__defineSetter__";
    "__lookupGetter__"; "__lookupSetter__" ].

Definition mapObjectProperty {V} (entries : list (string * V)) (name : string)
  : option JsValue :=
  if String.eqb name "size" then Some (JsNumber (Z.of_nat (length entries)))
  else if existsb (String.eqb name) inheritedMapProperties then Some (JsObject name)
  else None.

Definition getVertexShaderModule : M GPUShaderModule :=
  r <~ this ;;
  match GltfRenderer.vertShaderModule r with
  | Some module => ret module
  | None =>
      module <~ createShaderModule "glTF vertex shader module" ;;
      assign (GltfRenderer.set_vertShaderModule (Some module)) ;;;
      ret module
  end.

Definition getFragmentShaderModule : M GPUShaderModule :=
  r <~ this ;;
  match GltfRenderer.fragShaderModule r with
  | Some module => ret module
  | None =>
      module <~ createShaderModule "glTF fragment shader module" ;;
      assign (GltfRenderer.set_fragShaderModule (Some module)) ;;;
      ret module
  end.

(** The locals of [setupPrimitive] that its two loops update. *)
Module Locals.
Record t := mk {
  bufferLayout : list GPUVertexBufferLayout.t;
  primitiveGpuBuffers : list GPUPrimitiveBufferInfo.t;
  drawCount : Z
}.
Definition initial : t := mk [] [] 0%Z.
End Locals.

(** [bufferView.byteStride || packedArrayStrideForAccessor(accessor)] *)
Definition arrayStrideFor (bufferView : BufferView.t) (accessor : Accessor.t) : Z :=
  match BufferView.byteStride bufferView with
  | Some byteStride =>
      if numberTruthy byteStride then byteStride
      else GLTFUtil.packedArrayStrideForAccessor accessor
  | None => GLTFUtil.packedArrayStrideForAccessor accessor
  end.

Definition layoutFor (bufferView : BufferView.t) (accessor : Accessor.t)
    (location : JsValue) : GPUVertexBufferLayout.t :=
  GPUVertexBufferLayout.mk (arrayStrideFor bufferView accessor)
    [GPUVertexAttribute.mk (GLTFUtil.gpuFormatForAccessor accessor) 0 location].

(** The two [push]es and the [drawCount] update shared by both loops. *)
Definition pushAttribute (accessor : Accessor.t) (bufferView : option BufferView.t)
    (location : JsValue) (locals : Locals.t) : M Locals.t :=
  match bufferView with
  | None => throw (TypeError "bufferView is undefined")
  | Some bufferView =>
      buffer <~ gpuBufferAt (Accessor.bufferView accessor) ;;
      ret (Locals.mk
             (Locals.bufferLayout locals ++ [layoutFor bufferView accessor location])
             (Locals.primitiveGpuBuffers locals ++
                [GPUPrimitiveBufferInfo.mk buffer (Accessor.byteOffset accessor)])
             (Accessor.count accessor))
  end.

(** The inner loop of the first loop: skip entries under another name,
    stop at the first entry under this name. *)
Fixpoint findAttribute (atrrNameInShader : string) (entries : list (string * GlTfId))
  : option GlTfId :=
  match entries with
  | [] => None
  | (attribName, accessorIndex) :: rest =>
      if negb (String.eqb attribName atrrNameInShader)
      then findAttribute atrrNameInShader rest
      else Some accessorIndex
  end.

Definition shaderAttributeStep (primitive : MeshPrimitive.t) (locals : Locals.t)
    (entry : string * Z) : M Locals.t :=
  let '(atrrNameInShader, location) := entry in
  match findAttribute atrrNameInShader (MeshPrimitive.attributes primitive) with
  | Some accessorIndex =>
      accessor <~ accessorAt (Some accessorIndex) ;;
      r <~ this ;;
      pushAttribute accessor (bufferViewAt r (Accessor.bufferView accessor))
        (JsNumber location) locals
  | None => ret locals
  end.

Definition primitiveAttributeStep (locals : Locals.t) (entry : string * GlTfId)
  : M Locals.t :=
  let '(attribName, accessorIndex) := entry in
  accessor <~ accessorAt (Some accessorIndex) ;;
  r <~ this ;;
  let bufferView := bufferViewAt r (Accessor.bufferView accessor) in
  match mapObjectProperty ShaderLocations attribName with
  | None => ret locals
  | Some shaderLocation => pushAttribute accessor bufferView shaderLocation locals
  end.

Definition buildVertexState (primitive : MeshPrimitive.t) : M Locals.t :=
  locals <~ forOf ShaderLocations (shaderAttributeStep primitive) Locals.initial ;;
  forOf (MeshPrimitive.attributes primitive) primitiveAttributeStep locals.

Definition pipelineDescriptor (r : GltfRenderer.t) (vertModule fragModule : GPUShaderModule)
    (bufferLayout : list GPUVertexBufferLayout.t) (primitive : MeshPrimitive.t)
  : GPURenderPipelineDescriptor.t :=
  GPURenderPipelineDescriptor.mk "glTF renderer pipeline"
    (GltfRenderer.gltfPipelineLayout r)
    vertModule "vertexMain" bufferLayout
    (GLTFUtil.gpuPrimitiveTopologyForMode (MeshPrimitive.mode primitive))
    "back" true "less" "depth24plus-stencil8"
    fragModule "fragmentMain" "bgra8unorm".

(** [key] is the identity of the [primitive] object. *)
Definition setupPrimitive (key : PrimitiveRef) (primitive : MeshPrimitive.t) : M unit :=
  locals <~ buildVertexState primitive ;;
  vertModule <~ getVertexShaderModule ;;
  fragModule <~ getFragmentShaderModule ;;
  r <~ this ;;
  pipeline <~ createRenderPipeline
    (pipelineDescriptor r vertModule fragModule (Locals.bufferLayout locals) primitive) ;;
  let gpuPrimitive :=
    GPUPrimitiveInfo.mk pipeline (Locals.primitiveGpuBuffers locals)
      (Locals.drawCount locals) None None None in
  gpuPrimitive <~
    match MeshPrimitive.indices primitive with
    | Some indices =>
        accessor <~ accessorAt (Some indices) ;;
        indexBuffer <~ gpuBufferAt (Accessor.bufferView accessor) ;;
        ret (GPUPrimitiveInfo.mk pipeline (Locals.primitiveGpuBuffers locals)
               (Accessor.count accessor) indexBuffer (Accessor.byteOffset accessor)
               (Some (GLTFUtil.gpuIndexFormatForComponentType
                        (Accessor.componentType accessor))))
    | None => ret gpuPrimitive
    end ;;
  assign (fun r => GltfRenderer.set_primitiveGpuData
                     (<[key := gpuPrimitive]> (GltfRenderer.primitiveGpuData r)) r).

(** ** Initialization *)

Definition initializeWebGPUAndGLTF : M unit :=
  loadGPUBuffers ;;;
  initConstantBindGroup ;;;
  initFrameBindGroup ;;;
  initNodeBindGroup ;;;
  r <~ this ;;
  layout <~ createPipelineLayout
    [ GltfRenderer.constantBindGroupLayout r;
      GltfRenderer.frameBindGroupLayout r;
      GltfRenderer.nodeBindGroupLayout r ] ;;
  assign (GltfRenderer.set_gltfPipelineLayout (Some layout)) ;;;
  forEach (imap pair (GlTf.meshes (gltfOf r)))
    (fun '(meshIndex, mesh) =>
       forEach (imap pair (Mesh.primitives mesh))
         (fun '(index, primitive) => setupPrimitive (meshIndex, index) primitive)).

(** The renderer [init] sets up before it calls [initializeWebGPUAndGLTF]. *)
Definition newRenderer (device : GPUDevice.t) (canvas : Z * Z)
    (gltf_group : GLTFGroup.t) (isFirstRenderer : bool) : GltfRenderer.t :=
  GltfRenderer.mk gltf_group device canvas isFirstRenderer ∅ None
    None None None None None None [] None None None None None None None 0.

Definition init (device : GPUDevice.t) (canvas : Z * Z)
    (gltf_group : GLTFGroup.t) (isFirstRenderer : bool) : Res unit :=
  initializeWebGPUAndGLTF (newRenderer device canvas gltf_group isFirstRenderer).

(** ** Per frame *)

Definition drawPrimitive (meshIndex : nat) (entry : nat * MeshPrimitive.t) : M unit :=
  let '(index, _) := entry in
  r <~ this ;;
  match GltfRenderer.primitiveGpuData r !! (meshIndex, index) with
  | None => throw (TypeError "gpuPrimitive is undefined")
  | Some gpuPrimitive =>
      let instanceCount := GLTFGroup.instanceCount (GltfRenderer.gltf_group r) in
      encode (SetPipeline (GPUPrimitiveInfo.pipeline gpuPrimitive)) ;;;
      forEach (imap pair (GPUPrimitiveInfo.buffers gpuPrimitive))
        (fun '(i, bufferInfo) =>
           encode (SetVertexBuffer i (GPUPrimitiveBufferInfo.buffer bufferInfo)
                     (GPUPrimitiveBufferInfo.offset bufferInfo))) ;;;
      match GPUPrimitiveInfo.indexBuffer gpuPrimitive with
      | Some indexBuffer =>
          encode (SetIndexBuffer indexBuffer (GPUPrimitiveInfo.indexType gpuPrimitive)
                    (GPUPrimitiveInfo.indexOffset gpuPrimitive)) ;;;
          encode (DrawIndexed (GPUPrimitiveInfo.drawCount gpuPrimitive)
                    instanceCount 0 0 0)
      | None =>
          encode (Draw (GPUPrimitiveInfo.drawCount gpuPrimitive) instanceCount 0 0)
      end
  end.

Definition drawNode (entry : nat * GPUBindGroup) : M unit :=
  let '(node, bindGroup) := entry in
  encode (SetBindGroup 2 (Some bindGroup)) ;;;
  r <~ this ;;
  match GlTf.nodes (gltfOf r) !! node ≫= Node.mesh with
  | None => throw (TypeError "mesh is undefined")
  | Some meshIndex =>
      match GlTf.meshes (gltfOf r) !! meshIndex with
      | None => throw (TypeError "mesh is undefined")
      | Some mesh => forEach (imap pair (Mesh.primitives mesh)) (drawPrimitive meshIndex)
      end
  end.

(** One turn of the frame loop; the last command asks for the next. *)
Definition renderGLTF : M unit :=
  r <~ this ;;
  let loadOp := if GltfRenderer.isFirstRenderer r then "clear" else "load" in
  encode (BeginRenderPass loadOp) ;;;
  encode (SetBindGroup 0 (GltfRenderer.constantBindGroup r)) ;;;
  encode (SetBindGroup 1 (GltfRenderer.frameBindGroup r)) ;;;
  forEach (GltfRenderer.nodeGpuData r) drawNode ;;;
  let '(width, height) := GltfRenderer.canvas r in
  encode (SetViewport 0 0 width height 0 1) ;;;
  encode (SetScissorRect 0 0 width height) ;;;
  encode EndPass ;;;
  encode Submit ;;;
  encode RequestAnimationFrame.

Definition updateCameraBuffer (projMat viewMat : mat4) (pos : list Z) (time : Z) : M unit :=
  frameArrayBuffer <~ newArrayBuffer FRAMEBUFFERSIZE ;;
  frameArrayBuffer <~ float32Set frameArrayBuffer 0 16 (Some projMat) ;;
  frameArrayBuffer <~ float32Set frameArrayBuffer
    (16 * Float32Array_BYTES_PER_ELEMENT) 16 (Some viewMat) ;;
  frameArrayBuffer <~ float32Set frameArrayBuffer
    (32 * Float32Array_BYTES_PER_ELEMENT) 3 (Some pos) ;;
  frameArrayBuffer <~ float32Set frameArrayBuffer
    (35 * Float32Array_BYTES_PER_ELEMENT) 1 (Some [time]) ;;
  r <~ this ;;
  writeBuffer (GltfRenderer.cameraBuffer r) 0 frameArrayBuffer.

(** * Specification vocabulary

    The invariants, scenarios and reference lists the theorems below are
    stated with. *)

(** ** Invariants *)

(** [keeps I m]: [m] maintains [I], however it ends. *)
Definition keeps {A} (I : GltfRenderer.t -> Prop) (m : M A) : Prop :=
  forall r, I r -> I (stateOf (m r)).

(** [field] holds a buffer that was created with [descriptor]. *)
Definition createdWith (field : GltfRenderer.t -> option GPUBuffer)
    (buffer : GPUBuffer) (descriptor : GPUBufferDescriptor.t)
    (r : GltfRenderer.t) : Prop :=
  field r = Some buffer /\
  GPUDevice.buffers (GltfRenderer.device r) !! buffer = Some descriptor.

(** The asset is [group] and [skins[0]] has been read [reads] times. *)
Definition skinReads (group : GLTFGroup.t) (reads : nat) (r : GltfRenderer.t) : Prop :=
  GltfRenderer.gltf_group r = group /\ GltfRenderer.skin0Reads r = reads.

(** The asset is [group]. *)
Definition sameGroup (group : GLTFGroup.t) (r : GltfRenderer.t) : Prop :=
  GltfRenderer.gltf_group r = group.

(** What [setupPrimitive] leaves alone until it stores its result. *)
Definition untouched (r0 r : GltfRenderer.t) : Prop :=
  GltfRenderer.gltf_group r = GltfRenderer.gltf_group r0 /\
  GltfRenderer.gpuBuffers r = GltfRenderer.gpuBuffers r0 /\
  GltfRenderer.primitiveGpuData r = GltfRenderer.primitiveGpuData r0 /\
  GltfRenderer.gltfPipelineLayout r = GltfRenderer.gltfPipelineLayout r0 /\
  GPUDevice.renderPipelines (GltfRenderer.device r)
  = GPUDevice.renderPipelines (GltfRenderer.device r0).

(** The asset, and the node bind groups set up so far. *)
Definition nodesAre (group : GLTFGroup.t) (nodes : list (nat * GPUBindGroup))
    (r : GltfRenderer.t) : Prop :=
  GltfRenderer.gltf_group r = group /\ GltfRenderer.nodeGpuData r = nodes.

(** ** Scenarios *)

Module Scenario.

Definition identity : mat4 := [1; 0; 0; 0; 0; 1; 0; 0; 0; 0; 1; 0; 0; 0; 0; 1]%Z.

(** Two triangles in one mesh: the first indexed (3 unsigned-short
    indices), the second not (3 vertices); three buffer views, the last
    one referenced by nothing; no skin. *)
Definition positions : Accessor.t :=
  Accessor.mk (Some 0%nat) (Some 0%Z) GLTFUtil.GL_FLOAT None 3 "VEC3".
Definition triangleIndices : Accessor.t :=
  Accessor.mk (Some 1%nat) (Some 0%Z) GLTFUtil.GL_UNSIGNED_SHORT None 3 "SCALAR".

Definition indexedTriangle : MeshPrimitive.t :=
  MeshPrimitive.mk [("POSITION", 0%nat)] (Some 1%nat) (Some GLTFUtil.GL_TRIANGLES).
Definition plainTriangle : MeshPrimitive.t :=
  MeshPrimitive.mk [("POSITION", 0%nat)] None (Some GLTFUtil.GL_TRIANGLES).

Definition twoTriangles : GlTf.t :=
  GlTf.mk [positions; triangleIndices]
    [ BufferView.mk None (Some 0%Z) 36 None;
      BufferView.mk None (Some 36%Z) 6 None;
      BufferView.mk None (Some 44%Z) 6 None ]
    [Mesh.mk [indexedTriangle; plainTriangle]]
    [Node.mk (Some 0%nat)]
    None.

Definition twoTrianglesGroup : GLTFGroup.t :=
  GLTFGroup.mk twoTriangles 2 [identity; identity] {[ 0%nat := identity ]}
    (Some (repeat 7%Z 50)).

Definition fresh (group : GLTFGroup.t) : GltfRenderer.t :=
  newRenderer GPUDevice.empty (800, 600)%Z group true.

End Scenario.

Module Rigged.

(** One triangle skinned to two joints (nodes 1 and 2), three instances. *)
Definition weights : Accessor.t :=
  Accessor.mk (Some 1%nat) (Some 0%Z) GLTFUtil.GL_FLOAT None 3 "VEC4".
Definition jointIndices : Accessor.t :=
  Accessor.mk (Some 2%nat) (Some 0%Z) GLTFUtil.GL_UNSIGNED_BYTE None 3 "VEC4".
Definition inverseBind : Accessor.t :=
  Accessor.mk (Some 3%nat) (Some 0%Z) GLTFUtil.GL_FLOAT None 2 "MAT4".

Definition skinned : MeshPrimitive.t :=
  MeshPrimitive.mk
    [("JOINTS_0", 2%nat); ("WEIGHTS_0", 1%nat); ("POSITION", 0%nat)]
    None None.

Definition asset : GlTf.t :=
  GlTf.mk [Scenario.positions; weights; jointIndices; inverseBind]
    [ BufferView.mk None (Some 0%Z) 36 None;
      BufferView.mk None (Some 36%Z) 48 None;
      BufferView.mk None (Some 84%Z) 12 None;
      BufferView.mk (Some "ibm") (Some 96%Z) 128 None ]
    [Mesh.mk [skinned]]
    [Node.mk (Some 0%nat); Node.mk None; Node.mk None]
    (Some [Skin.mk (Some 3%nat) [1%nat; 2%nat]]).

Definition group : GLTFGroup.t :=
  GLTFGroup.mk asset 3 [Scenario.identity; Scenario.identity; Scenario.identity]
    (<[ 0%nat := Scenario.identity ]>
       (<[ 1%nat := Scenario.identity ]> {[ 2%nat := Scenario.identity ]}))
    (Some (repeat 0%Z 224)).

End Rigged.

Module Scenario2.

Definition loaded (group : GLTFGroup.t) : GltfRenderer.t :=
  stateOf (loadGPUBuffers (Scenario.fresh group)).

(** A triangle fan over the positions of the two-triangle asset. *)
Definition fan : MeshPrimitive.t :=
  MeshPrimitive.mk [("POSITION", 0%nat)] None (Some GLTFUtil.GL_TRIANGLE_FAN).

Definition fanGroup : GLTFGroup.t :=
  GLTFGroup.mk
    (GlTf.mk [Scenario.positions] [BufferView.mk None (Some 0%Z) 36 None]
       [Mesh.mk [fan]] [Node.mk (Some 0%nat)] None)
    1 [Scenario.identity] {[ 0%nat := Scenario.identity ]} (Some (repeat 7%Z 36)).

(** A primitive with an attribute named like a property of every [Map]. *)
Definition sizeNamed : MeshPrimitive.t :=
  MeshPrimitive.mk [("POSITION", 0%nat); ("size", 0%nat)] None
    (Some GLTFUtil.GL_TRIANGLES).

End Scenario2.

(** ** The frame tier *)

Definition mat4Fits (mat : mat4) : bool := (length mat <=? 16)%nat.

Definition instancesReady (group : GLTFGroup.t) : bool :=
  (0 <=? GLTFGroup.instanceCount group)%Z
  && (Z.of_nat (length (GLTFGroup.transforms group)) <=? GLTFGroup.instanceCount group)%Z
  && forallb mat4Fits (GLTFGroup.transforms group).

Definition jointMatrix (group : GLTFGroup.t) (joint : GlTfId) : option mat4 :=
  GlTf.nodes (GLTFGroup.gltf group) !! joint ≫= (fun _ => GLTFGroup.nodeMatrics group !! joint).

Definition jointsReady (group : GLTFGroup.t) : bool :=
  match GlTf.skins (GLTFGroup.gltf group) with
  | None => true
  | Some skins =>
      match skins !! 0%nat with
      | None => false
      | Some skin =>
          forallb (fun joint => match jointMatrix group joint with
                                | Some mat => mat4Fits mat
                                | None => false
                                end) (Skin.joints skin)
      end
  end.

Definition frameReady (r : GltfRenderer.t) : bool :=
  instancesReady (GltfRenderer.gltf_group r) && jointsReady (GltfRenderer.gltf_group r).

(** ** Primitives *)

(** An attribute a loop of [setupPrimitive] processes: the index of its
    accessor and the shader location recorded for it. *)
Definition Processed : Type := GlTfId * JsValue.

(** What the first loop processes for one shader attribute. *)
Definition foundIn (primitive : MeshPrimitive.t) (entry : string * Z) : list Processed :=
  match findAttribute (fst entry) (MeshPrimitive.attributes primitive) with
  | Some accessorIndex => [(accessorIndex, JsNumber (snd entry))]
  | None => []
  end.

(** The shader-required attributes found in the primitive, in the order
    of the shader slots. *)
Definition shaderAttributesFound (primitive : MeshPrimitive.t) : list Processed :=
  flat_map (foundIn primitive) ShaderLocations.

(** What the second loop processes for one attribute of the primitive. *)
Definition strayIn (entry : string * GlTfId) : list Processed :=
  match mapObjectProperty ShaderLocations (fst entry) with
  | Some shaderLocation => [(snd entry, shaderLocation)]
  | None => []
  end.

Definition strayAttributes (primitive : MeshPrimitive.t) : list Processed :=
  flat_map strayIn (MeshPrimitive.attributes primitive).

Definition processed (primitive : MeshPrimitive.t) : list Processed :=
  shaderAttributesFound primitive ++ strayAttributes primitive.

Definition accessorOf (r : GltfRenderer.t) (p : Processed) : option Accessor.t :=
  GlTf.accessors (gltfOf r) !! fst p.

(** The vertex-buffer layout that describes a processed attribute. *)
Definition layoutOf (r : GltfRenderer.t) (p : Processed) : option GPUVertexBufferLayout.t :=
  accessor ← accessorOf r p;
  bufferView ← bufferViewAt r (Accessor.bufferView accessor);
  Some (layoutFor bufferView accessor (snd p)).

(** The buffer and offset to bind for a processed attribute. *)
Definition bindingOf (r : GltfRenderer.t) (p : Processed) : option GPUPrimitiveBufferInfo.t :=
  accessor ← accessorOf r p;
  buffers ← GltfRenderer.gpuBuffers r;
  Some (GPUPrimitiveBufferInfo.mk
          (Accessor.bufferView accessor ≫= (fun i => buffers !! i))
          (Accessor.byteOffset accessor)).

(** The element count of the last processed attribute, [count] if none. *)
Definition lastCount (r : GltfRenderer.t) (ps : list Processed) (count : Z) : Z :=
  match last ps with
  | Some p => default count (Accessor.count <$> accessorOf r p)
  | None => count
  end.

(** [locals'] is [locals] after processing [ps], in order. *)
Record extends (r : GltfRenderer.t) (locals : Locals.t) (ps : list Processed)
    (locals' : Locals.t) : Prop := {
  extends_resolved : Forall (fun p => is_Some (accessorOf r p)) ps;
  extends_layout :
    Some <$> Locals.bufferLayout locals'
    = (Some <$> Locals.bufferLayout locals) ++ (layoutOf r <$> ps);
  extends_buffers :
    Some <$> Locals.primitiveGpuBuffers locals'
    = (Some <$> Locals.primitiveGpuBuffers locals) ++ (bindingOf r <$> ps);
  extends_count :
    Locals.drawCount locals' = lastCount r ps (Locals.drawCount locals)
}.

(** The GPU state [setupPrimitive] stores for a primitive whose pipeline
    is [pipeline] and whose loops ended with [locals]. *)
Definition storedFor (r : GltfRenderer.t) (primitive : MeshPrimitive.t)
    (pipeline : GPURenderPipeline) (locals : Locals.t) : option GPUPrimitiveInfo.t :=
  match MeshPrimitive.indices primitive with
  | None =>
      Some (GPUPrimitiveInfo.mk pipeline (Locals.primitiveGpuBuffers locals)
              (Locals.drawCount locals) None None None)
  | Some indices =>
      accessor ← GlTf.accessors (gltfOf r) !! indices;
      buffers ← GltfRenderer.gpuBuffers r;
      Some (GPUPrimitiveInfo.mk pipeline (Locals.primitiveGpuBuffers locals)
              (Accessor.count accessor)
              (Accessor.bufferView accessor ≫= (fun i => buffers !! i))
              (Accessor.byteOffset accessor)
              (Some (GLTFUtil.gpuIndexFormatForComponentType
                       (Accessor.componentType accessor))))
  end.

Definition defined {A} (o : option A) : bool :=
  match o with Some _ => true | None => false end.

(** [setupPrimitive] can go through: the buffers are loaded, every
    attribute's accessor exists, every processed attribute has its buffer
    view, and the index accessor, if any, exists. *)
Definition primitiveReady (r : GltfRenderer.t) (primitive : MeshPrimitive.t) : bool :=
  defined (GltfRenderer.gpuBuffers r)
  && forallb (fun entry => defined (GlTf.accessors (gltfOf r) !! snd entry))
       (MeshPrimitive.attributes primitive)
  && forallb (fun p => defined (layoutOf r p)) (processed primitive)
  && match MeshPrimitive.indices primitive with
     | Some indices => defined (GlTf.accessors (gltfOf r) !! indices)
     | None => true
     end.

(** No attribute of the primitive is named like a property of the
    [ShaderLocations] object. *)
Definition strayFree (primitive : MeshPrimitive.t) : bool :=
  forallb (fun entry => negb (defined (mapObjectProperty ShaderLocations (fst entry))))
    (MeshPrimitive.attributes primitive).

(** What the specification asks of a primitive with an unsupported
    topology: [setupPrimitive] throws and has created no pipeline. *)
Definition failsFast (key : PrimitiveRef) (primitive : MeshPrimitive.t)
    (r : GltfRenderer.t) : Prop :=
  exists e r',
    setupPrimitive key primitive r = Throw e r' /\
    GPUDevice.renderPipelines (GltfRenderer.device r')
    = GPUDevice.renderPipelines (GltfRenderer.device r).

(** ** Buffers *)

(** The accessors a primitive refers to: its index accessor, then its
    attribute accessors. *)
Definition primitiveAccessors (primitive : MeshPrimitive.t) : list (GlTfId * Z) :=
  match MeshPrimitive.indices primitive with
  | Some indices => [(indices, GPUBufferUsage.INDEX)]
  | None => []
  end ++ ((fun entry => (snd entry, GPUBufferUsage.VERTEX)) <$> MeshPrimitive.attributes primitive).

Definition meshAccessors (g : GlTf.t) : list (GlTfId * Z) :=
  flat_map (fun mesh => flat_map primitiveAccessors (Mesh.primitives mesh)) (GlTf.meshes g).

(** The inverse-bind-matrix accessor of the first skin. *)
Definition skinAccessors (g : GlTf.t) : list (GlTfId * Z) :=
  match GlTf.skins g with
  | Some skins =>
      match skins !! 0%nat ≫= Skin.inverseBindMatrices with
      | Some accessor => [(accessor, Z.lor GPUBufferUsage.STORAGE GPUBufferUsage.COPY_DST)]
      | None => []
      end
  | None => []
  end.

(** Accessors referenced by a primitive attribute, by primitive indices or
    as the skin's inverse bind matrices, with the usage each implies. *)
Definition referencedAccessors (g : GlTf.t) : list (GlTfId * Z) :=
  meshAccessors g ++ skinAccessors g.

Definition viewOf (g : GlTf.t) (accessor : GlTfId) : option GlTfId :=
  GlTf.accessors g !! accessor ≫= Accessor.bufferView.

(** Buffer view [i] backs one of the accessors of [refs]. *)
Definition backs (g : GlTf.t) (refs : list (GlTfId * Z)) (i : GlTfId) : bool :=
  existsb (fun ref => bool_decide (viewOf g (fst ref) = Some i)) refs.

Definition referenced (g : GlTf.t) (i : GlTfId) : bool :=
  backs g (referencedAccessors g) i.

Definition usageTags : list Z :=
  [ GPUBufferUsage.INDEX; GPUBufferUsage.VERTEX;
    Z.lor GPUBufferUsage.STORAGE GPUBufferUsage.COPY_DST ].

(** Every marked view has a usage to create its buffer with. *)
Definition wellTagged (usages : BufferViewUsages.t) : Prop :=
  forall i, BufferViewUsages.has i usages = true ->
            exists usage, BufferViewUsages.property i usages = Some usage /\ In usage usageTags.

(** [usages] after marking the views of [refs], starting from [usages0]. *)
Record marked (g : GlTf.t) (usages0 : BufferViewUsages.t) (refs : list (GlTfId * Z))
    (usages : BufferViewUsages.t) : Prop := {
  marked_has : forall i,
    BufferViewUsages.has i usages = BufferViewUsages.has i usages0 || backs g refs i;
  marked_tagged : wellTagged usages0 -> wellTagged usages
}.

Definition placeholder : GPUBufferDescriptor.t :=
  GPUBufferDescriptor.mk (Some "empty buffer") 4 (Some GPUBufferUsage.COPY_DST) false.

(** The bytes of the payload that a buffer view covers. *)
Definition viewBytes (payload : list Z) (bufferView : BufferView.t) : list Z :=
  match BufferView.byteOffset bufferView with
  | Some byteOffset =>
      subarray payload byteOffset (byteOffset + BufferView.byteLength bufferView)
  | None => subarray payload 0 0
  end.

(** What is created for buffer view [i]: its descriptor, and the bytes
    copied into it if it is a data buffer. *)
Definition createdFor (group : GLTFGroup.t) (usages : BufferViewUsages.t) (i : GlTfId)
  : option (GPUBufferDescriptor.t * option (list Z)) :=
  if BufferViewUsages.has i usages then
    bufferView ← GlTf.bufferViews (GLTFGroup.gltf group) !! i;
    payload ← GLTFGroup.bufferData0 group;
    Some (GPUBufferDescriptor.mk (BufferView.name bufferView)
            (roundUp4 (BufferView.byteLength bufferView))
            (BufferViewUsages.property i usages) true,
          Some (viewBytes payload bufferView))
  else Some (placeholder, None).

(** [r'] is [r] with one more buffer, created for buffer view [i]. *)
Record loadedOne (usages : BufferViewUsages.t) (i : GlTfId) (r r' : GltfRenderer.t)
    (handles : list GPUBuffer) : Prop := {
  loadedOne_group : GltfRenderer.gltf_group r' = GltfRenderer.gltf_group r;
  loadedOne_handles :
    GltfRenderer.gpuBuffers r'
    = Some (handles ++ [length (GPUDevice.buffers (GltfRenderer.device r))]);
  loadedOne_created : exists descriptor bytes,
    createdFor (GltfRenderer.gltf_group r) usages i = Some (descriptor, bytes) /\
    GPUDevice.buffers (GltfRenderer.device r')
    = GPUDevice.buffers (GltfRenderer.device r) ++ [descriptor] /\
    GPUDevice.mappedWrites (GltfRenderer.device r')
    = GPUDevice.mappedWrites (GltfRenderer.device r)
      ++ match bytes with
         | Some bytes => [(length (GPUDevice.buffers (GltfRenderer.device r)), bytes)]
         | None => []
         end
}.

(** A data buffer for [bufferView], holding its bytes of the payload. *)
Definition dataBufferFor (group : GLTFGroup.t) (bufferView : BufferView.t)
    (buffer : GPUBuffer) (descriptor : GPUBufferDescriptor.t) (device : GPUDevice.t) : Prop :=
  GPUBufferDescriptor.label descriptor = BufferView.name bufferView /\
  GPUBufferDescriptor.size descriptor = roundUp4 (BufferView.byteLength bufferView) /\
  GPUBufferDescriptor.mappedAtCreation descriptor = true /\
  (exists usage, GPUBufferDescriptor.usage descriptor = Some usage /\ In usage usageTags) /\
  exists payload,
    GLTFGroup.bufferData0 group = Some payload /\
    In (buffer, viewBytes payload bufferView) (GPUDevice.mappedWrites device).

(** [loadGPUBuffers] can go through: every referenced accessor exists,
    a skin list has a first skin with inverse bind matrices, the payload
    arrives, and the buffer views have non-negative offsets and lengths. *)
Definition viewInRange (bufferView : BufferView.t) : bool :=
  (0 <=? BufferView.byteLength bufferView)%Z
  && match BufferView.byteOffset bufferView with
     | Some byteOffset => (0 <=? byteOffset)%Z
     | None => true
     end.

Definition assetLoadable (group : GLTFGroup.t) : bool :=
  let g := GLTFGroup.gltf group in
  forallb (fun ref => defined (GlTf.accessors g !! fst ref)) (meshAccessors g)
  && match GlTf.skins g with
     | Some skins =>
         match skins !! 0%nat with
         | Some skin =>
             match Skin.inverseBindMatrices skin with
             | Some accessor => defined (GlTf.accessors g !! accessor)
             | None => false
             end
         | None => false
         end
     | None => true
     end
  && defined (GLTFGroup.bufferData0 group)
  && forallb viewInRange (GlTf.bufferViews g).

(** ** Frames *)

(** [r] with [commands] recorded after those already encoded. *)
Definition recorded (commands : list EncoderCommand) (r : GltfRenderer.t) : GltfRenderer.t :=
  GltfRenderer.set_device
    (DeviceUpdate.on_commands (fun l => l ++ commands) (GltfRenderer.device r)) r.

Definition vertexBufferCommands (buffers : list GPUPrimitiveBufferInfo.t)
  : list EncoderCommand :=
  imap (fun i bufferInfo =>
          SetVertexBuffer i (GPUPrimitiveBufferInfo.buffer bufferInfo)
            (GPUPrimitiveBufferInfo.offset bufferInfo)) buffers.

(** The draw issued for a primitive's stored GPU state. *)
Definition drawOf (instanceCount : Z) (gpuPrimitive : GPUPrimitiveInfo.t) : EncoderCommand :=
  match GPUPrimitiveInfo.indexBuffer gpuPrimitive with
  | Some _ => DrawIndexed (GPUPrimitiveInfo.drawCount gpuPrimitive) instanceCount 0 0 0
  | None => Draw (GPUPrimitiveInfo.drawCount gpuPrimitive) instanceCount 0 0
  end.

Definition primitiveCommands (instanceCount : Z) (gpuPrimitive : GPUPrimitiveInfo.t)
  : list EncoderCommand :=
  SetPipeline (GPUPrimitiveInfo.pipeline gpuPrimitive)
  :: vertexBufferCommands (GPUPrimitiveInfo.buffers gpuPrimitive)
  ++ match GPUPrimitiveInfo.indexBuffer gpuPrimitive with
     | Some indexBuffer =>
         [SetIndexBuffer indexBuffer (GPUPrimitiveInfo.indexType gpuPrimitive)
            (GPUPrimitiveInfo.indexOffset gpuPrimitive)]
     | None => []
     end
  ++ [drawOf instanceCount gpuPrimitive].

(** The stored GPU states of the primitives of the mesh of [node], in
    the order of the mesh's primitives. *)
Definition nodePrimitives (r : GltfRenderer.t) (node : nat)
  : option (list GPUPrimitiveInfo.t) :=
  meshIndex ← GlTf.nodes (gltfOf r) !! node ≫= Node.mesh;
  mesh ← GlTf.meshes (gltfOf r) !! meshIndex;
  mapM (fun entry : nat * MeshPrimitive.t =>
          GltfRenderer.primitiveGpuData r !! (meshIndex, fst entry))
    (imap pair (Mesh.primitives mesh)).

(** The stored GPU states a frame draws: per mesh-bearing node, in the
    order of [nodeGpuData], per primitive of the node's mesh. *)
Definition framePrimitives (r : GltfRenderer.t) : option (list (GPUBindGroup * list GPUPrimitiveInfo.t)) :=
  mapM (fun entry => pair (snd entry) <$> nodePrimitives r (fst entry))
    (GltfRenderer.nodeGpuData r).

Definition instanceCountOf (r : GltfRenderer.t) : Z :=
  GLTFGroup.instanceCount (GltfRenderer.gltf_group r).

Definition nodeCommands (instanceCount : Z) (entry : GPUBindGroup * list GPUPrimitiveInfo.t)
  : list EncoderCommand :=
  SetBindGroup 2 (Some (fst entry)) :: flat_map (primitiveCommands instanceCount) (snd entry).

Definition frameCommands (r : GltfRenderer.t)
    (drawn : list (GPUBindGroup * list GPUPrimitiveInfo.t)) : list EncoderCommand :=
  [ BeginRenderPass (if GltfRenderer.isFirstRenderer r then "clear" else "load");
    SetBindGroup 0 (GltfRenderer.constantBindGroup r);
    SetBindGroup 1 (GltfRenderer.frameBindGroup r) ]
  ++ flat_map (nodeCommands (instanceCountOf r)) drawn
  ++ [ SetViewport 0 0 (fst (GltfRenderer.canvas r)) (snd (GltfRenderer.canvas r)) 0 1;
       SetScissorRect 0 0 (fst (GltfRenderer.canvas r)) (snd (GltfRenderer.canvas r));
       EndPass; Submit; RequestAnimationFrame ].

Definition isDraw (c : EncoderCommand) : bool :=
  match c with
  | DrawIndexed _ _ _ _ _ | Draw _ _ _ _ => true
  | _ => false
  end.

(** The draws of a frame: one per primitive drawn, in order. *)
Definition frameDraws (instanceCount : Z)
    (drawn : list (GPUBindGroup * list GPUPrimitiveInfo.t)) : list EncoderCommand :=
  flat_map (fun entry => drawOf instanceCount <$> snd entry) drawn.

(** The mesh-bearing nodes among [nodes], numbered from [start]. *)
Fixpoint meshNodesFrom (start : nat) (nodes : list Node.t) : list nat :=
  match nodes with
  | [] => []
  | node :: rest =>
      match Node.mesh node with
      | Some _ => start :: meshNodesFrom (S start) rest
      | None => meshNodesFrom (S start) rest
      end
  end.

(** The mesh-bearing nodes of the asset, in order. *)
Definition meshNodes (g : GlTf.t) : list nat := meshNodesFrom 0 (GlTf.nodes g).

(** ** Edge cases *)

Module Edge.




(** A primitive whose attribute names an accessor the asset does not have. *)
Definition dangling : GlTf.t :=
  GlTf.mk [Scenario.positions]
    [BufferView.mk None (Some 0%Z) 36 None]
    [Mesh.mk [MeshPrimitive.mk [("POSITION", 5%nat)] None (Some GLTFUtil.GL_TRIANGLES)]]
    [Node.mk (Some 0%nat)]
    None.

Definition danglingGroup : GLTFGroup.t :=
  GLTFGroup.mk dangling 1 [Scenario.identity] {[ 0%nat := Scenario.identity ]}
    (Some (repeat 7%Z 36)).

(** Two transforms for one instance. *)
Definition crowdedGroup : GLTFGroup.t :=
  GLTFGroup.mk Scenario.twoTriangles 1 [Scenario.identity; Scenario.identity]
    {[ 0%nat := Scenario.identity ]} (Some (repeat 7%Z 50)).

End Edge.

(** ** Frames as command sequences *)

(** Commands that open or close a pass, or act on the whole pass. *)
Definition passCommand (c : EncoderCommand) : bool :=
  match c with
  | BeginRenderPass _ | SetViewport _ _ _ _ _ _ | SetScissorRect _ _ _ _
  | EndPass | Submit | RequestAnimationFrame => true
  | _ => false
  end.

(** [r] is [r0] with some more commands recorded, none of them a pass command. *)
Definition drawing (r0 r : GltfRenderer.t) : Prop :=
  exists body, r = recorded body r0 /\ forallb (fun c => negb (passCommand c)) body = true.

(** [raises P m]: whatever [m] throws satisfies [P]. *)
Definition raises {A} (P : JsError -> Prop) (m : M A) : Prop :=
  forall r e r', m r = Throw e r' -> P e.

Definition isTypeError (e : JsError) : Prop := exists what, e = TypeError what.

(** The commands a frame starts with. *)
Definition frameHeader (r : GltfRenderer.t) : list EncoderCommand :=
  [ BeginRenderPass (if GltfRenderer.isFirstRenderer r then "clear" else "load");
    SetBindGroup 0 (GltfRenderer.constantBindGroup r);
    SetBindGroup 1 (GltfRenderer.frameBindGroup r) ].

(** The commands a frame ends with. *)
Definition frameFooter (r : GltfRenderer.t) : list EncoderCommand :=
  [ SetViewport 0 0 (fst (GltfRenderer.canvas r)) (snd (GltfRenderer.canvas r)) 0 1;
    SetScissorRect 0 0 (fst (GltfRenderer.canvas r)) (snd (GltfRenderer.canvas r));
    EndPass; Submit; RequestAnimationFrame ].

(** ** The stages of initialization *)

(** The primitives of mesh [m], each with its identity. *)
Definition meshPrimitives (m : nat) (mesh : Mesh.t) : list (PrimitiveRef * MeshPrimitive.t) :=
  imap (fun i primitive => ((m, i), primitive)) (Mesh.primitives mesh).

(** The primitives of the asset in the order [initializeWebGPUAndGLTF]
    sets them up: mesh by mesh, primitive by primitive. *)
Definition assetPrimitives (g : GlTf.t) : list (PrimitiveRef * MeshPrimitive.t) :=
  flat_map (fun entry => meshPrimitives (fst entry) (snd entry)) (imap pair (GlTf.meshes g)).

(** The renderer once the pipeline layout is created, before the
    primitives are set up. *)
Definition withPipelineLayout (r : GltfRenderer.t) : GltfRenderer.t :=
  GltfRenderer.set_gltfPipelineLayout
    (Some (length (GPUDevice.pipelineLayouts (GltfRenderer.device r))))
    (GltfRenderer.set_device
       (DeviceUpdate.on_pipelineLayouts
          (fun l => l ++ [[ GltfRenderer.constantBindGroupLayout r;
                            GltfRenderer.frameBindGroupLayout r;
                            GltfRenderer.nodeBindGroupLayout r ]])
          (GltfRenderer.device r)) r).

(** [field] holds [v]. *)
Definition fieldIs {X} (field : GltfRenderer.t -> X) (v : X) (r : GltfRenderer.t) : Prop :=
  field r = v.

(** [r'] is [r] after the primitives [entries] were set up, in order. *)
Record setUp (entries : list (PrimitiveRef * MeshPrimitive.t)) (r r' : GltfRenderer.t)
  : Prop := {
  setUp_group : GltfRenderer.gltf_group r' = GltfRenderer.gltf_group r;
  setUp_gpuBuffers : GltfRenderer.gpuBuffers r' = GltfRenderer.gpuBuffers r;
  setUp_layout : GltfRenderer.gltfPipelineLayout r' = GltfRenderer.gltfPipelineLayout r;
  setUp_pipelines : exists created,
    GPUDevice.renderPipelines (GltfRenderer.device r')
    = GPUDevice.renderPipelines (GltfRenderer.device r) ++ created /\
    length created = length entries /\
    Forall (fun descriptor => GPURenderPipelineDescriptor.layout descriptor
                              = GltfRenderer.gltfPipelineLayout r) created;
  setUp_stored : forall k entry,
    entries !! k = Some entry ->
    exists gpuPrimitive,
      GltfRenderer.primitiveGpuData r' !! fst entry = Some gpuPrimitive /\
      GPUPrimitiveInfo.pipeline gpuPrimitive
      = (length (GPUDevice.renderPipelines (GltfRenderer.device r)) + k)%nat;
  setUp_others : forall key,
    key ∉ fst <$> entries ->
    GltfRenderer.primitiveGpuData r' !! key = GltfRenderer.primitiveGpuData r !! key
}.

Definition renderPipelinesOf (r : GltfRenderer.t) : list GPURenderPipelineDescriptor.t :=
  GPUDevice.renderPipelines (GltfRenderer.device r).

(** Bind group [group] exists and was created with layout [layout]. *)
Definition groupUses (group : option GPUBindGroup) (layout : option GPUBindGroupLayout)
    (r : GltfRenderer.t) : Prop :=
  exists g descriptor,
    group = Some g /\
    GPUDevice.bindGroups (GltfRenderer.device r) !! g = Some descriptor /\
    GPUBindGroupDescriptor.layout descriptor = layout /\ is_Some layout.

(** The bind group and the layout two fields hold belong together. *)
Definition boundBy (group : GltfRenderer.t -> option GPUBindGroup)
    (layout : GltfRenderer.t -> option GPUBindGroupLayout) (r : GltfRenderer.t) : Prop :=
  groupUses (group r) (layout r) r.

(** Every node bind group was created with the node layout. *)
Definition nodesBound (r : GltfRenderer.t) : Prop :=
  Forall (fun entry => groupUses (Some (snd entry)) (GltfRenderer.nodeBindGroupLayout r) r)
    (GltfRenderer.nodeGpuData r).

Definition pipelineLayoutsOf (r : GltfRenderer.t) : list (list (option GPUBindGroupLayout)) :=
  GPUDevice.pipelineLayouts (GltfRenderer.device r).

Definition shaderModulesOf (r : GltfRenderer.t) : list string :=
  GPUDevice.shaderModules (GltfRenderer.device r).

(** The pipelines created since [pipelines0] all use one vertex and one
    fragment module, created after [base] when the first of them was. *)
Definition sharesModules (base : list string)
    (pipelines0 : list GPURenderPipelineDescriptor.t) (r : GltfRenderer.t) : Prop :=
  exists created,
    renderPipelinesOf r = pipelines0 ++ created /\
    Forall (fun descriptor =>
              GPURenderPipelineDescriptor.vertexModule descriptor = length base /\
              GPURenderPipelineDescriptor.fragmentModule descriptor = S (length base))
      created /\
    match created with
    | [] =>
        GltfRenderer.vertShaderModule r = None /\
        GltfRenderer.fragShaderModule r = None /\
        shaderModulesOf r = base
    | _ :: _ =>
        GltfRenderer.vertShaderModule r = Some (length base) /\
        GltfRenderer.fragShaderModule r = Some (S (length base)) /\
        shaderModulesOf r
        = base ++ ["glTF vertex shader module"; "glTF fragment shader module"]
    end.

(** ** The joint-info buffer *)

Definition jointInfoDescriptor : GPUBufferDescriptor.t :=
  GPUBufferDescriptor.mk None (4 * Float32Array_BYTES_PER_ELEMENT)
    (Some (Z.lor GPUBufferUsage.UNIFORM GPUBufferUsage.COPY_DST)) false.

(** ** Ready assets *)




(** ** The node tier *)




(** ** Buffer usages *)




Definition accessorsExist (g : GlTf.t) (refs : list (GlTfId * Z)) : bool :=
  forallb (fun ref => defined (GlTf.accessors g !! fst ref)) refs.

(** ** Slots of typed arrays *)

(** [xs], zero-filled to [n] entries. *)
Definition padded (n : nat) (xs : list Z) : list Z := xs ++ repeat 0%Z (n - length xs).

(** An array of [slots] slots of 16 floats: the matrices [mats] in order,
    each at the start of its slot, and zeros everywhere else. *)
Definition slotted (slots : nat) (mats : list mat4) : list Z :=
  concat (padded 16 <$> mats) ++ repeat 0%Z (16 * (slots - length mats)).


Definition isRangeError (e : JsError) : Prop := exists what, e = RangeError what.







(** ** Shader locations and topologies *)

(** [onThrow I m]: when [m] throws from a renderer satisfying [I], the
    renderer it leaves satisfies [I]. *)
Definition onThrow {A} (I : GltfRenderer.t -> Prop) (m : M A) : Prop :=
  forall r e r', I r -> m r = Throw e r' -> I r'.

(** The shader locations a pipeline's vertex buffers feed, in the order
    of the buffers. *)
Definition shaderLocationsOf (descriptor : GPURenderPipelineDescriptor.t) : list JsValue :=
  GPUVertexAttribute.shaderLocation
  <$> concat (GPUVertexBufferLayout.attributes
              <$> GPURenderPipelineDescriptor.buffers descriptor).

(** The modes [gpuPrimitiveTopologyForMode] has a topology for. *)
Definition supportedModes : list Z :=
  [ GLTFUtil.GL_POINTS; GLTFUtil.GL_LINES; GLTFUtil.GL_LINE_STRIP;
    GLTFUtil.GL_TRIANGLES; GLTFUtil.GL_TRIANGLE_STRIP ].

(** ** The camera data *)


(** ** Index bindings *)

(** The index buffer, offset and index format to bind for [primitive]:
    nothing for a primitive without indices. *)
Definition indexBindingOf (r : GltfRenderer.t) (primitive : MeshPrimitive.t)
  : option (option GPUBuffer * option Z * option string) :=
  match MeshPrimitive.indices primitive with
  | None => Some (None, None, None)
  | Some indices =>
      accessor ← GlTf.accessors (gltfOf r) !! indices;
      buffers ← GltfRenderer.gpuBuffers r;
      Some (Accessor.bufferView accessor ≫= (fun i => buffers !! i),
            Accessor.byteOffset accessor,
            Some (GLTFUtil.gpuIndexFormatForComponentType (Accessor.componentType accessor)))
  end.

(** What is stored for [primitive] binds the buffers of [r]. *)
Definition bindsBuffersOf (r : GltfRenderer.t) (primitive : MeshPrimitive.t)
    (gpuPrimitive : GPUPrimitiveInfo.t) : Prop :=
  Some <$> GPUPrimitiveInfo.buffers gpuPrimitive = bindingOf r <$> processed primitive /\
  indexBindingOf r primitive
  = Some (GPUPrimitiveInfo.indexBuffer gpuPrimitive,
          GPUPrimitiveInfo.indexOffset gpuPrimitive,
          GPUPrimitiveInfo.indexType gpuPrimitive).

(** * Theorems *)

(** ** The format mapper *)

Example format_vec2_short :
  GLTFUtil.gpuFormatForAccessor
    (Accessor.mk (Some 0%nat) None 5122 None 3 "VEC2") = Some "sint16x2".
Proof. reflexivity. Qed.

Example format_unknown_component :
  GLTFUtil.gpuFormatForAccessor
    (Accessor.mk (Some 0%nat) None 5124 None 3 "VEC2") = None.
Proof. reflexivity. Qed.

(** C6.  An accessor of element type VEC3 and component type
    unsigned byte with the normalized flag set maps to "unorm8x3", whatever
    its other fields; an accessor of element type SCALAR and component type
    float maps to "float32", without a multiplicity suffix, whatever its
    other fields (normalized flag included). *)
Theorem gpuFormatForAccessor_unorm8x3_float32 :
  (forall bufferView byteOffset count,
     GLTFUtil.gpuFormatForAccessor
       (Accessor.mk bufferView byteOffset GLTFUtil.GL_UNSIGNED_BYTE (Some true) count "VEC3")
     = Some "unorm8x3") /\
  (forall bufferView byteOffset normalized count,
     GLTFUtil.gpuFormatForAccessor
       (Accessor.mk bufferView byteOffset GLTFUtil.GL_FLOAT normalized count "SCALAR")
     = Some "float32").
Proof.
  split.
  - intros; reflexivity.
  - intros ? ? normalized ?.
    unfold GLTFUtil.gpuFormatForAccessor; cbn.
    destruct (GLTFUtil.truthy normalized); reflexivity.
Qed.

Lemma gpuIndexFormat_cases (componentType : Z) :
  GLTFUtil.gpuIndexFormatForComponentType componentType =
  if Z.eqb componentType GLTFUtil.GL_UNSIGNED_SHORT then "uint16" else "uint32".
Proof.
  unfold GLTFUtil.gpuIndexFormatForComponentType.
  destruct (Z.eqb componentType GLTFUtil.GL_UNSIGNED_SHORT); [reflexivity|].
  destruct (Z.eqb componentType GLTFUtil.GL_UNSIGNED_INT); reflexivity.
Qed.

(** C7.  Index-format resolution returns "uint16" exactly when the
    component type is unsigned-short and "uint32" for every other component
    type, unsigned-int included; equal inputs give equal results. *)
Theorem gpuIndexFormatForComponentType_spec (componentType : Z) :
  (GLTFUtil.gpuIndexFormatForComponentType componentType = "uint16"
   <-> componentType = GLTFUtil.GL_UNSIGNED_SHORT) /\
  (componentType <> GLTFUtil.GL_UNSIGNED_SHORT ->
   GLTFUtil.gpuIndexFormatForComponentType componentType = "uint32") /\
  (forall again, again = componentType ->
     GLTFUtil.gpuIndexFormatForComponentType again
     = GLTFUtil.gpuIndexFormatForComponentType componentType).
Proof.
  split; [|split]; [| |intros again ->; reflexivity];
    rewrite gpuIndexFormat_cases;
    destruct (Z.eqb_spec componentType GLTFUtil.GL_UNSIGNED_SHORT) as [Heq|Hne].
  - split; auto.
  - split; [discriminate | contradiction].
  - contradiction.
  - reflexivity.
Qed.

Lemma gpuIndexFormatForComponentType_witness :
  GLTFUtil.gpuIndexFormatForComponentType GLTFUtil.GL_UNSIGNED_SHORT = "uint16" /\
  GLTFUtil.gpuIndexFormatForComponentType GLTFUtil.GL_UNSIGNED_INT = "uint32" /\
  GLTFUtil.gpuIndexFormatForComponentType GLTFUtil.GL_BYTE = "uint32".
Proof.
  split; [|split].
  - apply (proj1 (gpuIndexFormatForComponentType_spec GLTFUtil.GL_UNSIGNED_SHORT)).
    reflexivity.
  - apply (proj1 (proj2 (gpuIndexFormatForComponentType_spec GLTFUtil.GL_UNSIGNED_INT))).
    discriminate.
  - apply (proj1 (proj2 (gpuIndexFormatForComponentType_spec GLTFUtil.GL_BYTE))).
    discriminate.
Defined.

(** ** Invariants of renderer code *)

Section Keeps.
Context (I : GltfRenderer.t -> Prop).

Lemma keeps_ret {A} (a : A) : keeps I (ret a).
Proof. intros r Hr; exact Hr. Qed.

Lemma keeps_throw {A} (e : JsError) : keeps I (@throw A e).
Proof. intros r Hr; exact Hr. Qed.

Lemma keeps_this : keeps I this.
Proof. intros r Hr; exact Hr. Qed.

Lemma keeps_assign (f : GltfRenderer.t -> GltfRenderer.t) :
  (forall r, I r -> I (f r)) -> keeps I (assign f).
Proof. intros Hf r Hr; apply Hf, Hr. Qed.

Lemma keeps_onDevice (f : GPUDevice.t -> GPUDevice.t) :
  (forall r, I r -> I (GltfRenderer.set_device (f (GltfRenderer.device r)) r)) ->
  keeps I (onDevice f).
Proof. intros Hf r Hr; apply Hf, Hr. Qed.

Lemma keeps_bind {A B} (m : M A) (k : A -> M B) :
  keeps I m -> (forall a, keeps I (k a)) -> keeps I (bind m k).
Proof.
  intros Hm Hk r Hr. unfold bind.
  specialize (Hm r Hr). destruct (m r) as [a r1|e r1]; simpl in *.
  - apply Hk, Hm.
  - exact Hm.
Qed.

(** The renderer read by [this] satisfies the invariant too. *)
Lemma keeps_bind_this {B} (k : GltfRenderer.t -> M B) :
  (forall r0, I r0 -> keeps I (k r0)) -> keeps I (bind this k).
Proof. intros Hk r Hr. unfold bind, this. apply Hk; exact Hr. Qed.

Lemma keeps_forOf {A L} (xs : list A) (body : L -> A -> M L) (acc : L) :
  (forall acc x, keeps I (body acc x)) -> keeps I (forOf xs body acc).
Proof.
  intros Hbody. revert acc.
  induction xs as [|x rest IH]; intros acc; simpl.
  - apply keeps_ret.
  - apply keeps_bind; [apply Hbody | intros acc'; apply IH].
Qed.

Lemma keeps_forEach {A} (xs : list A) (body : A -> M unit) :
  (forall x, keeps I (body x)) -> keeps I (forEach xs body).
Proof. intros Hbody. apply keeps_forOf. intros _ x. apply Hbody. Qed.

End Keeps.

Ltac head_of t :=
  lazymatch t with
  | ?f _ => head_of f
  | _ => t
  end.

(** One structural step through renderer code. *)
Ltac keeps_step :=
  lazymatch goal with
  | |- keeps _ (ret _) => apply keeps_ret
  | |- keeps _ (throw _) => apply keeps_throw
  | |- keeps _ this => apply keeps_this
  | |- keeps _ (bind this _) => apply keeps_bind_this; intros ? ?
  | |- keeps _ (bind _ _) => apply keeps_bind; [|intros ?]
  | |- keeps _ (forOf _ _ _) => apply keeps_forOf; intros ? ?
  | |- keeps _ (forEach _ _) => apply keeps_forEach; intros ?
  | |- keeps _ (assign _) => apply keeps_assign
  | |- keeps _ (onDevice _) => apply keeps_onDevice
  | |- keeps _ (match ?x with _ => _ end) => destruct x
  | |- keeps _ ?m => let h := head_of m in progress unfold h
  end.

Ltac createdWith_leaf :=
  let H1 := fresh in let H2 := fresh in
  intros ? [H1 H2]; split;
  [ exact H1 | cbn; first [ exact H2 | apply lookup_app_l_Some; exact H2 ] ].

(** ** The frame tier *)

Lemma cameraBuffer_kept_updateInstanceBuffer buffer descriptor :
  keeps (createdWith GltfRenderer.cameraBuffer buffer descriptor) updateInstanceBuffer.
Proof. repeat keeps_step; createdWith_leaf. Qed.

Lemma stateOf_bind {A B} (m : M A) (k : A -> M B) (r : GltfRenderer.t) :
  stateOf (bind m k r) =
  match m r with
  | Ok a r1 => stateOf (k a r1)
  | Throw _ r1 => r1
  end.
Proof. unfold bind. destruct (m r); reflexivity. Qed.

Lemma createBuffer_eq (descriptor : GPUBufferDescriptor.t) (r : GltfRenderer.t) :
  createBuffer descriptor r =
  Ok (length (GPUDevice.buffers (GltfRenderer.device r)))
     (GltfRenderer.set_device
        (DeviceUpdate.on_buffers (fun l => l ++ [descriptor]) (GltfRenderer.device r)) r).
Proof. reflexivity. Qed.

Example FRAMEBUFFERSIZE_bytes : FRAMEBUFFERSIZE = 144%Z.
Proof. reflexivity. Qed.

(** [updateCameraBuffer] writes the 36 floats of the frame layout, that is
    [FRAMEBUFFERSIZE] bytes, at offset 0 of the camera buffer. *)
Lemma updateCameraBuffer_writes r (projMat viewMat : mat4) (pos : list Z) (time : Z)
    (cameraBuffer : GPUBuffer) :
  GltfRenderer.cameraBuffer r = Some cameraBuffer ->
  length projMat = 16%nat -> length viewMat = 16%nat -> length pos = 3%nat ->
  exists r',
    updateCameraBuffer projMat viewMat pos time r = Ok tt r' /\
    GPUDevice.queueWrites (GltfRenderer.device r')
    = GPUDevice.queueWrites (GltfRenderer.device r)
      ++ [(cameraBuffer, 0%Z, projMat ++ viewMat ++ pos ++ [time])] /\
    (Z.of_nat (length (projMat ++ viewMat ++ pos ++ [time]))
     * Float32Array_BYTES_PER_ELEMENT)%Z = FRAMEBUFFERSIZE.
Proof.
  intros Hbuffer Hproj Hview Hpos.
  do 17 (destruct projMat as [|? projMat]; try discriminate Hproj).
  do 17 (destruct viewMat as [|? viewMat]; try discriminate Hview).
  do 4 (destruct pos as [|? pos]; try discriminate Hpos).
  unfold updateCameraBuffer, newArrayBuffer, float32Set, FRAMEBUFFERSIZE,
    Float32Array_BYTES_PER_ELEMENT.
  unfold bind, this, ret.
  cbv beta iota zeta delta -[GltfRenderer.cameraBuffer GltfRenderer.device
                             GltfRenderer.set_device DeviceUpdate.on_queueWrites
                             GPUDevice.queueWrites writeBuffer].
  rewrite Hbuffer. cbn.
  eexists. split; [reflexivity|]. split; reflexivity.
Qed.

(** C1 (as the code has it).  However [initFrameBindGroup] ends, the
    camera buffer is the first buffer it creates, and it is created with
    [FRAMEBUFFERSIZE * 4] = 576 bytes: 144 floats, four times the 144
    bytes (36 floats) of the layout [updateCameraBuffer] writes. *)
Theorem initFrameBindGroup_cameraBuffer_size (r : GltfRenderer.t) :
  exists descriptor,
    createdWith GltfRenderer.cameraBuffer
      (length (GPUDevice.buffers (GltfRenderer.device r))) descriptor
      (stateOf (initFrameBindGroup r)) /\
    GPUBufferDescriptor.size descriptor = 576%Z /\
    GPUBufferDescriptor.size descriptor = (4 * FRAMEBUFFERSIZE)%Z /\
    FRAMEBUFFERSIZE = (36 * Float32Array_BYTES_PER_ELEMENT)%Z.
Proof.
  exists (GPUBufferDescriptor.mk None (FRAMEBUFFERSIZE * Float32Array_BYTES_PER_ELEMENT)
            (Some (Z.lor GPUBufferUsage.UNIFORM GPUBufferUsage.COPY_DST)) false).
  split; [|repeat split].
  unfold initFrameBindGroup.
  rewrite stateOf_bind, createBuffer_eq. lazy beta iota.
  rewrite stateOf_bind. unfold assign at 1. lazy beta iota.
  lazymatch goal with
  | |- createdWith ?f ?b ?d (stateOf (?m ?r1)) =>
      assert (K : keeps (createdWith f b d) m)
        by (repeat keeps_step; createdWith_leaf);
      apply K
  end.
  split; cbn; [reflexivity | apply list_lookup_middle; reflexivity].
Qed.

(** ** Assets without a skin *)

Lemma skinReads_hasSkins group reads r :
  GlTf.skins (GLTFGroup.gltf group) = None ->
  skinReads group reads r -> hasSkins r = false.
Proof.
  intros Hnone [Hgroup _]. unfold hasSkins, gltfOf. rewrite Hgroup, Hnone. reflexivity.
Qed.

Ltac skinReads_leaf :=
  let H1 := fresh in let H2 := fresh in
  intros ? [H1 H2]; split; [exact H1 | exact H2].

(** Without a skin the guard is false wherever it is tested. *)
Ltac noSkin_step Hnone :=
  lazymatch goal with
  | H : skinReads _ _ ?r0 |- context [hasSkins ?r0] =>
      rewrite (skinReads_hasSkins _ _ _ Hnone H); cbn [numberTruthy Z.eqb negb]
  | |- _ => keeps_step
  end.

Section NoSkin.
Variable group : GLTFGroup.t.
Variable reads : nat.
Hypothesis Hnone : GlTf.skins (GLTFGroup.gltf group) = None.

Lemma noSkin_loadGPUBuffers : keeps (skinReads group reads) loadGPUBuffers.
Proof. repeat noSkin_step Hnone; skinReads_leaf. Qed.

Lemma noSkin_initConstantBindGroup : keeps (skinReads group reads) initConstantBindGroup.
Proof. repeat noSkin_step Hnone; skinReads_leaf. Qed.

Lemma noSkin_initFrameBindGroup : keeps (skinReads group reads) initFrameBindGroup.
Proof. repeat noSkin_step Hnone; skinReads_leaf. Qed.

Lemma noSkin_initNodeBindGroup : keeps (skinReads group reads) initNodeBindGroup.
Proof. repeat noSkin_step Hnone; skinReads_leaf. Qed.

Lemma noSkin_setupPrimitive key primitive :
  keeps (skinReads group reads) (setupPrimitive key primitive).
Proof. repeat noSkin_step Hnone; skinReads_leaf. Qed.

Lemma noSkin_initializeWebGPUAndGLTF :
  keeps (skinReads group reads) initializeWebGPUAndGLTF.
Proof.
  unfold initializeWebGPUAndGLTF.
  apply keeps_bind; [apply noSkin_loadGPUBuffers | intros _].
  apply keeps_bind; [apply noSkin_initConstantBindGroup | intros _].
  apply keeps_bind; [apply noSkin_initFrameBindGroup | intros _].
  apply keeps_bind; [apply noSkin_initNodeBindGroup | intros _].
  apply keeps_bind_this; intros r0 _.
  apply keeps_bind; [repeat keeps_step; skinReads_leaf | intros layout].
  apply keeps_bind; [repeat keeps_step; skinReads_leaf | intros _].
  apply keeps_forEach; intros [meshIndex mesh].
  apply keeps_forEach; intros [index primitive].
  apply noSkin_setupPrimitive.
Qed.

End NoSkin.

(** C10.  On an asset without a skin list, buffer loading, the constant
    tier, the frame tier and the whole initialization leave the count of
    reads of [skins[0]] unchanged, however they end; and
    [initConstantBindGroup] returns, having written has-skin = 0 and
    joint-count = 0 (and two zeros) to the joint-info buffer. *)
Theorem noSkin_never_reads_skins0 (r : GltfRenderer.t) :
  GlTf.skins (gltfOf r) = None ->
  GltfRenderer.skin0Reads (stateOf (loadGPUBuffers r)) = GltfRenderer.skin0Reads r /\
  GltfRenderer.skin0Reads (stateOf (initConstantBindGroup r)) = GltfRenderer.skin0Reads r /\
  GltfRenderer.skin0Reads (stateOf (initFrameBindGroup r)) = GltfRenderer.skin0Reads r /\
  GltfRenderer.skin0Reads (stateOf (initializeWebGPUAndGLTF r)) = GltfRenderer.skin0Reads r /\
  exists r',
    initConstantBindGroup r = Ok tt r' /\
    GltfRenderer.jointInfoBuffer r'
    = Some (length (GPUDevice.buffers (GltfRenderer.device r))) /\
    GPUDevice.queueWrites (GltfRenderer.device r')
    = GPUDevice.queueWrites (GltfRenderer.device r)
      ++ [(length (GPUDevice.buffers (GltfRenderer.device r)), 0%Z, [0; 0; 0; 0]%Z)].
Proof.
  intros Hnone.
  assert (Hr : skinReads (GltfRenderer.gltf_group r) (GltfRenderer.skin0Reads r) r)
    by (split; reflexivity).
  split; [|split; [|split; [|split]]].
  - apply (noSkin_loadGPUBuffers _ _ Hnone r Hr).
  - apply (noSkin_initConstantBindGroup _ _ Hnone r Hr).
  - apply (noSkin_initFrameBindGroup _ _ Hnone r Hr).
  - apply (noSkin_initializeWebGPUAndGLTF _ _ Hnone r Hr).
  - unfold initConstantBindGroup, bind, this.
    rewrite (skinReads_hasSkins _ _ _ Hnone Hr). cbn.
    eexists; split; [reflexivity|]. split; reflexivity.
Qed.

Lemma noSkin_never_reads_skins0_witness :
  GltfRenderer.skin0Reads
    (stateOf (initializeWebGPUAndGLTF (Scenario.fresh Scenario.twoTrianglesGroup))) = 0%nat.
Proof.
  exact (proj1 (proj2 (proj2 (proj2
    (noSkin_never_reads_skins0 (Scenario.fresh Scenario.twoTrianglesGroup) eq_refl))))).
Defined.

(** ** Joint transforms *)

Lemma bind_Ok_inv {A B} (m : M A) (k : A -> M B) r b r' :
  bind m k r = Ok b r' -> exists a r1, m r = Ok a r1 /\ k a r1 = Ok b r'.
Proof.
  unfold bind. destruct (m r) as [a r1|e r1]; [eauto | discriminate].
Qed.

Lemma keeps_Ok {A} (I : GltfRenderer.t -> Prop) (m : M A) r a r1 :
  keeps I m -> I r -> m r = Ok a r1 -> I r1.
Proof. intros Hk Hr Hm. specialize (Hk r Hr). rewrite Hm in Hk. exact Hk. Qed.

Ltac sameGroup_leaf := let H := fresh in intros ? H; exact H.

Lemma skins0_Ok r skin r1 :
  skins0 r = Ok skin r1 ->
  GltfRenderer.gltf_group r1 = GltfRenderer.gltf_group r /\
  GltfRenderer.device r1 = GltfRenderer.device r /\
  exists skins, GlTf.skins (gltfOf r) = Some skins /\ skins !! 0%nat = Some skin.
Proof.
  unfold skins0, bind, assign, this, gltfOf. cbn.
  destruct (GlTf.skins _) as [skins|]; [|discriminate].
  destruct (skins !! 0%nat) as [skin'|] eqn:Hs; [|discriminate].
  intros [= <- <-]. cbn. eauto.
Qed.

Ltac bind_inv H a r1 Ha :=
  apply bind_Ok_inv in H as (a & r1 & Ha & H).

Ltac keep_group g H Hprev :=
  apply (keeps_Ok (sameGroup g)) in H;
  [ | repeat keeps_step; sameGroup_leaf | exact Hprev ].

Lemma hasSkins_sameGroup g r : sameGroup g r ->
  hasSkins r = match GlTf.skins (GLTFGroup.gltf g) with Some _ => true | None => false end.
Proof. intros <-. reflexivity. Qed.

Lemma jointTransformBuffer_size (r r' : GltfRenderer.t) :
  initFrameBindGroup r = Ok tt r' ->
  exists buffer descriptor,
    createdWith GltfRenderer.jointTransformBuffer buffer descriptor r' /\
    (forall skins skin,
       GlTf.skins (gltfOf r) = Some skins -> skins !! 0%nat = Some skin ->
       GPUBufferDescriptor.size descriptor
       = (16 * Z.of_nat (length (Skin.joints skin))
          * GLTFGroup.instanceCount (GltfRenderer.gltf_group r)
          * Float32Array_BYTES_PER_ELEMENT)%Z) /\
    (GlTf.skins (gltfOf r) = None ->
     GPUBufferDescriptor.size descriptor = (4 * Float32Array_BYTES_PER_ELEMENT)%Z).
Proof.
  unfold initFrameBindGroup. intros H.
  set (g := GltfRenderer.gltf_group r).
  assert (Hg : sameGroup g r) by reflexivity.
  bind_inv H cameraBuffer r1 H1. keep_group g H1 Hg.
  bind_inv H u r2 H2. keep_group g H2 H1.
  bind_inv H r3 r3' H3. injection H3 as <- <-.
  bind_inv H ib r4 H4. keep_group g H4 H2.
  bind_inv H u2 r5 H5. keep_group g H5 H4.
  bind_inv H u3 r6 H6. keep_group g H6 H5.
  bind_inv H u4 r7 H7.
  unfold gltfOf. fold g.
  rewrite (hasSkins_sameGroup g r2 H2) in H7.
  replace (GltfRenderer.gltf_group r2) with g in H7 by (symmetry; exact H2).
  destruct (GlTf.skins (GLTFGroup.gltf g)) as [skins|] eqn:Hskins.
  - bind_inv H7 skin r8 H8.
    apply skins0_Ok in H8 as (Hg8 & _ & skins' & Hs' & Hskin).
    unfold gltfOf in Hs'. rewrite H6, Hskins in Hs'. injection Hs' as <-.
    bind_inv H7 jointTransformBuffer r9 H9.
    rewrite createBuffer_eq in H9. injection H9 as <- <-.
    bind_inv H7 u5 r10 H10. unfold assign in H10. injection H10 as <- <-.
    exists (length (GPUDevice.buffers (GltfRenderer.device r8))).
    eexists. split; [|split].
    + lazymatch goal with
      | |- createdWith ?f ?b ?d _ =>
          apply (keeps_Ok (createdWith f b d)) in H7;
            [ | repeat keeps_step; createdWith_leaf
              | split; cbn; [reflexivity | apply list_lookup_middle; reflexivity] ];
          apply (keeps_Ok (createdWith f b d)) in H;
            [ exact H | repeat keeps_step; createdWith_leaf | exact H7 ]
      end.
    + intros skins0 skin0 [= <-] Hskin0. rewrite Hskin in Hskin0.
      injection Hskin0 as <-. reflexivity.
    + discriminate.
  - bind_inv H7 jointTransformBuffer r9 H9.
    rewrite createBuffer_eq in H9. injection H9 as <- <-.
    unfold assign in H7. injection H7 as <- <-.
    exists (length (GPUDevice.buffers (GltfRenderer.device r6))).
    eexists. split; [|split].
    + lazymatch goal with
      | |- createdWith ?f ?b ?d _ =>
          apply (keeps_Ok (createdWith f b d)) in H;
            [ exact H | repeat keeps_step; createdWith_leaf
              | split; cbn; [reflexivity | apply list_lookup_middle; reflexivity] ]
      end.
    + discriminate.
    + reflexivity.
Qed.

Lemma float32Set_fits (buffer : list Z) (n index : nat) (mat : list Z) r :
  length buffer = (16 * n)%nat -> (index < n)%nat -> (length mat <= 16)%nat ->
  exists buffer',
    float32Set buffer (Z.of_nat index * 16 * Float32Array_BYTES_PER_ELEMENT) 16 (Some mat) r
    = Ok buffer' r /\ length buffer' = (16 * n)%nat.
Proof.
  intros Hlen Hidx Hmat. unfold float32Set, Float32Array_BYTES_PER_ELEMENT.
  destruct (Z.ltb_spec (Z.of_nat (length buffer) * 4) (Z.of_nat index * 16 * 4 + 16 * 4));
    [lia|].
  destruct (Z.ltb_spec 16 (Z.of_nat (length mat))); [lia|].
  eexists; split; [reflexivity|].
  rewrite Z.div_mul by lia.
  rewrite !length_app, length_take, length_drop. lia.
Qed.

Lemma Forall_imap_pair {A} (P : nat * A -> Prop) (l : list A) :
  (forall i x, l !! i = Some x -> P (i, x)) -> Forall P (imap pair l).
Proof.
  intros H. apply Forall_lookup_2. intros i [j x] Hi.
  rewrite list_lookup_imap in Hi.
  destruct (l !! i) as [y|] eqn:Hy; [|discriminate].
  injection Hi as <- <-. apply H, Hy.
Qed.

(** A loop whose body returns on every element returns. *)
Lemma forOf_returns {A L} (I : L -> GltfRenderer.t -> Prop) (P : A -> Prop)
    (xs : list A) (body : L -> A -> M L) (acc : L) (r : GltfRenderer.t) :
  I acc r -> Forall P xs ->
  (forall acc r x, I acc r -> P x ->
     exists acc' r', body acc x r = Ok acc' r' /\ I acc' r') ->
  exists acc' r', forOf xs body acc r = Ok acc' r' /\ I acc' r'.
Proof.
  intros Hacc Hxs Hbody. revert acc r Hacc.
  induction Hxs as [|x rest Hx _ IH]; intros acc r Hacc; simpl.
  - eauto.
  - unfold bind. destruct (Hbody acc r x Hacc Hx) as (acc1 & r1 & -> & H1).
    apply IH, H1.
Qed.

Lemma updateInstanceBuffer_returns (r : GltfRenderer.t) (instanceBuffer : GPUBuffer) :
  GltfRenderer.instanceBuffer r = Some instanceBuffer ->
  instancesReady (GltfRenderer.gltf_group r) = true ->
  exists data,
    updateInstanceBuffer r =
    Ok tt (GltfRenderer.set_device
             (DeviceUpdate.on_queueWrites (fun l => l ++ [(instanceBuffer, 0%Z, data)])
                (GltfRenderer.device r)) r).
Proof.
  intros Hbuf Hready. unfold instancesReady in Hready.
  apply andb_prop in Hready as [Hready Hmats]. apply andb_prop in Hready as [Hn Hlen].
  apply Z.leb_le in Hn, Hlen. rewrite forallb_forall in Hmats.
  unfold updateInstanceBuffer, bind, this, newArrayBuffer.
  destruct (Z.ltb_spec (16 * GLTFGroup.instanceCount (GltfRenderer.gltf_group r)
                        * Float32Array_BYTES_PER_ELEMENT) 0);
    [unfold Float32Array_BYTES_PER_ELEMENT in *; lia|].
  cbn [ret].
  set (n := Z.to_nat (GLTFGroup.instanceCount (GltfRenderer.gltf_group r))).
  lazymatch goal with
  | |- context [forOf ?xs ?body ?acc r] =>
      destruct (forOf_returns
                  (fun (buffer : list Z) r' => length buffer = (16 * n)%nat /\ r' = r)
                  (fun p : nat * mat4 => (fst p < n)%nat /\ (length (snd p) <= 16)%nat)
                  xs body acc r)
        as (buffer' & r' & -> & Hlen' & ->)
  end.
  - split; [|reflexivity]. rewrite repeat_length.
    unfold Float32Array_BYTES_PER_ELEMENT. rewrite Z.div_mul by lia. subst n. lia.
  - apply Forall_imap_pair. intros i mat Hi. cbn. split.
    + apply lookup_lt_Some in Hi. subst n. lia.
    + specialize (Hmats mat). unfold mat4Fits in Hmats.
      apply Nat.leb_le, Hmats, list_elem_of_In, list_elem_of_lookup. eauto.
  - intros acc r1 [index mat] [Hacc ->] [Hi Hm]. cbn in Hi, Hm.
    destruct (float32Set_fits acc n index mat r Hacc Hi Hm) as (buffer' & Heq & Hb).
    exists buffer', r. split; [exact Heq | split; [exact Hb | reflexivity]].
  - rewrite Hbuf. cbn. eauto.
Qed.

Lemma skins0_eq r skins skin :
  GlTf.skins (gltfOf r) = Some skins -> skins !! 0%nat = Some skin ->
  skins0 r = Ok skin (GltfRenderer.set_skin0Reads (S (GltfRenderer.skin0Reads r)) r).
Proof.
  intros Hs Hskin. unfold skins0, bind, assign, this. cbn.
  unfold gltfOf in *. cbn. rewrite Hs, Hskin. reflexivity.
Qed.

Lemma bind_eq_Ok {A B} (m : M A) (k : A -> M B) r a r1 :
  m r = Ok a r1 -> bind m k r = k a r1.
Proof. intros H. unfold bind. rewrite H. reflexivity. Qed.

Lemma bind_assoc {A B C} (m : M A) (k1 : A -> M B) (k2 : B -> M C) r :
  bind (bind m k1) k2 r = bind m (fun a => bind (k1 a) k2) r.
Proof. unfold bind. destruct (m r); reflexivity. Qed.

Lemma newArrayBuffer_eq (byteLength : Z) r :
  (0 <= byteLength)%Z ->
  newArrayBuffer byteLength r
  = Ok (repeat 0%Z (Z.to_nat (byteLength / Float32Array_BYTES_PER_ELEMENT))) r.
Proof.
  intros H. unfold newArrayBuffer. destruct (Z.ltb_spec byteLength 0); [lia|reflexivity].
Qed.

Lemma forEach_writeBuffer_returns {A} (xs : list A) buffer (offset : A -> Z) data r :
  exists r', forEach xs (fun x => writeBuffer (Some buffer) (offset x) data) r = Ok tt r'.
Proof.
  unfold forEach. revert r. induction xs as [|x rest IH]; intros r; simpl.
  - eauto.
  - unfold bind at 1. cbn. apply IH.
Qed.

Lemma bind_ret {A B} (a : A) (k : A -> M B) r : bind (ret a) k r = k a r.
Proof. reflexivity. Qed.

Lemma bind_this {B} (k : GltfRenderer.t -> M B) r : bind this k r = k r r.
Proof. reflexivity. Qed.

Lemma bind_assign {B} f (k : unit -> M B) r : bind (assign f) k r = k tt (f r).
Proof. reflexivity. Qed.

Lemma bind_onDevice {B} f (k : unit -> M B) r :
  bind (onDevice f) k r = k tt (GltfRenderer.set_device (f (GltfRenderer.device r)) r).
Proof. reflexivity. Qed.

Lemma bind_createBuffer {B} d (k : GPUBuffer -> M B) r :
  bind (createBuffer d) k r =
  k (length (GPUDevice.buffers (GltfRenderer.device r)))
    (GltfRenderer.set_device
       (DeviceUpdate.on_buffers (fun l => l ++ [d]) (GltfRenderer.device r)) r).
Proof. reflexivity. Qed.

Lemma bind_createBindGroupLayout {B} d (k : GPUBindGroupLayout -> M B) r :
  bind (createBindGroupLayout d) k r =
  k (length (GPUDevice.bindGroupLayouts (GltfRenderer.device r)))
    (GltfRenderer.set_device
       (DeviceUpdate.on_bindGroupLayouts (fun l => l ++ [d]) (GltfRenderer.device r)) r).
Proof. reflexivity. Qed.

Lemma bind_createBindGroup {B} d (k : GPUBindGroup -> M B) r :
  bind (createBindGroup d) k r =
  k (length (GPUDevice.bindGroups (GltfRenderer.device r)))
    (GltfRenderer.set_device
       (DeviceUpdate.on_bindGroups (fun l => l ++ [d]) (GltfRenderer.device r)) r).
Proof. reflexivity. Qed.

Lemma bind_createPipelineLayout {B} d (k : GPUPipelineLayout -> M B) r :
  bind (createPipelineLayout d) k r =
  k (length (GPUDevice.pipelineLayouts (GltfRenderer.device r)))
    (GltfRenderer.set_device
       (DeviceUpdate.on_pipelineLayouts (fun l => l ++ [d]) (GltfRenderer.device r)) r).
Proof. reflexivity. Qed.

Lemma bind_createShaderModule {B} d (k : GPUShaderModule -> M B) r :
  bind (createShaderModule d) k r =
  k (length (GPUDevice.shaderModules (GltfRenderer.device r)))
    (GltfRenderer.set_device
       (DeviceUpdate.on_shaderModules (fun l => l ++ [d]) (GltfRenderer.device r)) r).
Proof. reflexivity. Qed.

Lemma bind_createRenderPipeline {B} d (k : GPURenderPipeline -> M B) r :
  bind (createRenderPipeline d) k r =
  k (length (GPUDevice.renderPipelines (GltfRenderer.device r)))
    (GltfRenderer.set_device
       (DeviceUpdate.on_renderPipelines (fun l => l ++ [d]) (GltfRenderer.device r)) r).
Proof. reflexivity. Qed.

Lemma bind_encode {B} c (k : unit -> M B) r :
  bind (encode c) k r =
  k tt (GltfRenderer.set_device
          (DeviceUpdate.on_commands (fun l => l ++ [c]) (GltfRenderer.device r)) r).
Proof. reflexivity. Qed.

Lemma bind_writeBuffer {B} b offset data (k : unit -> M B) r :
  bind (writeBuffer (Some b) offset data) k r =
  k tt (GltfRenderer.set_device
          (DeviceUpdate.on_queueWrites (fun l => l ++ [(b, offset, data)])
             (GltfRenderer.device r)) r).
Proof. reflexivity. Qed.

(** Run the straight-line prefix of a computation. *)
Ltac run :=
  repeat (first [ rewrite bind_assoc | rewrite bind_ret | rewrite bind_this
                | rewrite bind_assign | rewrite bind_onDevice
                | rewrite bind_createBuffer | rewrite bind_createBindGroupLayout
                | rewrite bind_createBindGroup | rewrite bind_createPipelineLayout
                | rewrite bind_createShaderModule | rewrite bind_createRenderPipeline
                | rewrite bind_encode | rewrite bind_writeBuffer ];
          cbv beta).

Lemma initFrameBindGroup_returns (r : GltfRenderer.t) :
  frameReady r = true -> exists r', initFrameBindGroup r = Ok tt r'.
Proof.
  unfold frameReady. intros Hready. apply andb_prop in Hready as [Hinst Hjoints].
  unfold initFrameBindGroup. run.
  lazymatch goal with
  | |- context [bind updateInstanceBuffer _ ?r1] =>
      destruct (updateInstanceBuffer_returns r1 _ eq_refl Hinst) as [data Heq];
      rewrite (bind_eq_Ok _ _ _ _ _ Heq); clear Heq
  end.
  unfold hasSkins, gltfOf. cbn [GltfRenderer.gltf_group GltfRenderer.set_cameraBuffer
    GltfRenderer.set_device GltfRenderer.set_instanceBuffer].
  unfold jointsReady in Hjoints.
  destruct (GlTf.skins (GLTFGroup.gltf (GltfRenderer.gltf_group r))) as [skins|] eqn:Hskins.
  - destruct (skins !! 0%nat) as [skin|] eqn:Hskin; [|discriminate].
    rewrite forallb_forall in Hjoints.
    lazy beta iota. run.
    lazymatch goal with
    | |- context [bind skins0 _ ?r1] =>
        rewrite (bind_eq_Ok _ _ _ _ _ (skins0_eq r1 skins skin Hskins Hskin))
    end.
    run.
    lazymatch goal with
    | |- context [bind (newArrayBuffer ?n) _ ?r1] =>
        rewrite (bind_eq_Ok _ _ _ _ _ (newArrayBuffer_eq n r1
                   ltac:(unfold Float32Array_BYTES_PER_ELEMENT; lia)))
    end.
    run.
    lazymatch goal with
    | |- context [bind skins0 _ ?r1] =>
        rewrite (bind_eq_Ok _ _ _ _ _ (skins0_eq r1 skins skin Hskins Hskin))
    end.
    run.
    lazymatch goal with
    | |- context [bind (forOf ?xs ?body ?acc) _ ?r1] =>
        destruct (forOf_returns
                    (fun (buffer : list Z) r' =>
                       length buffer = (16 * length (Skin.joints skin))%nat /\ r' = r1)
                    (fun p : nat * GlTfId =>
                       (fst p < length (Skin.joints skin))%nat /\
                       exists mat, jointMatrix (GltfRenderer.gltf_group r) (snd p) = Some mat
                                   /\ (length mat <= 16)%nat)
                    xs body acc r1)
          as (buffer' & r' & Heq & Hlen' & ->)
    end.
    + split; [|reflexivity]. rewrite repeat_length.
      unfold Float32Array_BYTES_PER_ELEMENT. rewrite Z.div_mul by lia. lia.
    + apply Forall_imap_pair. intros i joint Hi. cbn. split.
      * apply lookup_lt_Some in Hi. exact Hi.
      * specialize (Hjoints joint).
        destruct (jointMatrix (GltfRenderer.gltf_group r) joint) as [mat|].
        -- exists mat. split; [reflexivity|].
           apply Nat.leb_le, Hjoints, list_elem_of_In, list_elem_of_lookup. eauto.
        -- discriminate Hjoints. apply list_elem_of_In, list_elem_of_lookup. eauto.
    + intros acc r2 [index joint] [Hacc ->] [Hi (mat & Hmat & Hm)]. cbn in Hi, Hmat, Hm.
      unfold jointMatrix in Hmat. cbv beta iota. unfold gltfOf.
      simpl (GltfRenderer.gltf_group _).
      lazymatch goal with
      | |- context [float32Set _ _ _ ?src _] =>
          replace src with (Some mat) by (symmetry; exact Hmat)
      end.
      lazymatch goal with
      | |- context [float32Set _ _ _ _ ?r2] =>
          destruct (float32Set_fits acc _ index mat r2 Hacc Hi Hm) as (buffer' & Heq & Hb)
      end.
      exists buffer'. eexists. split; [exact Heq | split; [exact Hb | reflexivity]].
    + rewrite (bind_eq_Ok _ _ _ _ _ Heq). clear Heq.
      lazymatch goal with
      | |- context [bind (forEach ?xs (fun i => writeBuffer (Some ?b) (@?off i) ?d)) _ ?r1] =>
          destruct (forEach_writeBuffer_returns xs b off d r1) as [r2 Heq]
      end.
      rewrite (bind_eq_Ok _ _ _ _ _ Heq). run. eauto.
  - lazy beta iota. run. eauto.
Qed.

(** C5.  Whenever [initFrameBindGroup] returns, the joint-transform
    buffer was created with 16 x J x N floats (J the number of joints of
    [skins[0]], N the instance count) when the asset has a skin list, and
    with 4 floats when it has none; and it does return when the instance
    transforms fit the instance count and every joint has a node matrix. *)
Theorem initFrameBindGroup_jointTransformBuffer (r : GltfRenderer.t) :
  (forall r', initFrameBindGroup r = Ok tt r' ->
     exists buffer descriptor,
       createdWith GltfRenderer.jointTransformBuffer buffer descriptor r' /\
       (forall skins skin,
          GlTf.skins (gltfOf r) = Some skins -> skins !! 0%nat = Some skin ->
          GPUBufferDescriptor.size descriptor
          = (16 * Z.of_nat (length (Skin.joints skin))
             * GLTFGroup.instanceCount (GltfRenderer.gltf_group r)
             * Float32Array_BYTES_PER_ELEMENT)%Z) /\
       (GlTf.skins (gltfOf r) = None ->
        GPUBufferDescriptor.size descriptor = (4 * Float32Array_BYTES_PER_ELEMENT)%Z)) /\
  (frameReady r = true -> exists r', initFrameBindGroup r = Ok tt r').
Proof.
  split.
  - intros r'. apply jointTransformBuffer_size.
  - apply initFrameBindGroup_returns.
Qed.

Lemma initFrameBindGroup_jointTransformBuffer_witness :
  (exists r' buffer descriptor,
     initFrameBindGroup (Scenario.fresh Rigged.group) = Ok tt r' /\
     createdWith GltfRenderer.jointTransformBuffer buffer descriptor r' /\
     GPUBufferDescriptor.size descriptor = (16 * 2 * 3 * 4)%Z) /\
  (exists r' buffer descriptor,
     initFrameBindGroup (Scenario.fresh Scenario.twoTrianglesGroup) = Ok tt r' /\
     createdWith GltfRenderer.jointTransformBuffer buffer descriptor r' /\
     GPUBufferDescriptor.size descriptor = (4 * 4)%Z).
Proof.
  split.
  - destruct (initFrameBindGroup_jointTransformBuffer (Scenario.fresh Rigged.group))
      as [Hsize Hreturns].
    destruct (Hreturns eq_refl) as [r' Hr'].
    destruct (Hsize r' Hr') as (buffer & descriptor & Hcreated & Hskin & _).
    exists r', buffer, descriptor. split; [exact Hr' | split; [exact Hcreated|]].
    rewrite (Hskin _ _ eq_refl eq_refl). reflexivity.
  - destruct (initFrameBindGroup_jointTransformBuffer
                (Scenario.fresh Scenario.twoTrianglesGroup)) as [Hsize Hreturns].
    destruct (Hreturns eq_refl) as [r' Hr'].
    destruct (Hsize r' Hr') as (buffer & descriptor & Hcreated & _ & Hnone).
    exists r', buffer, descriptor. split; [exact Hr' | split; [exact Hcreated|]].
    rewrite (Hnone eq_refl). reflexivity.
Defined.

(** ** Primitives *)

Lemma extends_nil r locals : extends r locals [] locals.
Proof. split; cbn; rewrite ?app_nil_r; auto. Qed.

Lemma extends_app r l0 ps1 l1 ps2 l2 :
  extends r l0 ps1 l1 -> extends r l1 ps2 l2 -> extends r l0 (ps1 ++ ps2) l2.
Proof.
  intros [R1 A1 B1 C1] [R2 A2 B2 C2]. split.
  - apply Forall_app; split; assumption.
  - rewrite A2, A1, fmap_app, app_assoc. reflexivity.
  - rewrite B2, B1, fmap_app, app_assoc. reflexivity.
  - rewrite C2, C1. unfold lastCount. rewrite last_app.
    destruct (last ps2) as [p|] eqn:Hlast; [|reflexivity].
    apply last_Some_elem_of in Hlast.
    rewrite Forall_forall in R2. destruct (R2 p Hlast) as [accessor ->]. reflexivity.
Qed.

Lemma accessorAt_Ok i r accessor r' :
  accessorAt i r = Ok accessor r' ->
  r' = r /\ exists index, i = Some index /\ GlTf.accessors (gltfOf r) !! index = Some accessor.
Proof.
  unfold accessorAt, bind, this, throw, ret.
  destruct i as [index|]; simpl; [|discriminate].
  destruct (GlTf.accessors (gltfOf r) !! index) eqn:H; simpl; [|discriminate].
  intros [= <- <-]. eauto.
Qed.

Lemma pushAttribute_Ok accessor bufferView location locals r locals' r' index :
  GlTf.accessors (gltfOf r) !! index = Some accessor ->
  bufferView = bufferViewAt r (Accessor.bufferView accessor) ->
  pushAttribute accessor bufferView location locals r = Ok locals' r' ->
  r' = r /\ extends r locals [(index, location)] locals'.
Proof.
  intros Hacc ->. unfold pushAttribute, gpuBufferAt. unfold bind, this, throw, ret.
  destruct (bufferViewAt r (Accessor.bufferView accessor)) as [bv|] eqn:Hbv;
    [|discriminate].
  destruct (GltfRenderer.gpuBuffers r) as [buffers|] eqn:Hb; [|discriminate].
  intros [= <- <-]. split; [reflexivity|].
  split; cbn.
  - repeat constructor. unfold accessorOf. cbn. rewrite Hacc. eauto.
  - rewrite fmap_app. cbn. unfold layoutOf, accessorOf. cbn. rewrite Hacc. cbn.
    rewrite Hbv. reflexivity.
  - rewrite fmap_app. cbn. unfold bindingOf, accessorOf. cbn. rewrite Hacc. cbn.
    rewrite Hb. reflexivity.
  - unfold lastCount, accessorOf. cbn. rewrite Hacc. reflexivity.
Qed.

Lemma shaderAttributeStep_Ok primitive locals entry r locals' r' :
  shaderAttributeStep primitive locals entry r = Ok locals' r' ->
  r' = r /\ extends r locals (foundIn primitive entry) locals'.
Proof.
  destruct entry as [name location]. unfold shaderAttributeStep, foundIn. cbn.
  destruct (findAttribute name (MeshPrimitive.attributes primitive)) as [index|].
  - intros H. apply bind_Ok_inv in H as (accessor & r1 & Ha & H).
    apply accessorAt_Ok in Ha as (-> & index' & [= <-] & Hacc).
    unfold bind, this in H. eapply pushAttribute_Ok; eauto.
  - intros [= <- <-]. split; [reflexivity | apply extends_nil].
Qed.

Lemma primitiveAttributeStep_Ok locals entry r locals' r' :
  primitiveAttributeStep locals entry r = Ok locals' r' ->
  r' = r /\ extends r locals (strayIn entry) locals'.
Proof.
  destruct entry as [name index]. unfold primitiveAttributeStep, strayIn. cbn.
  intros H. apply bind_Ok_inv in H as (accessor & r1 & Ha & H).
  apply accessorAt_Ok in Ha as (-> & index' & [= <-] & Hacc).
  unfold bind, this in H.
  destruct (mapObjectProperty ShaderLocations name) as [location|].
  - eapply pushAttribute_Ok; eauto.
  - injection H as <- <-. split; [reflexivity | apply extends_nil].
Qed.

Lemma forOf_extends {A} (f : A -> list Processed) (body : Locals.t -> A -> M Locals.t)
    (xs : list A) locals r locals' r' :
  (forall locals x r locals' r',
     body locals x r = Ok locals' r' -> r' = r /\ extends r locals (f x) locals') ->
  forOf xs body locals r = Ok locals' r' ->
  r' = r /\ extends r locals (flat_map f xs) locals'.
Proof.
  intros Hbody. revert locals.
  induction xs as [|x rest IH]; intros locals H; simpl in *.
  - injection H as <- <-. split; [reflexivity | apply extends_nil].
  - apply bind_Ok_inv in H as (l1 & r1 & H1 & H).
    apply Hbody in H1 as [-> H1]. apply IH in H as [-> H].
    split; [reflexivity | eapply extends_app; eauto].
Qed.

Lemma buildVertexState_Ok primitive r locals r' :
  buildVertexState primitive r = Ok locals r' ->
  r' = r /\ extends r Locals.initial (processed primitive) locals.
Proof.
  unfold buildVertexState. intros H.
  apply bind_Ok_inv in H as (l1 & r1 & H1 & H).
  apply (forOf_extends (foundIn primitive)) in H1 as [-> H1];
    [|intros; eapply shaderAttributeStep_Ok; eauto].
  apply (forOf_extends strayIn) in H as [-> H];
    [|intros; eapply primitiveAttributeStep_Ok; eauto].
  split; [reflexivity | eapply extends_app; eauto].
Qed.

Ltac untouched_leaf :=
  let H := fresh in
  intros ? H; destruct H as (? & ? & ? & ? & ?); repeat split; cbn; assumption.

Lemma getVertexShaderModule_untouched r0 : keeps (untouched r0) getVertexShaderModule.
Proof. repeat keeps_step; untouched_leaf. Qed.

Lemma getFragmentShaderModule_untouched r0 : keeps (untouched r0) getFragmentShaderModule.
Proof. repeat keeps_step; untouched_leaf. Qed.

Lemma gpuBufferAt_Ok i r b r' :
  gpuBufferAt i r = Ok b r' ->
  r' = r /\ exists buffers, GltfRenderer.gpuBuffers r = Some buffers /\
                            b = i ≫= (fun i => buffers !! i).
Proof.
  unfold gpuBufferAt. unfold bind, this, throw, ret.
  destruct (GltfRenderer.gpuBuffers r) as [buffers|]; [|discriminate].
  intros [= <- <-]. eauto.
Qed.

Lemma setupPrimitive_Ok key primitive r r' :
  setupPrimitive key primitive r = Ok tt r' ->
  exists locals gpuPrimitive descriptor,
    extends r Locals.initial (processed primitive) locals /\
    storedFor r primitive (length (GPUDevice.renderPipelines (GltfRenderer.device r))) locals
    = Some gpuPrimitive /\
    GltfRenderer.primitiveGpuData r' = <[key := gpuPrimitive]> (GltfRenderer.primitiveGpuData r) /\
    GPUDevice.renderPipelines (GltfRenderer.device r')
    = GPUDevice.renderPipelines (GltfRenderer.device r) ++ [descriptor] /\
    GPURenderPipelineDescriptor.buffers descriptor = Locals.bufferLayout locals /\
    GPURenderPipelineDescriptor.topology descriptor
    = GLTFUtil.gpuPrimitiveTopologyForMode (MeshPrimitive.mode primitive) /\
    GPURenderPipelineDescriptor.layout descriptor = GltfRenderer.gltfPipelineLayout r /\
    GltfRenderer.gltf_group r' = GltfRenderer.gltf_group r /\
    GltfRenderer.gpuBuffers r' = GltfRenderer.gpuBuffers r.
Proof.
  unfold setupPrimitive. intros H.
  bind_inv H locals r1 H1. apply buildVertexState_Ok in H1 as [-> Hlocals].
  assert (H0 : untouched r r) by (repeat split).
  bind_inv H vertModule r2 H2.
  apply (keeps_Ok (untouched r) _ _ _ _ (getVertexShaderModule_untouched r) H0) in H2.
  bind_inv H fragModule r3 H3.
  apply (keeps_Ok (untouched r) _ _ _ _ (getFragmentShaderModule_untouched r) H2) in H3.
  destruct H3 as (Hgroup & Hbuffers & Hdata & Hlayout & Hpipes).
  rewrite bind_this, bind_createRenderPipeline in H. cbv beta in H.
  rewrite Hpipes in H.
  set (pipeline := length (GPUDevice.renderPipelines (GltfRenderer.device r))) in *.
  exists locals.
  unfold storedFor.
  destruct (MeshPrimitive.indices primitive) as [indices|].
  - rewrite bind_assoc in H. bind_inv H accessor r4 H4.
    apply accessorAt_Ok in H4 as (-> & index & [= <-] & Hacc).
    rewrite bind_assoc in H. bind_inv H indexBuffer r4 H4.
    apply gpuBufferAt_Ok in H4 as (-> & buffers & Hb & ->).
    rewrite bind_ret in H. unfold assign in H. injection H as <-.
    unfold gltfOf in *. cbn in Hacc, Hb. rewrite Hgroup in Hacc. rewrite Hbuffers in Hb.
    rewrite Hacc, Hb. cbn.
    eexists _, _. split; [exact Hlocals|]. split; [reflexivity|].
    split; [cbn; rewrite Hdata; reflexivity|].
    split; [cbn; rewrite Hpipes; reflexivity|].
    cbn. repeat split; congruence.
  - rewrite bind_ret in H. unfold assign in H. injection H as <-.
    eexists _, _. split; [exact Hlocals|]. split; [reflexivity|].
    split; [cbn; rewrite Hdata; reflexivity|].
    split; [cbn; rewrite Hpipes; reflexivity|].
    cbn. repeat split; congruence.
Qed.

Lemma defined_Some {A} (o : option A) : defined o = true -> exists a, o = Some a.
Proof. destruct o; [eauto | discriminate]. Qed.

Lemma accessorAt_eq index r accessor :
  GlTf.accessors (gltfOf r) !! index = Some accessor ->
  accessorAt (Some index) r = Ok accessor r.
Proof. intros H. unfold accessorAt. unfold bind, this. cbn. rewrite H. reflexivity. Qed.

Lemma gpuBufferAt_eq i r buffers :
  GltfRenderer.gpuBuffers r = Some buffers ->
  gpuBufferAt i r = Ok (i ≫= (fun i => buffers !! i)) r.
Proof. intros H. unfold gpuBufferAt. unfold bind, this. rewrite H. reflexivity. Qed.

Lemma pushAttribute_returns r p buffers locals :
  GltfRenderer.gpuBuffers r = Some buffers ->
  defined (layoutOf r p) = true ->
  exists accessor locals',
    GlTf.accessors (gltfOf r) !! fst p = Some accessor /\
    pushAttribute accessor (bufferViewAt r (Accessor.bufferView accessor)) (snd p) locals r
    = Ok locals' r.
Proof.
  intros Hb Hp. apply defined_Some in Hp as [layout Hp].
  unfold layoutOf, accessorOf in Hp.
  destruct (GlTf.accessors (gltfOf r) !! fst p) as [accessor|] eqn:Hacc; [|discriminate].
  cbn in Hp.
  destruct (bufferViewAt r (Accessor.bufferView accessor)) as [bv|] eqn:Hbv; [|discriminate].
  exists accessor. eexists. split; [reflexivity|].
  unfold pushAttribute. rewrite Hbv.
  rewrite (bind_eq_Ok _ _ _ _ _ (gpuBufferAt_eq _ r buffers Hb)). reflexivity.
Qed.

Lemma buildVertexState_returns r primitive :
  primitiveReady r primitive = true ->
  exists locals, buildVertexState primitive r = Ok locals r.
Proof.
  unfold primitiveReady. intros H.
  apply andb_prop in H as [H _]. apply andb_prop in H as [H Hprocessed].
  apply andb_prop in H as [Hb Hattrs].
  apply defined_Some in Hb as [buffers Hb].
  rewrite forallb_forall in Hattrs, Hprocessed.
  unfold buildVertexState.
  destruct (forOf_returns (fun (_ : Locals.t) r' => r' = r)
              (fun entry => forall p, In p (foundIn primitive entry) -> In p (processed primitive))
              ShaderLocations (shaderAttributeStep primitive) Locals.initial r)
    as (locals1 & r1 & H1 & ->).
  - reflexivity.
  - apply Forall_forall. intros entry Hentry p Hp.
    unfold processed, shaderAttributesFound. apply in_or_app. left.
    apply in_flat_map. exists entry. split; [apply list_elem_of_In, Hentry | exact Hp].
  - intros locals r1 [name location] -> Hin.
    unfold shaderAttributeStep, foundIn in *. cbn in *.
    destruct (findAttribute name (MeshPrimitive.attributes primitive)) as [index|].
    + destruct (pushAttribute_returns r (index, JsNumber location) buffers locals Hb)
        as (accessor & locals' & Hacc & Hpush).
      { apply Hprocessed, Hin. left. reflexivity. }
      rewrite (bind_eq_Ok _ _ _ _ _ (accessorAt_eq _ _ _ Hacc)), bind_this.
      eauto.
    + eauto.
  - rewrite (bind_eq_Ok _ _ _ _ _ H1).
    destruct (forOf_returns (fun (_ : Locals.t) r' => r' = r)
                (fun entry => In entry (MeshPrimitive.attributes primitive))
                (MeshPrimitive.attributes primitive) primitiveAttributeStep locals1 r)
      as (locals2 & r2 & H2 & ->).
    + reflexivity.
    + apply Forall_forall. intros entry Hentry. apply list_elem_of_In, Hentry.
    + intros locals r1 [name index] -> Hin.
      unfold primitiveAttributeStep. cbn.
      destruct (defined_Some _ (Hattrs _ Hin)) as [accessor Hacc]. cbn in Hacc.
      rewrite (bind_eq_Ok _ _ _ _ _ (accessorAt_eq _ _ _ Hacc)), bind_this.
      destruct (mapObjectProperty ShaderLocations name) as [location|] eqn:Hprop; [|eauto].
      destruct (pushAttribute_returns r (index, location) buffers locals Hb)
        as (accessor' & locals' & Hacc' & Hpush).
      { apply Hprocessed. unfold processed, strayAttributes. apply in_or_app. right.
        apply in_flat_map. exists (name, index). split; [exact Hin|].
        unfold strayIn. cbn. rewrite Hprop. left. reflexivity. }
      cbn in Hacc'. rewrite Hacc in Hacc'. injection Hacc' as <-. eauto.
    + eauto.
Qed.

Lemma getVertexShaderModule_returns r :
  exists module r', getVertexShaderModule r = Ok module r' /\ untouched r r'.
Proof.
  unfold getVertexShaderModule. rewrite bind_this.
  destruct (GltfRenderer.vertShaderModule r).
  - eexists _, _. split; [reflexivity | repeat split].
  - run. eexists _, _. split; [reflexivity | repeat split].
Qed.

Lemma getFragmentShaderModule_returns r :
  exists module r', getFragmentShaderModule r = Ok module r' /\ untouched r r'.
Proof.
  unfold getFragmentShaderModule. rewrite bind_this.
  destruct (GltfRenderer.fragShaderModule r).
  - eexists _, _. split; [reflexivity | repeat split].
  - run. eexists _, _. split; [reflexivity | repeat split].
Qed.

Lemma untouched_trans r0 r1 r2 : untouched r0 r1 -> untouched r1 r2 -> untouched r0 r2.
Proof.
  intros (A1 & B1 & C1 & D1 & E1) (A2 & B2 & C2 & D2 & E2).
  repeat split; congruence.
Qed.

Lemma setupPrimitive_returns key primitive r :
  primitiveReady r primitive = true ->
  exists r', setupPrimitive key primitive r = Ok tt r'.
Proof.
  intros Hready.
  destruct (buildVertexState_returns r primitive Hready) as [locals Hbuild].
  unfold primitiveReady in Hready.
  apply andb_prop in Hready as [Hready Hindices].
  apply andb_prop in Hready as [Hready _]. apply andb_prop in Hready as [Hb _].
  apply defined_Some in Hb as [buffers Hb].
  unfold setupPrimitive. rewrite (bind_eq_Ok _ _ _ _ _ Hbuild).
  destruct (getVertexShaderModule_returns r) as (vertModule & r1 & Hvert & H1).
  rewrite (bind_eq_Ok _ _ _ _ _ Hvert).
  destruct (getFragmentShaderModule_returns r1) as (fragModule & r2 & Hfrag & H2).
  rewrite (bind_eq_Ok _ _ _ _ _ Hfrag).
  pose proof (untouched_trans _ _ _ H1 H2) as (Hgroup & Hbuffers & _).
  run.
  destruct (MeshPrimitive.indices primitive) as [indices|].
  - apply defined_Some in Hindices as [accessor Hacc].
    run.
    erewrite (bind_eq_Ok (accessorAt _)).
    2:{ apply accessorAt_eq. unfold gltfOf in *. cbn. rewrite Hgroup. exact Hacc. }
    cbv beta. run.
    erewrite (bind_eq_Ok (gpuBufferAt _)).
    2:{ apply gpuBufferAt_eq. cbn. rewrite Hbuffers. exact Hb. }
    run. unfold assign. eauto.
  - run. unfold assign. eauto.
Qed.

Lemma processed_strayFree primitive :
  strayFree primitive = true -> processed primitive = shaderAttributesFound primitive.
Proof.
  unfold strayFree, processed, strayAttributes. intros H.
  induction (MeshPrimitive.attributes primitive) as [|[name index] rest IH]; cbn in *.
  - apply app_nil_r.
  - apply andb_prop in H as [Hname Hrest]. unfold strayIn at 1. cbn.
    destruct (mapObjectProperty ShaderLocations name); [discriminate|]. cbn.
    apply IH, Hrest.
Qed.

Lemma setupPrimitive_bindings_follow_layouts key primitive r r' :
  setupPrimitive key primitive r = Ok tt r' ->
  exists gpuPrimitive descriptor,
    GltfRenderer.primitiveGpuData r' !! key = Some gpuPrimitive /\
    GPUDevice.renderPipelines (GltfRenderer.device r')
      !! GPUPrimitiveInfo.pipeline gpuPrimitive = Some descriptor /\
    Some <$> GPURenderPipelineDescriptor.buffers descriptor
    = layoutOf r <$> processed primitive /\
    Some <$> GPUPrimitiveInfo.buffers gpuPrimitive
    = bindingOf r <$> processed primitive.
Proof.
  intros H. apply setupPrimitive_Ok in H
    as (locals & gp & pd & Hext & Hstored & Hdata & Hpipes & Hpd & _).
  destruct Hext as [_ Hlayout Hbuffers _]. cbn in Hlayout, Hbuffers.
  exists gp, pd. rewrite Hdata, Hpipes, Hpd, lookup_insert_eq.
  assert (GPUPrimitiveInfo.pipeline gp
          = length (GPUDevice.renderPipelines (GltfRenderer.device r)) /\
          GPUPrimitiveInfo.buffers gp = Locals.primitiveGpuBuffers locals) as [-> ->].
  { unfold storedFor in Hstored.
    destruct (MeshPrimitive.indices primitive) as [indices|].
    - destruct (GlTf.accessors (gltfOf r) !! indices); [|discriminate]. cbn in Hstored.
      destruct (GltfRenderer.gpuBuffers r); [|discriminate].
      injection Hstored as <-. split; reflexivity.
    - injection Hstored as <-. split; reflexivity. }
  repeat split; try assumption.
  apply list_lookup_middle. reflexivity.
Qed.

(** C3 (as the code has it).  A primitive with the attributes POSITION
    and "size": one shader-required attribute is found, yet two buffers are
    recorded for draw time and the pipeline gets two vertex-buffer layouts,
    the second at shader location 4, the [size] of the [ShaderLocations]
    map.  The second loop of [setupPrimitive] reads [ShaderLocations] with
    brackets, which on a [Map] never finds an entry but does find the
    properties of the Map object. *)
Theorem setupPrimitive_size_attribute :
  exists r' gpuPrimitive descriptor,
    setupPrimitive (0%nat, 0%nat) Scenario2.sizeNamed
      (Scenario2.loaded Scenario.twoTrianglesGroup) = Ok tt r' /\
    GltfRenderer.primitiveGpuData r' !! (0%nat, 0%nat) = Some gpuPrimitive /\
    GPUDevice.renderPipelines (GltfRenderer.device r')
      !! GPUPrimitiveInfo.pipeline gpuPrimitive = Some descriptor /\
    shaderAttributesFound Scenario2.sizeNamed = [(0%nat, JsNumber 0)] /\
    length (GPUPrimitiveInfo.buffers gpuPrimitive) = 2%nat /\
    (GPUVertexAttribute.shaderLocation <$>
       concat (GPUVertexBufferLayout.attributes <$>
                 GPURenderPipelineDescriptor.buffers descriptor))
    = [JsNumber 0; JsNumber 4].
Proof.
  vm_compute. eexists _, _, _. repeat split; reflexivity.
Qed.

(** Without such an attribute the recorded buffers are exactly the
    shader-required attributes found, in shader-slot order, matching the
    pipeline's layouts position by position. *)
Lemma setupPrimitive_shader_slot_order key primitive r r' :
  strayFree primitive = true ->
  setupPrimitive key primitive r = Ok tt r' ->
  exists gpuPrimitive descriptor,
    GltfRenderer.primitiveGpuData r' !! key = Some gpuPrimitive /\
    GPUDevice.renderPipelines (GltfRenderer.device r')
      !! GPUPrimitiveInfo.pipeline gpuPrimitive = Some descriptor /\
    Some <$> GPURenderPipelineDescriptor.buffers descriptor
    = layoutOf r <$> shaderAttributesFound primitive /\
    Some <$> GPUPrimitiveInfo.buffers gpuPrimitive
    = bindingOf r <$> shaderAttributesFound primitive.
Proof.
  intros Hfree H. rewrite <- (processed_strayFree primitive Hfree).
  apply setupPrimitive_bindings_follow_layouts, H.
Qed.

Lemma storedFor_drawCount r primitive pipeline locals gpuPrimitive :
  storedFor r primitive pipeline locals = Some gpuPrimitive ->
  match MeshPrimitive.indices primitive with
  | Some indices =>
      exists accessor,
        GlTf.accessors (gltfOf r) !! indices = Some accessor /\
        GPUPrimitiveInfo.drawCount gpuPrimitive = Accessor.count accessor
  | None => GPUPrimitiveInfo.drawCount gpuPrimitive = Locals.drawCount locals
  end.
Proof.
  unfold storedFor. destruct (MeshPrimitive.indices primitive) as [indices|].
  - destruct (GlTf.accessors (gltfOf r) !! indices) as [accessor|]; [|discriminate].
    cbn. destruct (GltfRenderer.gpuBuffers r); [|discriminate].
    intros [= <-]. eauto.
  - intros [= <-]. reflexivity.
Qed.

(** C8.  Whenever [setupPrimitive] returns, the stored draw count of a
    primitive without indices is the element count of the accessor of the
    last attribute processed while the vertex layout was built (0 when none
    was processed), and the stored draw count of a primitive with indices
    is the element count of its index accessor; and [setupPrimitive] does
    return on a primitive whose accessors and buffer views exist. *)
Theorem setupPrimitive_drawCount (key : PrimitiveRef) (primitive : MeshPrimitive.t)
    (r : GltfRenderer.t) :
  (forall r', setupPrimitive key primitive r = Ok tt r' ->
     exists gpuPrimitive,
       GltfRenderer.primitiveGpuData r' !! key = Some gpuPrimitive /\
       match MeshPrimitive.indices primitive with
       | Some indices =>
           exists accessor,
             GlTf.accessors (gltfOf r) !! indices = Some accessor /\
             GPUPrimitiveInfo.drawCount gpuPrimitive = Accessor.count accessor
       | None =>
           match last (processed primitive) with
           | Some p =>
               exists accessor,
                 accessorOf r p = Some accessor /\
                 GPUPrimitiveInfo.drawCount gpuPrimitive = Accessor.count accessor
           | None => GPUPrimitiveInfo.drawCount gpuPrimitive = 0%Z
           end
       end) /\
  (primitiveReady r primitive = true ->
   exists r', setupPrimitive key primitive r = Ok tt r').
Proof.
  split; [|apply setupPrimitive_returns].
  intros r' H. apply setupPrimitive_Ok in H
    as (locals & gp & pd & Hext & Hstored & Hdata & _).
  exists gp. rewrite Hdata, lookup_insert_eq. split; [reflexivity|].
  apply storedFor_drawCount in Hstored.
  destruct (MeshPrimitive.indices primitive) as [indices|]; [exact Hstored|].
  destruct Hext as [Hresolved _ _ Hcount]. unfold lastCount in Hcount.
  destruct (last (processed primitive)) as [p|] eqn:Hlast;
    [|cbn in Hcount; congruence].
  apply last_Some_elem_of in Hlast. rewrite Forall_forall in Hresolved.
  destruct (Hresolved p Hlast) as [accessor Hacc]. exists accessor.
  rewrite Hacc in Hcount. split; [exact Hacc | cbn in Hcount; congruence].
Qed.

Lemma setupPrimitive_drawCount_witness :
  (exists r' gpuPrimitive,
     setupPrimitive (0%nat, 0%nat) Scenario.indexedTriangle
       (Scenario2.loaded Scenario.twoTrianglesGroup) = Ok tt r' /\
     GltfRenderer.primitiveGpuData r' !! (0%nat, 0%nat) = Some gpuPrimitive /\
     GPUPrimitiveInfo.drawCount gpuPrimitive = Accessor.count Scenario.triangleIndices) /\
  (exists r' gpuPrimitive,
     setupPrimitive (0%nat, 1%nat) Scenario.plainTriangle
       (Scenario2.loaded Scenario.twoTrianglesGroup) = Ok tt r' /\
     GltfRenderer.primitiveGpuData r' !! (0%nat, 1%nat) = Some gpuPrimitive /\
     GPUPrimitiveInfo.drawCount gpuPrimitive = Accessor.count Scenario.positions).
Proof.
  split.
  - destruct (setupPrimitive_drawCount (0%nat, 0%nat) Scenario.indexedTriangle
                (Scenario2.loaded Scenario.twoTrianglesGroup)) as [Hcount Hreturns].
    destruct (Hreturns eq_refl) as [r' Hr'].
    destruct (Hcount r' Hr') as (gp & Hgp & accessor & Hacc & Hdraw).
    exists r', gp. split; [exact Hr' | split; [exact Hgp|]].
    rewrite Hdraw. injection Hacc as <-. reflexivity.
  - destruct (setupPrimitive_drawCount (0%nat, 1%nat) Scenario.plainTriangle
                (Scenario2.loaded Scenario.twoTrianglesGroup)) as [Hcount Hreturns].
    destruct (Hreturns eq_refl) as [r' Hr'].
    destruct (Hcount r' Hr') as (gp & Hgp & accessor & Hacc & Hdraw).
    exists r', gp. split; [exact Hr' | split; [exact Hgp|]].
    rewrite Hdraw. injection Hacc as <-. reflexivity.
Defined.

(** ** Unsupported topologies *)

Example topology_triangles :
  GLTFUtil.gpuPrimitiveTopologyForMode (Some GLTFUtil.GL_TRIANGLES) = Some "triangle-list".
Proof. reflexivity. Qed.

(** C2 fails: the triangle fan of [Scenario2.fanGroup] does not fail fast,
    and the whole initialization returns with one pipeline created for it,
    its topology left undefined. *)
Lemma triangleFan_not_rejected :
  ~ failsFast (0%nat, 0%nat) Scenario2.fan (Scenario2.loaded Scenario2.fanGroup) /\
  exists r' descriptor,
    init GPUDevice.empty (800, 600)%Z Scenario2.fanGroup true = Ok tt r' /\
    GPUDevice.renderPipelines (GltfRenderer.device r') = [descriptor] /\
    GPURenderPipelineDescriptor.topology descriptor = None.
Proof.
  split.
  - intros (e & r' & H & _). vm_compute in H. discriminate H.
  - vm_compute. eexists _, _. repeat split; reflexivity.
Qed.

(** C2 (amended).  For a primitive whose mode is line-loop or
    triangle-fan the topology mapping yields no topology, and
    [setupPrimitive] does not throw on that account: on a primitive whose
    accessors and buffer views exist it returns, having created exactly one
    more render pipeline, with the topology left undefined, and having
    stored the primitive's GPU state. *)
Theorem unsupported_topology_not_rejected (key : PrimitiveRef)
    (primitive : MeshPrimitive.t) (r : GltfRenderer.t) :
  MeshPrimitive.mode primitive = Some GLTFUtil.GL_LINES_LOOP \/
  MeshPrimitive.mode primitive = Some GLTFUtil.GL_TRIANGLE_FAN ->
  GLTFUtil.gpuPrimitiveTopologyForMode (MeshPrimitive.mode primitive) = None /\
  (primitiveReady r primitive = true ->
   exists r' descriptor,
     setupPrimitive key primitive r = Ok tt r' /\
     GPUDevice.renderPipelines (GltfRenderer.device r')
     = GPUDevice.renderPipelines (GltfRenderer.device r) ++ [descriptor] /\
     GPURenderPipelineDescriptor.topology descriptor = None /\
     is_Some (GltfRenderer.primitiveGpuData r' !! key)).
Proof.
  intros Hmode.
  assert (Htopology :
            GLTFUtil.gpuPrimitiveTopologyForMode (MeshPrimitive.mode primitive) = None)
    by (destruct Hmode as [-> | ->]; reflexivity).
  split; [exact Htopology|].
  intros Hready. destruct (setupPrimitive_returns key primitive r Hready) as [r' Hr'].
  destruct (setupPrimitive_Ok _ _ _ _ Hr')
    as (locals & gp & pd & _ & _ & Hdata & Hpipes & _ & Hpd & _).
  exists r', pd. split; [exact Hr'|]. split; [exact Hpipes|].
  split; [congruence|]. rewrite Hdata, lookup_insert_eq. eauto.
Qed.

Lemma unsupported_topology_not_rejected_witness :
  exists r' descriptor,
    setupPrimitive (0%nat, 0%nat) Scenario2.fan (Scenario2.loaded Scenario2.fanGroup)
    = Ok tt r' /\
    GPUDevice.renderPipelines (GltfRenderer.device r') = [descriptor] /\
    GPURenderPipelineDescriptor.topology descriptor = None.
Proof.
  destruct (unsupported_topology_not_rejected (0%nat, 0%nat) Scenario2.fan
              (Scenario2.loaded Scenario2.fanGroup) (or_intror eq_refl))
    as [_ Hsetup].
  destruct (Hsetup eq_refl) as (r' & descriptor & Hr' & Hpipes & Htopology & _).
  exists r', descriptor. split; [exact Hr' | split; [exact Hpipes | exact Htopology]].
Defined.

(** ** Buffers *)

Lemma marked_nil g usages : marked g usages [] usages.
Proof. split; [intros i; cbn; rewrite orb_false_r; reflexivity | auto]. Qed.

Lemma marked_app g u0 refs1 u1 refs2 u2 :
  marked g u0 refs1 u1 -> marked g u1 refs2 u2 -> marked g u0 (refs1 ++ refs2) u2.
Proof.
  intros [H1 T1] [H2 T2]. split; [|auto].
  intros i. unfold backs in *. rewrite H2, H1, existsb_app, orb_assoc. reflexivity.
Qed.

Lemma has_mark key usage usages i :
  BufferViewUsages.has i (BufferViewUsages.mark key usage usages)
  = bool_decide (key = Some i) || BufferViewUsages.has i usages.
Proof.
  unfold BufferViewUsages.has, BufferViewUsages.mark. cbn.
  destruct (decide (key = Some i)) as [->|Hne].
  - rewrite lookup_insert_eq.
    rewrite (bool_decide_eq_true_2 (Some i = Some i)) by reflexivity.
    apply bool_decide_eq_true_2. eauto.
  - rewrite lookup_insert_ne by exact Hne.
    rewrite (bool_decide_eq_false_2 (key = Some i)) by exact Hne. reflexivity.
Qed.

Lemma property_mark key usage usages i :
  BufferViewUsages.property i (BufferViewUsages.mark key usage usages)
  = if decide (key = Some i) then Some usage else BufferViewUsages.property i usages.
Proof.
  unfold BufferViewUsages.property, BufferViewUsages.mark. cbn.
  destruct (decide (key = Some i)) as [->|Hne].
  - apply lookup_insert_eq.
  - apply lookup_insert_ne, Hne.
Qed.

Lemma marked_one g usages accessor index usage :
  GlTf.accessors g !! index = Some accessor -> In usage usageTags ->
  marked g usages [(index, usage)]
    (BufferViewUsages.mark (Accessor.bufferView accessor) usage usages).
Proof.
  intros Hacc Husage. split.
  - intros i. rewrite has_mark. unfold backs, viewOf. cbn. rewrite Hacc. cbn.
    rewrite orb_false_r. apply orb_comm.
  - intros Htagged i. rewrite has_mark, property_mark.
    destruct (decide (Accessor.bufferView accessor = Some i)) as [Heq|Hne].
    + eauto.
    + rewrite bool_decide_eq_false_2 by exact Hne. apply Htagged.
Qed.

Lemma forOf_marked {A} (f : A -> list (GlTfId * Z))
    (body : BufferViewUsages.t -> A -> M BufferViewUsages.t) (xs : list A)
    (P : GltfRenderer.t -> GltfRenderer.t -> Prop) usages r usages' r' :
  (forall r, P r r) -> (forall r1 r2 r3, P r1 r2 -> P r2 r3 -> P r1 r3) ->
  (forall usages x r usages' r',
     body usages x r = Ok usages' r' -> P r r' /\ marked (gltfOf r) usages (f x) usages') ->
  (forall r r', P r r' -> gltfOf r' = gltfOf r) ->
  forOf xs body usages r = Ok usages' r' ->
  P r r' /\ marked (gltfOf r) usages (flat_map f xs) usages'.
Proof.
  intros Hrefl Htrans Hbody Hgltf. revert usages r.
  induction xs as [|x rest IH]; intros usages r H; simpl in *.
  - injection H as <- <-. split; [apply Hrefl | apply marked_nil].
  - apply bind_Ok_inv in H as (u1 & r1 & H1 & H).
    apply Hbody in H1 as [HP H1]. apply IH in H as [HP' H].
    rewrite (Hgltf _ _ HP) in H.
    split; [eapply Htrans; eauto | eapply marked_app; eauto].
Qed.

Lemma attribute_refs (attributes : list (string * GlTfId)) :
  flat_map (fun attribute : GlTfId => [(attribute, GPUBufferUsage.VERTEX)])
    (map snd attributes)
  = (fun entry => (snd entry, GPUBufferUsage.VERTEX)) <$> attributes.
Proof.
  induction attributes as [|[name index] rest IH]; cbn; [reflexivity | f_equal; exact IH].
Qed.

Lemma markPrimitive_Ok usages primitive r usages' r' :
  markPrimitive usages primitive r = Ok usages' r' ->
  r' = r /\ marked (gltfOf r) usages (primitiveAccessors primitive) usages'.
Proof.
  unfold markPrimitive, primitiveAccessors. intros H.
  bind_inv H u1 r1 H1.
  assert (r1 = r /\ marked (gltfOf r) usages
            match MeshPrimitive.indices primitive with
            | Some indices => [(indices, GPUBufferUsage.INDEX)]
            | None => []
            end u1) as [-> Hindices].
  { destruct (MeshPrimitive.indices primitive) as [indices|].
    - bind_inv H1 accessor r2 H2.
      apply accessorAt_Ok in H2 as (-> & index & [= <-] & Hacc).
      injection H1 as <- <-. split; [reflexivity|].
      apply marked_one; [exact Hacc | cbn; auto].
    - injection H1 as <- <-. split; [reflexivity | apply marked_nil]. }
  apply (forOf_marked (fun attribute => [(attribute, GPUBufferUsage.VERTEX)])
           _ _ (fun r r' => r' = r)) in H.
  - destruct H as [-> H]. split; [reflexivity|].
    eapply marked_app; [exact Hindices|].
    rewrite <- attribute_refs. exact H.
  - reflexivity.
  - congruence.
  - intros u x r0 u' r0' Hbody. bind_inv Hbody accessor r2 H2.
    apply accessorAt_Ok in H2 as (-> & index & [= <-] & Hacc).
    injection Hbody as <- <-. split; [reflexivity|].
    apply marked_one; [exact Hacc | cbn; auto].
  - intros ? ? ->. reflexivity.
Qed.

Lemma markMeshes_Ok usages r usages' r' :
  markMeshes usages r = Ok usages' r' ->
  r' = r /\ marked (gltfOf r) usages (meshAccessors (gltfOf r)) usages'.
Proof.
  unfold markMeshes, meshAccessors. rewrite bind_this. intros H.
  apply (forOf_marked (fun mesh => flat_map primitiveAccessors (Mesh.primitives mesh))
           _ _ (fun r r' => r' = r)) in H; [exact H | reflexivity | congruence | |].
  - intros u mesh r0 u' r0' Hbody.
    apply (forOf_marked primitiveAccessors _ _ (fun r r' => r' = r)) in Hbody;
      [exact Hbody | reflexivity | congruence | | intros ? ? ->; reflexivity].
    intros. apply markPrimitive_Ok. assumption.
  - intros ? ? ->. reflexivity.
Qed.

Lemma markSkin_Ok usages r usages' r' :
  markSkin usages r = Ok usages' r' ->
  GltfRenderer.gltf_group r' = GltfRenderer.gltf_group r /\
  GltfRenderer.device r' = GltfRenderer.device r /\
  marked (gltfOf r) usages (skinAccessors (gltfOf r)) usages'.
Proof.
  unfold markSkin, skinAccessors, hasSkins. rewrite bind_this.
  destruct (GlTf.skins (gltfOf r)) as [skins|] eqn:Hskins.
  - intros H. bind_inv H skin r1 H1.
    apply skins0_Ok in H1 as (Hgroup & Hdevice & skins' & Hs & Hskin).
    rewrite Hskins in Hs. injection Hs as <-.
    bind_inv H accessor r2 H2.
    apply accessorAt_Ok in H2 as (-> & index & Hibm & Hacc).
    injection H as <- <-.
    split; [exact Hgroup | split; [exact Hdevice|]].
    rewrite Hskin. cbn. rewrite Hibm.
    apply marked_one; [|cbn; auto].
    unfold gltfOf in *. rewrite <- Hgroup. exact Hacc.
  - intros [= <- <-]. split; [reflexivity | split; [reflexivity | apply marked_nil]].
Qed.

Lemma pushGpuBuffer_Ok b r r' :
  pushGpuBuffer b r = Ok tt r' ->
  exists handles, GltfRenderer.gpuBuffers r = Some handles /\
                  r' = GltfRenderer.set_gpuBuffers (Some (handles ++ [b])) r.
Proof.
  unfold pushGpuBuffer. rewrite bind_this.
  destruct (GltfRenderer.gpuBuffers r) as [handles|]; [|discriminate].
  unfold assign. intros [= <-]. eauto.
Qed.

Lemma createBufferForView_Ok usages i r r' handles :
  GltfRenderer.gpuBuffers r = Some handles ->
  createBufferForView usages i r = Ok tt r' ->
  loadedOne usages i r r' handles.
Proof.
  intros Hhandles. unfold createBufferForView.
  destruct (BufferViewUsages.has i usages) eqn:Hhas.
  - rewrite bind_this. unfold gltfOf.
    destruct (GlTf.bufferViews (GLTFGroup.gltf (GltfRenderer.gltf_group r)) !! i)
      as [bufferView|] eqn:Hview; [|discriminate].
    rewrite bind_createBuffer. cbv beta. intros H.
    bind_inv H wholeArray r1 H1. unfold awaitBufferData in H1.
    rewrite bind_this in H1. cbn in H1.
    destruct (GLTFGroup.bufferData0 (GltfRenderer.gltf_group r)) as [payload|] eqn:Hpayload;
      [|discriminate]. injection H1 as <- <-.
    bind_inv H u r2 H2. unfold setMapped in H2.
    destruct (_ <? _)%Z; [discriminate|]. unfold onDevice, assign in H2.
    injection H2 as <- <-.
    apply pushGpuBuffer_Ok in H as (handles' & Hh & ->). cbn in Hh.
    rewrite Hhandles in Hh. injection Hh as <-.
    split; [reflexivity | reflexivity |].
    unfold createdFor. rewrite Hhas, Hview, Hpayload. cbn.
    eexists _, _. split; [reflexivity|]. split; reflexivity.
  - rewrite bind_createBuffer. cbv beta. intros H.
    apply pushGpuBuffer_Ok in H as (handles' & Hh & ->). cbn in Hh.
    rewrite Hhandles in Hh. injection Hh as <-.
    split; [reflexivity | reflexivity |].
    unfold createdFor. rewrite Hhas.
    eexists _, _. split; [reflexivity|]. split; [reflexivity|].
    cbn. rewrite app_nil_r. reflexivity.
Qed.

(** The loop of [loadGPUBuffers] over the buffer views [start],
    [start + 1], ..., [start + n - 1]. *)
Lemma createBuffers_Ok usages n : forall start r r' handles,
  GltfRenderer.gpuBuffers r = Some handles ->
  forEach (seq start n) (createBufferForView usages) r = Ok tt r' ->
  GltfRenderer.gltf_group r' = GltfRenderer.gltf_group r /\
  exists handles',
    GltfRenderer.gpuBuffers r' = Some (handles ++ handles') /\
    length handles' = n /\
    (forall h d, GPUDevice.buffers (GltfRenderer.device r) !! h = Some d ->
                 GPUDevice.buffers (GltfRenderer.device r') !! h = Some d) /\
    (forall w, In w (GPUDevice.mappedWrites (GltfRenderer.device r)) ->
               In w (GPUDevice.mappedWrites (GltfRenderer.device r'))) /\
    forall k, (k < n)%nat ->
      exists buffer descriptor bytes,
        handles' !! k = Some buffer /\
        createdFor (GltfRenderer.gltf_group r) usages (start + k) = Some (descriptor, bytes) /\
        GPUDevice.buffers (GltfRenderer.device r') !! buffer = Some descriptor /\
        forall data, bytes = Some data ->
                     In (buffer, data) (GPUDevice.mappedWrites (GltfRenderer.device r')).
Proof.
  induction n as [|n IH]; intros start r r' handles Hhandles H.
  - injection H as <-. split; [reflexivity|]. exists [].
    rewrite app_nil_r. repeat split; auto. intros k Hk. lia.
  - unfold forEach in *. cbn [seq forOf] in H. bind_inv H u r1 H1. destruct u.
    apply (createBufferForView_Ok _ _ _ _ _ Hhandles) in H1
      as [Hgroup1 Hhandles1 (d & bytes & Hcreated & Hbuffers1 & Hwrites1)].
    apply (IH _ _ _ _ Hhandles1) in H
      as (Hgroup & rest & Hrest & Hlen & Hkeep & Hwrites & Hall).
    split; [congruence|].
    exists (length (GPUDevice.buffers (GltfRenderer.device r)) :: rest).
    split; [rewrite Hrest, <- app_assoc; reflexivity|].
    split; [cbn; congruence|].
    split; [intros h d0 Hh; apply Hkeep; rewrite Hbuffers1;
            apply lookup_app_l_Some, Hh|].
    split; [intros w Hw; apply Hwrites; rewrite Hwrites1; apply in_or_app; left; exact Hw|].
    intros [|k] Hk.
    + exists (length (GPUDevice.buffers (GltfRenderer.device r))), d, bytes.
      rewrite Nat.add_0_r. split; [reflexivity|]. split; [exact Hcreated|].
      split.
      * apply Hkeep. rewrite Hbuffers1. apply list_lookup_middle. reflexivity.
      * intros data ->. apply Hwrites. rewrite Hwrites1. apply in_or_app. right.
        left. reflexivity.
    + destruct (Hall k ltac:(lia)) as (b & d' & bytes' & Hb & Hc & Hd & Hw).
      exists b, d', bytes'. split; [exact Hb|].
      rewrite Hgroup1 in Hc. replace (start + S k)%nat with (S start + k)%nat by lia.
      split; [exact Hc | split; [exact Hd | exact Hw]].
Qed.

Lemma has_empty i : BufferViewUsages.has i BufferViewUsages.empty = false.
Proof. reflexivity. Qed.

Lemma wellTagged_empty : wellTagged BufferViewUsages.empty.
Proof. intros i Hi. rewrite has_empty in Hi. discriminate. Qed.

Lemma loadGPUBuffers_Ok r r' :
  loadGPUBuffers r = Ok tt r' ->
  exists handles,
    GltfRenderer.gpuBuffers r' = Some handles /\
    length handles = length (GlTf.bufferViews (gltfOf r)) /\
    forall i bufferView,
      GlTf.bufferViews (gltfOf r) !! i = Some bufferView ->
      exists buffer descriptor,
        handles !! i = Some buffer /\
        GPUDevice.buffers (GltfRenderer.device r') !! buffer = Some descriptor /\
        if referenced (gltfOf r) i
        then dataBufferFor (GltfRenderer.gltf_group r) bufferView buffer descriptor
               (GltfRenderer.device r')
        else descriptor = placeholder.
Proof.
  unfold loadGPUBuffers. intros H.
  bind_inv H u1 r1 H1. apply markMeshes_Ok in H1 as [-> Hmesh].
  bind_inv H u2 r2 H2. apply markSkin_Ok in H2 as (Hgroup & Hdevice & Hskin).
  pose proof (marked_app _ _ _ _ _ _ Hmesh Hskin) as [Hhas Htagged].
  specialize (Htagged wellTagged_empty).
  rewrite bind_assign, bind_this in H.
  apply (createBuffers_Ok _ _ _ (GltfRenderer.set_gpuBuffers (Some []) r2) _ [] eq_refl) in H
    as (_ & handles & Hhandles & Hlen & _ & _ & Hall).
  unfold gltfOf in *.
  change (GltfRenderer.gltf_group (GltfRenderer.set_gpuBuffers (Some []) r2))
    with (GltfRenderer.gltf_group r2) in *.
  rewrite Hgroup in *. cbn [app] in Hhandles.
  exists handles. split; [exact Hhandles|]. split; [exact Hlen|].
  intros i bufferView Hview.
  destruct (Hall i) as (buffer & descriptor & bytes & Hbuffer & Hcreated & Hdescriptor & Hwrite).
  { apply lookup_lt_Some in Hview. exact Hview. }
  exists buffer, descriptor. split; [exact Hbuffer|]. split; [exact Hdescriptor|].
  unfold createdFor in Hcreated. cbn in Hcreated.
  unfold referenced, referencedAccessors.
  specialize (Hhas i). rewrite has_empty in Hhas. cbn [orb] in Hhas.
  rewrite <- Hhas.
  destruct (BufferViewUsages.has i u2) eqn:Hi.
  - rewrite Hview in Hcreated. cbn in Hcreated.
    destruct (GLTFGroup.bufferData0 (GltfRenderer.gltf_group r)) as [payload|] eqn:Hpayload;
      [|discriminate].
    injection Hcreated as <- <-.
    destruct (Htagged i Hi) as (usage & Hu & Hin).
    repeat split; cbn; eauto.
  - injection Hcreated as <- <-. reflexivity.
Qed.

Lemma roundUp4_ge (n : Z) : (n <= roundUp4 n)%Z.
Proof.
  unfold roundUp4.
  pose proof (Z.div_mod (n + 3) 4 ltac:(lia)).
  pose proof (Z.mod_pos_bound (n + 3) 4 ltac:(lia)). lia.
Qed.

Lemma subarray_length (whole : list Z) (begin len : Z) :
  (0 <= begin)%Z -> (0 <= len)%Z ->
  (Z.of_nat (length (subarray whole begin (begin + len))) <= len)%Z.
Proof.
  intros Hb Hl. unfold subarray, relativeIndex.
  rewrite length_take, length_drop.
  destruct (Z.ltb_spec begin 0); [lia|].
  destruct (Z.ltb_spec (begin + len) 0); lia.
Qed.

Lemma viewBytes_fit payload bufferView :
  viewInRange bufferView = true ->
  (Z.max (roundUp4 (BufferView.byteLength bufferView)) 0
   <? Z.of_nat (length (viewBytes payload bufferView)))%Z = false.
Proof.
  unfold viewInRange, viewBytes. intros H. apply andb_prop in H as [Hlen Hoff].
  apply Z.leb_le in Hlen. apply Z.ltb_ge.
  pose proof (roundUp4_ge (BufferView.byteLength bufferView)).
  destruct (BufferView.byteOffset bufferView) as [byteOffset|].
  - apply Z.leb_le in Hoff.
    pose proof (subarray_length payload byteOffset _ Hoff Hlen). lia.
  - unfold subarray. rewrite length_take. cbn. lia.
Qed.

Lemma forallb_flat_map {A B} (p : B -> bool) (f : A -> list B) (xs : list A) :
  forallb p (flat_map f xs) = forallb (fun x => forallb p (f x)) xs.
Proof.
  induction xs as [|x rest IH]; cbn; [reflexivity|].
  rewrite forallb_app, IH. reflexivity.
Qed.

Lemma markPrimitive_returns usages primitive r :
  forallb (fun ref => defined (GlTf.accessors (gltfOf r) !! fst ref))
    (primitiveAccessors primitive) = true ->
  exists usages', markPrimitive usages primitive r = Ok usages' r.
Proof.
  unfold primitiveAccessors, markPrimitive. rewrite forallb_app.
  intros H. apply andb_prop in H as [Hindices Hattributes].
  assert (exists u1,
            match MeshPrimitive.indices primitive with
            | Some indices =>
                accessor <~ accessorAt (Some indices) ;;
                ret (BufferViewUsages.mark (Accessor.bufferView accessor)
                       GPUBufferUsage.INDEX usages)
            | None => ret usages
            end r = Ok u1 r) as [u1 H1].
  { destruct (MeshPrimitive.indices primitive) as [indices|]; [|eauto].
    cbn in Hindices. rewrite andb_true_r in Hindices.
    apply defined_Some in Hindices as [accessor Hacc].
    rewrite (bind_eq_Ok _ _ _ _ _ (accessorAt_eq _ _ _ Hacc)). eauto. }
  rewrite (bind_eq_Ok _ _ _ _ _ H1).
  rewrite <- attribute_refs, forallb_flat_map in Hattributes.
  rewrite forallb_forall in Hattributes.
  destruct (forOf_returns (fun (_ : BufferViewUsages.t) r' => r' = r)
              (fun attribute : GlTfId => defined (GlTf.accessors (gltfOf r) !! attribute) = true)
              (map snd (MeshPrimitive.attributes primitive))
              (fun usages attribute =>
                 accessor <~ accessorAt (Some attribute) ;;
                 ret (BufferViewUsages.mark (Accessor.bufferView accessor)
                        GPUBufferUsage.VERTEX usages)) u1 r)
    as (u2 & r2 & H2 & ->); [reflexivity | | | eauto].
  - apply Forall_forall. intros attribute Hin.
    specialize (Hattributes attribute (proj1 (list_elem_of_In _ _) Hin)).
    cbn in Hattributes. rewrite andb_true_r in Hattributes. exact Hattributes.
  - intros u r1 attribute -> Hattr. apply defined_Some in Hattr as [accessor Hacc].
    rewrite (bind_eq_Ok _ _ _ _ _ (accessorAt_eq _ _ _ Hacc)). eauto.
Qed.

Lemma markMeshes_returns usages r :
  forallb (fun ref => defined (GlTf.accessors (gltfOf r) !! fst ref))
    (meshAccessors (gltfOf r)) = true ->
  exists usages', markMeshes usages r = Ok usages' r.
Proof.
  unfold meshAccessors, markMeshes. rewrite forallb_flat_map, bind_this.
  intros H. rewrite forallb_forall in H.
  destruct (forOf_returns (fun (_ : BufferViewUsages.t) r' => r' = r)
              (fun mesh => In mesh (GlTf.meshes (gltfOf r)))
              (GlTf.meshes (gltfOf r))
              (fun usages mesh => forOf (Mesh.primitives mesh) markPrimitive usages)
              usages r)
    as (u1 & r1 & H1 & ->); [reflexivity | | | eauto].
  - apply Forall_forall. intros mesh Hin. apply list_elem_of_In, Hin.
  - intros u r1 mesh -> Hin. specialize (H mesh Hin).
    rewrite forallb_flat_map, forallb_forall in H.
    destruct (forOf_returns (fun (_ : BufferViewUsages.t) r' => r' = r)
                (fun primitive => In primitive (Mesh.primitives mesh))
                (Mesh.primitives mesh) markPrimitive u r)
      as (u2 & r2 & H2 & ->); [reflexivity | | | eauto].
    + apply Forall_forall. intros primitive Hp. apply list_elem_of_In, Hp.
    + intros u' r1 primitive -> Hp.
      destruct (markPrimitive_returns u' primitive r (H primitive Hp)) as [u3 H3]. eauto.
Qed.

Lemma markSkin_returns usages r :
  match GlTf.skins (gltfOf r) with
  | Some skins =>
      match skins !! 0%nat with
      | Some skin =>
          match Skin.inverseBindMatrices skin with
          | Some accessor => defined (GlTf.accessors (gltfOf r) !! accessor)
          | None => false
          end
      | None => false
      end
  | None => true
  end = true ->
  exists usages' r',
    markSkin usages r = Ok usages' r' /\
    GltfRenderer.gltf_group r' = GltfRenderer.gltf_group r.
Proof.
  unfold markSkin, hasSkins. rewrite bind_this.
  destruct (GlTf.skins (gltfOf r)) as [skins|] eqn:Hskins; [|eauto].
  destruct (skins !! 0%nat) as [skin|] eqn:Hskin; [|discriminate].
  destruct (Skin.inverseBindMatrices skin) as [index|] eqn:Hibm; [|discriminate].
  intros H. apply defined_Some in H as [accessor Hacc].
  rewrite (bind_eq_Ok _ _ _ _ _ (skins0_eq r skins skin Hskins Hskin)).
  rewrite Hibm.
  erewrite (bind_eq_Ok (accessorAt _)); [|apply accessorAt_eq; exact Hacc].
  eauto.
Qed.

Lemma createBufferForView_returns usages (i : GlTfId) r handles :
  GltfRenderer.gpuBuffers r = Some handles ->
  (i < length (GlTf.bufferViews (gltfOf r)))%nat ->
  defined (GLTFGroup.bufferData0 (GltfRenderer.gltf_group r)) = true ->
  forallb viewInRange (GlTf.bufferViews (gltfOf r)) = true ->
  exists r', createBufferForView usages i r = Ok tt r' /\
             is_Some (GltfRenderer.gpuBuffers r') /\
             GltfRenderer.gltf_group r' = GltfRenderer.gltf_group r.
Proof.
  intros Hhandles Hi Hpayload Hviews. unfold createBufferForView.
  destruct (BufferViewUsages.has i usages).
  - rewrite bind_this. cbv beta.
    destruct (GlTf.bufferViews (gltfOf r) !! i) as [bufferView|] eqn:Hview.
    2:{ apply lookup_ge_None in Hview. lia. }
    cbv beta iota zeta.
    rewrite bind_createBuffer. cbv beta.
    apply defined_Some in Hpayload as [payload Hpayload].
    unfold awaitBufferData. rewrite bind_assoc, bind_this. cbn.
    rewrite Hpayload. rewrite bind_ret.
    unfold setMapped.
    rewrite forallb_forall in Hviews.
    assert (Hin : In bufferView (GlTf.bufferViews (gltfOf r)))
      by (apply list_elem_of_In, list_elem_of_lookup; eauto).
    pose proof (viewBytes_fit payload bufferView (Hviews _ Hin)) as Hfit.
    unfold viewBytes in Hfit. rewrite Hfit.
    rewrite bind_onDevice. unfold pushGpuBuffer. rewrite bind_this. cbn.
    rewrite Hhandles. unfold assign. eexists. split; [reflexivity|]. cbn. eauto.
  - rewrite bind_createBuffer. cbv beta. unfold pushGpuBuffer. rewrite bind_this. cbn.
    rewrite Hhandles. unfold assign. eexists. split; [reflexivity|]. cbn. eauto.
Qed.

Lemma loadGPUBuffers_returns r :
  assetLoadable (GltfRenderer.gltf_group r) = true ->
  exists r', loadGPUBuffers r = Ok tt r'.
Proof.
  unfold assetLoadable. cbv zeta. fold (gltfOf r). intros H.
  apply andb_prop in H as [H Hviews]. apply andb_prop in H as [H Hpayload].
  apply andb_prop in H as [Hmeshes Hskin].
  unfold loadGPUBuffers.
  destruct (markMeshes_returns BufferViewUsages.empty r Hmeshes) as [u1 H1].
  rewrite (bind_eq_Ok _ _ _ _ _ H1).
  destruct (markSkin_returns u1 r Hskin) as (u2 & r2 & H2 & Hgroup).
  rewrite (bind_eq_Ok _ _ _ _ _ H2). rewrite bind_assign, bind_this.
  unfold forEach.
  lazymatch goal with
  | |- context [forOf ?xs ?body tt ?r0] =>
      destruct (forOf_returns
                  (fun (_ : unit) r' =>
                     is_Some (GltfRenderer.gpuBuffers r') /\
                     GltfRenderer.gltf_group r' = GltfRenderer.gltf_group r)
                  (fun i => (i < length (GlTf.bufferViews (gltfOf r)))%nat)
                  xs body tt r0)
        as ([] & r' & H3 & _)
  end.
  - cbn. split; [eauto | exact Hgroup].
  - unfold gltfOf. cbn. rewrite Hgroup. apply Forall_forall. intros i Hi.
    apply elem_of_seq in Hi. lia.
  - intros [] r0 i [[handles Hhandles] Hg] Hi.
    destruct (createBufferForView_returns u2 i r0 handles Hhandles)
      as (r' & Hr' & Hsome & Hg').
    + unfold gltfOf. rewrite Hg. exact Hi.
    + rewrite Hg. exact Hpayload.
    + unfold gltfOf. rewrite Hg. exact Hviews.
    + exists tt, r'. split; [exact Hr' | split; [exact Hsome | congruence]].
  - eauto.
Qed.

(** C4.  Whenever [loadGPUBuffers] returns, [gpuBuffers] holds exactly
    one handle per buffer view, in the order of the buffer views; the
    buffer at index [i] is a data buffer for buffer view [i] (its label,
    its byte length rounded up to a multiple of 4, mapped at creation, one
    of the three usages, the view's bytes of the payload copied in) when a
    primitive attribute, primitive indices or the first skin's inverse
    bind matrices refer to that view, and the 4-byte placeholder
    otherwise.  And [loadGPUBuffers] does return when the referenced
    accessors exist, the payload arrives and the views are in range. *)
Theorem loadGPUBuffers_dense (r : GltfRenderer.t) :
  (forall r', loadGPUBuffers r = Ok tt r' ->
     exists handles,
       GltfRenderer.gpuBuffers r' = Some handles /\
       length handles = length (GlTf.bufferViews (gltfOf r)) /\
       forall i bufferView,
         GlTf.bufferViews (gltfOf r) !! i = Some bufferView ->
         exists buffer descriptor,
           handles !! i = Some buffer /\
           GPUDevice.buffers (GltfRenderer.device r') !! buffer = Some descriptor /\
           if referenced (gltfOf r) i
           then dataBufferFor (GltfRenderer.gltf_group r) bufferView buffer descriptor
                  (GltfRenderer.device r')
           else descriptor = placeholder) /\
  (assetLoadable (GltfRenderer.gltf_group r) = true ->
   exists r', loadGPUBuffers r = Ok tt r').
Proof.
  split; [intros r'; apply loadGPUBuffers_Ok | apply loadGPUBuffers_returns].
Qed.

Lemma loadGPUBuffers_dense_witness :
  exists r' handles vertices unused,
    loadGPUBuffers (Scenario.fresh Scenario.twoTrianglesGroup) = Ok tt r' /\
    GltfRenderer.gpuBuffers r' = Some handles /\
    length handles = 3%nat /\
    handles !! 0%nat = Some vertices /\
    handles !! 2%nat = Some unused /\
    (exists descriptor,
       GPUDevice.buffers (GltfRenderer.device r') !! vertices = Some descriptor /\
       GPUBufferDescriptor.size descriptor = 36%Z) /\
    GPUDevice.buffers (GltfRenderer.device r') !! unused = Some placeholder.
Proof.
  destruct (loadGPUBuffers_dense (Scenario.fresh Scenario.twoTrianglesGroup))
    as [Hdense Hreturns].
  destruct (Hreturns eq_refl) as [r' Hr'].
  destruct (Hdense r' Hr') as (handles & Hhandles & Hlen & Hall).
  destruct (Hall 0%nat _ eq_refl) as (vertices & d0 & Hv & Hd0 & Hdata).
  destruct (Hall 2%nat _ eq_refl) as (unused & d2 & Hu & Hd2 & Hplaceholder).
  change (referenced _ 0) with true in Hdata.
  change (referenced _ 2) with false in Hplaceholder.
  cbv iota in Hdata, Hplaceholder.
  destruct Hdata as (_ & Hsize & _).
  exists r', handles, vertices, unused.
  split; [exact Hr'|]. split; [exact Hhandles|]. split; [exact Hlen|].
  split; [exact Hv|]. split; [exact Hu|].
  split; [exists d0; split; [exact Hd0 | exact Hsize] | rewrite <- Hplaceholder; exact Hd2].
Defined.

(** ** Frames *)

Lemma recorded_nil r : recorded [] r = r.
Proof.
  destruct r as [? device ? ? ? ? ? ? ? ? ? ? ? ? ? ? ? ? ? ? ?]. destruct device.
  unfold recorded, GltfRenderer.set_device, DeviceUpdate.on_commands. cbn.
  rewrite app_nil_r. reflexivity.
Qed.

Lemma recorded_app c1 c2 r : recorded c2 (recorded c1 r) = recorded (c1 ++ c2) r.
Proof.
  unfold recorded, GltfRenderer.set_device, DeviceUpdate.on_commands. cbn.
  rewrite app_assoc. reflexivity.
Qed.

Lemma encode_eq c r : encode c r = Ok tt (recorded [c] r).
Proof. reflexivity. Qed.

(** A loop whose body records commands, or throws, does the same. *)
Lemma forEach_recorded {A B} (body : A -> M unit) (spec : GltfRenderer.t -> A -> option B)
    (commands : GltfRenderer.t -> B -> list EncoderCommand) (xs : list A) :
  (forall r c x, spec (recorded c r) x = spec r x) ->
  (forall r c b, commands (recorded c r) b = commands r b) ->
  (forall r x r', body x r = Ok tt r' <->
                  exists b, spec r x = Some b /\ r' = recorded (commands r b) r) ->
  forall r r',
    forEach xs body r = Ok tt r' <->
    exists bs, mapM (spec r) xs = Some bs /\ r' = recorded (flat_map (commands r) bs) r.
Proof.
  intros Hstable Hcommands Hbody. unfold forEach.
  induction xs as [|x rest IH]; intros r r'; cbn.
  - split.
    + intros [= <-]. exists []. split; [reflexivity | symmetry; apply recorded_nil].
    + intros (bs & [= <-] & ->). rewrite recorded_nil. reflexivity.
  - split.
    + intros H. apply bind_Ok_inv in H as ([] & r1 & H1 & H).
      apply Hbody in H1 as (b & Hb & ->). apply IH in H as (bs & Hbs & ->).
      exists (b :: bs). rewrite Hb. cbn.
      rewrite (mapM_ext _ (spec r)) in Hbs by (intros; apply Hstable).
      rewrite Hbs. cbn. split; [reflexivity|].
      rewrite recorded_app. f_equal. f_equal.
      apply flat_map_ext. intros b'. apply Hcommands.
    + intros (bs & Hbs & ->).
      destruct (spec r x) as [b|] eqn:Hb; [|discriminate]. cbn in Hbs.
      destruct (mapM (spec r) rest) as [bs'|] eqn:Hrest; [|discriminate].
      injection Hbs as <-. cbn.
      rewrite (bind_eq_Ok _ _ _ tt (recorded (commands r b) r)).
      * apply IH. exists bs'. split.
        -- rewrite (mapM_ext _ (spec r)) by (intros; apply Hstable). exact Hrest.
        -- rewrite recorded_app. f_equal. f_equal.
           apply flat_map_ext. intros b'. symmetry. apply Hcommands.
      * apply Hbody. eauto.
Qed.

Lemma mapM_Some_id {A} (xs : list A) : mapM (M := option) Some xs = Some xs.
Proof. induction xs as [|x rest IH]; cbn; [reflexivity | rewrite IH; reflexivity]. Qed.

Lemma flat_map_imap_shifted {A B} (f : nat -> A -> B) (g : nat -> nat) (l : list A) :
  flat_map (fun entry : nat * A => [f (fst entry) (snd entry)])
    (imap (fun i x => (g i, x)) l)
  = imap (fun i x => f (g i) x) l.
Proof.
  revert g. induction l as [|x rest IH]; intros g; cbn; [reflexivity|].
  f_equal. apply (IH (g ∘ S)).
Qed.

Lemma flat_map_imap_pair {A B} (f : nat -> A -> B) (l : list A) :
  flat_map (fun entry : nat * A => [f (fst entry) (snd entry)]) (imap pair l) = imap f l.
Proof. apply (flat_map_imap_shifted f id). Qed.

Lemma vertexBuffers_eq (buffers : list GPUPrimitiveBufferInfo.t) r :
  forEach (imap pair buffers)
    (fun '(i, bufferInfo) =>
       encode (SetVertexBuffer i (GPUPrimitiveBufferInfo.buffer bufferInfo)
                 (GPUPrimitiveBufferInfo.offset bufferInfo))) r
  = Ok tt (recorded (vertexBufferCommands buffers) r).
Proof.
  apply (forEach_recorded _ (fun _ entry => Some entry)
           (fun _ (entry : nat * GPUPrimitiveBufferInfo.t) =>
              [SetVertexBuffer (fst entry) (GPUPrimitiveBufferInfo.buffer (snd entry))
                 (GPUPrimitiveBufferInfo.offset (snd entry))])).
  - reflexivity.
  - reflexivity.
  - intros r0 [i bufferInfo] r'. rewrite encode_eq. split.
    + intros [= <-]. eauto.
    + intros (b & [= <-] & ->). reflexivity.
  - exists (imap pair buffers). split; [apply mapM_Some_id|].
    unfold vertexBufferCommands. rewrite <- flat_map_imap_pair. reflexivity.
Qed.

Lemma bind_encode_recorded {B} c (k : unit -> M B) r :
  bind (encode c) k r = k tt (recorded [c] r).
Proof. reflexivity. Qed.

Lemma drawPrimitive_spec meshIndex (entry : nat * MeshPrimitive.t) r r' :
  drawPrimitive meshIndex entry r = Ok tt r' <->
  exists gpuPrimitive,
    GltfRenderer.primitiveGpuData r !! (meshIndex, fst entry) = Some gpuPrimitive /\
    r' = recorded (primitiveCommands (instanceCountOf r) gpuPrimitive) r.
Proof.
  destruct entry as [index primitive]. unfold drawPrimitive. rewrite bind_this. cbn [fst].
  destruct (GltfRenderer.primitiveGpuData r !! (meshIndex, index)) as [gp|].
  - rewrite bind_encode_recorded. cbv beta.
    rewrite (bind_eq_Ok _ _ _ _ _ (vertexBuffers_eq _ _)).
    assert (Hrun :
      match GPUPrimitiveInfo.indexBuffer gp with
      | Some indexBuffer =>
          encode (SetIndexBuffer indexBuffer (GPUPrimitiveInfo.indexType gp)
                    (GPUPrimitiveInfo.indexOffset gp)) ;;;
          encode (DrawIndexed (GPUPrimitiveInfo.drawCount gp)
                    (GLTFGroup.instanceCount (GltfRenderer.gltf_group r)) 0 0 0)
      | None =>
          encode (Draw (GPUPrimitiveInfo.drawCount gp)
                    (GLTFGroup.instanceCount (GltfRenderer.gltf_group r)) 0 0)
      end (recorded (vertexBufferCommands (GPUPrimitiveInfo.buffers gp))
             (recorded [SetPipeline (GPUPrimitiveInfo.pipeline gp)] r))
      = Ok tt (recorded (primitiveCommands (instanceCountOf r) gp) r)).
    { unfold primitiveCommands, drawOf, instanceCountOf.
      destruct (GPUPrimitiveInfo.indexBuffer gp) as [indexBuffer|].
      - rewrite bind_encode_recorded, encode_eq, !recorded_app. reflexivity.
      - rewrite encode_eq, !recorded_app. reflexivity. }
    cbn [GltfRenderer.gltf_group recorded GltfRenderer.set_device] in Hrun |- *.
    rewrite Hrun. split.
    + intros [= <-]. eauto.
    + intros (gp' & [= <-] & ->). reflexivity.
  - split; [discriminate | intros (gp & [=] & _)].
Qed.

Lemma drawNode_spec (entry : nat * GPUBindGroup) r r' :
  drawNode entry r = Ok tt r' <->
  exists gpuPrimitives,
    nodePrimitives r (fst entry) = Some gpuPrimitives /\
    r' = recorded (nodeCommands (instanceCountOf r) (snd entry, gpuPrimitives)) r.
Proof.
  destruct entry as [node bindGroup]. unfold drawNode, nodePrimitives, nodeCommands.
  rewrite bind_encode_recorded, bind_this. cbn [fst snd].
  change (gltfOf (recorded [SetBindGroup 2 (Some bindGroup)] r)) with (gltfOf r).
  destruct (GlTf.nodes (gltfOf r) !! node ≫= Node.mesh) as [meshIndex|]; cbn;
    [|unfold throw; split; [discriminate | intros (? & [=] & _)]].
  destruct (GlTf.meshes (gltfOf r) !! meshIndex) as [mesh|]; cbn;
    [|unfold throw; split; [discriminate | intros (? & [=] & _)]].
  rewrite (forEach_recorded (drawPrimitive meshIndex)
             (fun r (entry : nat * MeshPrimitive.t) =>
                GltfRenderer.primitiveGpuData r !! (meshIndex, fst entry))
             (fun r => primitiveCommands (instanceCountOf r))).
  - split.
    + intros (gps & Hgps & ->). exists gps. split; [exact Hgps|].
      rewrite recorded_app. reflexivity.
    + intros (gps & Hgps & ->). exists gps. split; [exact Hgps|].
      rewrite recorded_app. reflexivity.
  - reflexivity.
  - reflexivity.
  - intros r0 entry r0'. apply drawPrimitive_spec.
Qed.

Lemma renderGLTF_spec r r' :
  renderGLTF r = Ok tt r' <->
  exists drawn, framePrimitives r = Some drawn /\ r' = recorded (frameCommands r drawn) r.
Proof.
  unfold renderGLTF, framePrimitives, frameCommands.
  rewrite bind_this, !bind_encode_recorded. cbv beta.
  split.
  - intros H. apply bind_Ok_inv in H as ([] & r1 & H1 & H).
    apply (forEach_recorded drawNode
             (fun r (entry : nat * GPUBindGroup) =>
                pair (snd entry) <$> nodePrimitives r (fst entry))
             (fun r => nodeCommands (instanceCountOf r))) in H1.
    + destruct H1 as (drawn & Hdrawn & ->). exists drawn. split; [exact Hdrawn|].
      destruct (GltfRenderer.canvas r) as [width height] eqn:Hcanvas.
      rewrite !bind_encode_recorded, encode_eq in H. injection H as <-.
      rewrite !recorded_app. cbn. rewrite <- ?app_assoc. reflexivity.
    + reflexivity.
    + reflexivity.
    + intros r0 entry r0'. rewrite drawNode_spec. split.
      * intros (gps & -> & ->). eauto.
      * intros (b & Hb & ->).
        destruct (nodePrimitives r0 (fst entry)) as [gps|]; [|discriminate].
        injection Hb as <-. eauto.
  - intros (drawn & Hdrawn & ->).
    erewrite (bind_eq_Ok (forEach _ drawNode)).
    2:{ apply (forEach_recorded drawNode
                 (fun r (entry : nat * GPUBindGroup) =>
                    pair (snd entry) <$> nodePrimitives r (fst entry))
                 (fun r => nodeCommands (instanceCountOf r))).
        - reflexivity.
        - reflexivity.
        - intros r0 entry r0'. rewrite drawNode_spec. split.
          + intros (gps & -> & ->). eauto.
          + intros (b & Hb & ->).
            destruct (nodePrimitives r0 (fst entry)) as [gps|]; [|discriminate].
            injection Hb as <-. eauto.
        - exists drawn. split; [exact Hdrawn | reflexivity]. }
    destruct (GltfRenderer.canvas r) as [width height] eqn:Hcanvas.
    rewrite !bind_encode_recorded, encode_eq.
    rewrite !recorded_app. cbn. rewrite <- ?app_assoc. reflexivity.
Qed.

Lemma filter_isDraw_vertexBuffers buffers :
  List.filter isDraw (vertexBufferCommands buffers) = [].
Proof.
  unfold vertexBufferCommands. generalize 0%nat as start. 
  assert (H : forall (f : nat -> GPUPrimitiveBufferInfo.t -> EncoderCommand),
            (forall i b, isDraw (f i b) = false) ->
            List.filter isDraw (imap f buffers) = []).
  { induction buffers as [|b rest IH]; intros f Hf; cbn; [reflexivity|].
    rewrite Hf. apply IH. intros i b'. apply Hf. }
  intros _. apply H. reflexivity.
Qed.

Lemma filter_isDraw_primitive instanceCount gpuPrimitive :
  List.filter isDraw (primitiveCommands instanceCount gpuPrimitive)
  = [drawOf instanceCount gpuPrimitive].
Proof.
  unfold primitiveCommands. cbn. rewrite !List.filter_app, filter_isDraw_vertexBuffers.
  unfold drawOf. destruct (GPUPrimitiveInfo.indexBuffer gpuPrimitive); reflexivity.
Qed.

Lemma filter_isDraw_node instanceCount (entry : GPUBindGroup * list GPUPrimitiveInfo.t) :
  List.filter isDraw (nodeCommands instanceCount entry) = drawOf instanceCount <$> snd entry.
Proof.
  unfold nodeCommands. cbn [List.filter isDraw].
  induction (snd entry) as [|gp more IH]; cbn [flat_map fmap list_fmap]; [reflexivity|].
  rewrite List.filter_app, filter_isDraw_primitive, IH. reflexivity.
Qed.

Lemma filter_isDraw_frame r drawn :
  List.filter isDraw (frameCommands r drawn) = frameDraws (instanceCountOf r) drawn.
Proof.
  unfold frameCommands, frameDraws. rewrite !List.filter_app.
  cbn [List.filter isDraw app]. rewrite app_nil_r.
  induction drawn as [|entry rest IH]; cbn [flat_map]; [reflexivity|].
  rewrite List.filter_app, IH, filter_isDraw_node. reflexivity.
Qed.

(** ** Mesh-bearing nodes *)

(** [Map.set] with a key the map does not hold appends the entry. *)
Lemma mapSet_fresh {V} (key : nat) (value : V) (m : list (nat * V)) :
  Forall (fun k => k <> key) (fst <$> m) ->
  mapSet key value m = m ++ [(key, value)].
Proof.
  induction m as [|[k v] rest IH]; cbn; intros H; [reflexivity|].
  apply Forall_cons in H as [Hk Hrest].
  destruct (Nat.eqb_spec k key); [contradiction|].
  rewrite IH by exact Hrest. reflexivity.
Qed.

(** [setupMeshNodeBindGroup] returns and adds [node] to [nodeGpuData]. *)
Lemma setupMeshNodeBindGroup_keys node r :
  Forall (fun k => k <> node) (fst <$> GltfRenderer.nodeGpuData r) ->
  exists r',
    setupMeshNodeBindGroup node r = Ok tt r' /\
    fst <$> GltfRenderer.nodeGpuData r' = (fst <$> GltfRenderer.nodeGpuData r) ++ [node].
Proof.
  intros Hfresh. unfold setupMeshNodeBindGroup. run. unfold assign.
  eexists. split; [reflexivity|]. cbn.
  rewrite mapSet_fresh by exact Hfresh. rewrite fmap_app. reflexivity.
Qed.

(** The loop of [initNodeBindGroup] adds the mesh-bearing nodes, in order. *)
Lemma nodeLoop_keys (nodes : list Node.t) : forall start r,
  Forall (fun k => k < start)%nat (fst <$> GltfRenderer.nodeGpuData r) ->
  exists r',
    forEach (imap (fun i node => (start + i, node)%nat) nodes)
      (fun '(index, node) =>
         match Node.mesh node with
         | Some _ => setupMeshNodeBindGroup index
         | None => ret tt
         end) r = Ok tt r' /\
    fst <$> GltfRenderer.nodeGpuData r'
    = (fst <$> GltfRenderer.nodeGpuData r) ++ meshNodesFrom start nodes.
Proof.
  induction nodes as [|node rest IH]; intros start r Hkeys.
  - exists r. split; [reflexivity | cbn; rewrite app_nil_r; reflexivity].
  - unfold forEach in *. cbn [imap forOf meshNodesFrom].
    rewrite Nat.add_0_r.
    assert (Hshift : imap ((fun i node0 => (start + i, node0)%nat) ∘ S) rest
                     = imap (fun i node0 => (S start + i, node0)%nat) rest).
    { apply imap_ext. intros i x _. cbn. f_equal. lia. }
    rewrite Hshift.
    destruct (Node.mesh node) as [mesh|].
    + destruct (setupMeshNodeBindGroup_keys start r) as (r1 & H1 & Hkeys1).
      { eapply Forall_impl; [exact Hkeys|]. cbn. lia. }
      rewrite (bind_eq_Ok _ _ _ _ _ H1).
      destruct (IH (S start) r1) as (r' & Hr' & Hkeys').
      { rewrite Hkeys1. apply Forall_app. split.
        - eapply Forall_impl; [exact Hkeys|]. cbn. lia.
        - repeat constructor. }
      exists r'. split; [exact Hr'|]. rewrite Hkeys', Hkeys1, <- app_assoc. reflexivity.
    + rewrite bind_ret.
      destruct (IH (S start) r) as (r' & Hr' & Hkeys').
      { eapply Forall_impl; [exact Hkeys|]. cbn. lia. }
      exists r'. split; [exact Hr' | exact Hkeys'].
Qed.

(** From an empty [nodeGpuData], [initNodeBindGroup] returns and leaves
    the mesh-bearing nodes of the asset as its keys. *)
Lemma initNodeBindGroup_keys r :
  GltfRenderer.nodeGpuData r = [] ->
  exists r',
    initNodeBindGroup r = Ok tt r' /\
    fst <$> GltfRenderer.nodeGpuData r' = meshNodes (gltfOf r).
Proof.
  intros Hempty. unfold initNodeBindGroup. run.
  lazymatch goal with
  | |- context [forEach _ _ ?r1] =>
      destruct (nodeLoop_keys (GlTf.nodes (gltfOf r)) 0 r1) as (r' & Hr' & Hkeys)
  end.
  - cbn. rewrite Hempty. constructor.
  - exists r'. split; [exact Hr'|]. rewrite Hkeys. cbn. rewrite Hempty. reflexivity.
Qed.

Ltac nodesAre_leaf :=
  let H1 := fresh in let H2 := fresh in
  intros ? [H1 H2]; split; [exact H1 | exact H2].

(** After initialization the nodes [renderGLTF] iterates over are the
    mesh-bearing nodes of the asset, in order. *)
Lemma initializeWebGPUAndGLTF_nodes r0 r :
  GltfRenderer.nodeGpuData r0 = [] ->
  initializeWebGPUAndGLTF r0 = Ok tt r ->
  GltfRenderer.gltf_group r = GltfRenderer.gltf_group r0 /\
  fst <$> GltfRenderer.nodeGpuData r = meshNodes (gltfOf r0).
Proof.
  intros Hempty H. unfold initializeWebGPUAndGLTF in H.
  assert (H0 : nodesAre (GltfRenderer.gltf_group r0) [] r0) by (split; auto).
  bind_inv H u1 r1 H1.
  apply (keeps_Ok (nodesAre (GltfRenderer.gltf_group r0) [])) in H1;
    [ | repeat keeps_step; nodesAre_leaf | exact H0 ].
  bind_inv H u2 r2 H2.
  apply (keeps_Ok (nodesAre (GltfRenderer.gltf_group r0) [])) in H2;
    [ | repeat keeps_step; nodesAre_leaf | exact H1 ].
  bind_inv H u3 r3 H3.
  apply (keeps_Ok (nodesAre (GltfRenderer.gltf_group r0) [])) in H3;
    [ | repeat keeps_step; nodesAre_leaf | exact H2 ].
  destruct H3 as [Hgroup3 Hnodes3].
  bind_inv H u4 r4 H4.
  destruct (initNodeBindGroup_keys r3 Hnodes3) as (r4' & H4' & Hkeys).
  rewrite H4' in H4. injection H4 as _ <-.
  assert (Hgroup4 : GltfRenderer.gltf_group r4' = GltfRenderer.gltf_group r0).
  { apply (keeps_Ok (sameGroup (GltfRenderer.gltf_group r0))) in H4';
      [ exact H4' | repeat keeps_step; sameGroup_leaf | exact Hgroup3 ]. }
  apply (keeps_Ok (nodesAre (GltfRenderer.gltf_group r0) (GltfRenderer.nodeGpuData r4'))) in H;
    [ | repeat keeps_step; nodesAre_leaf | split; [exact Hgroup4 | reflexivity] ].
  destruct H as [Hgroup Hnodes]. split; [exact Hgroup|].
  rewrite Hnodes, Hkeys. unfold gltfOf. rewrite Hgroup3. reflexivity.
Qed.

(** C9.  Whenever [renderGLTF] returns, the draws among the commands it
    recorded are, for every node of [nodeGpuData] in order and every
    primitive of the node's mesh in order, exactly one draw: an indexed
    draw when the primitive's stored GPU state has an index buffer, a
    non-indexed draw otherwise, each with the stored draw count and the
    group's instance count.  And [renderGLTF] does return when every such
    node has its mesh and every such primitive its stored GPU state. *)
Theorem renderGLTF_draws (r : GltfRenderer.t) :
  (forall r', renderGLTF r = Ok tt r' ->
     exists drawn frame,
       framePrimitives r = Some drawn /\
       GPUDevice.commands (GltfRenderer.device r')
       = GPUDevice.commands (GltfRenderer.device r) ++ frame /\
       List.filter isDraw frame = frameDraws (instanceCountOf r) drawn) /\
  (defined (framePrimitives r) = true -> exists r', renderGLTF r = Ok tt r').
Proof.
  split.
  - intros r' H. apply renderGLTF_spec in H as (drawn & Hdrawn & ->).
    exists drawn, (frameCommands r drawn). split; [exact Hdrawn|].
    split; [reflexivity | apply filter_isDraw_frame].
  - intros H. apply defined_Some in H as [drawn Hdrawn].
    exists (recorded (frameCommands r drawn) r). apply renderGLTF_spec. eauto.
Qed.

Example drawOf_indexed :
  drawOf 2 (GPUPrimitiveInfo.mk 0 [] 3 (Some 1%nat) (Some 0%Z) (Some "uint16"))
  = DrawIndexed 3 2 0 0 0.
Proof. reflexivity. Qed.

Lemma renderGLTF_draws_witness :
  exists r' frame,
    renderGLTF (stateOf (init GPUDevice.empty (800, 600)%Z Scenario.twoTrianglesGroup true))
    = Ok tt r' /\
    GPUDevice.commands (GltfRenderer.device r') = frame /\
    List.filter isDraw frame = [DrawIndexed 3 2 0 0 0; Draw 3 2 0 0].
Proof.
  destruct (renderGLTF_draws
              (stateOf (init GPUDevice.empty (800, 600)%Z Scenario.twoTrianglesGroup true)))
    as [Hdraws Hreturns].
  destruct (Hreturns eq_refl) as [r' Hr'].
  destruct (Hdraws r' Hr') as (drawn & frame & Hdrawn & Hframe & Hfilter).
  exists r', frame. split; [exact Hr'|]. split; [exact Hframe|].
  rewrite Hfilter. vm_compute in Hdrawn. injection Hdrawn as <-. reflexivity.
Defined.

(** ** What a frame records *)

Lemma drawing_refl r : drawing r r.
Proof. exists []. rewrite recorded_nil. split; reflexivity. Qed.

Lemma drawing_encode r0 r c :
  passCommand c = false -> drawing r0 r -> drawing r0 (recorded [c] r).
Proof.
  intros Hc (body & -> & Hbody). exists (body ++ [c]).
  rewrite recorded_app. split; [reflexivity|].
  rewrite forallb_app, Hbody. cbn. rewrite Hc. reflexivity.
Qed.

Ltac drawing_leaf :=
  let H := fresh in
  intros ? H; eapply drawing_encode; [reflexivity | exact H].

Lemma drawNode_drawing r0 entry : keeps (drawing r0) (drawNode entry).
Proof. repeat keeps_step; drawing_leaf. Qed.

Lemma drawNodes_drawing r0 nodes : keeps (drawing r0) (forEach nodes drawNode).
Proof. apply keeps_forEach. intros entry. apply drawNode_drawing. Qed.


Section Raises.
Context (P : JsError -> Prop).

Lemma raises_ret {A} (a : A) : raises P (ret a).
Proof. intros r e r' H; discriminate H. Qed.

Lemma raises_throw {A} (e : JsError) : P e -> raises P (@throw A e).
Proof. intros He r e' r' H. injection H as <- _. exact He. Qed.

Lemma raises_this : raises P this.
Proof. intros r e r' H; discriminate H. Qed.

Lemma raises_assign f : raises P (assign f).
Proof. intros r e r' H; discriminate H. Qed.

Lemma raises_onDevice f : raises P (onDevice f).
Proof. intros r e r' H; discriminate H. Qed.

Lemma raises_bind {A B} (m : M A) (k : A -> M B) :
  raises P m -> (forall a, raises P (k a)) -> raises P (bind m k).
Proof.
  intros Hm Hk r e r' H. unfold bind in H.
  destruct (m r) as [a r1|e1 r1] eqn:Hmr.
  - exact (Hk a r1 e r' H).
  - injection H as <- _. exact (Hm r e1 r1 Hmr).
Qed.

Lemma raises_forOf {A L} (xs : list A) (body : L -> A -> M L) (acc : L) :
  (forall acc x, raises P (body acc x)) -> raises P (forOf xs body acc).
Proof.
  intros Hbody. revert acc.
  induction xs as [|x rest IH]; intros acc; simpl.
  - apply raises_ret.
  - apply raises_bind; [apply Hbody | intros acc'; apply IH].
Qed.

Lemma raises_forEach {A} (xs : list A) (body : A -> M unit) :
  (forall x, raises P (body x)) -> raises P (forEach xs body).
Proof. intros Hbody. apply raises_forOf. intros _ x. apply Hbody. Qed.

End Raises.

(** One structural step through renderer code; what is left are the
    [throw]s. *)
Ltac raises_step :=
  lazymatch goal with
  | |- raises _ (ret _) => apply raises_ret
  | |- raises _ (throw _) => apply raises_throw
  | |- raises _ this => apply raises_this
  | |- raises _ (bind _ _) => apply raises_bind; [|intros ?]
  | |- raises _ (forOf _ _ _) => apply raises_forOf; intros ? ?
  | |- raises _ (forEach _ _) => apply raises_forEach; intros ?
  | |- raises _ (assign _) => apply raises_assign
  | |- raises _ (onDevice _) => apply raises_onDevice
  | |- raises _ (match ?x with _ => _ end) => destruct x
  | |- raises _ ?m => let h := head_of m in progress unfold h
  end.

Lemma drawNode_raises entry : raises isTypeError (drawNode entry).
Proof. repeat raises_step; eexists; reflexivity. Qed.

Lemma bind_eq_Throw {A B} (m : M A) (k : A -> M B) r e r1 :
  m r = Throw e r1 -> bind m k r = Throw e r1.
Proof. intros H. unfold bind. rewrite H. reflexivity. Qed.

Lemma renderGLTF_cases r :
  exists body,
    forallb (fun c => negb (passCommand c)) body = true /\
    (renderGLTF r = Ok tt (recorded (frameHeader r ++ body ++ frameFooter r) r) \/
     exists what, renderGLTF r = Throw (TypeError what) (recorded (frameHeader r ++ body) r)).
Proof.
  unfold renderGLTF. rewrite bind_this. rewrite !bind_encode_recorded.
  rewrite !recorded_app. cbn [app]. fold (frameHeader r).
  pose proof (drawNodes_drawing (recorded (frameHeader r) r)
                (GltfRenderer.nodeGpuData r) _ (drawing_refl _)) as (body & Hbody & Hpass).
  pose proof (raises_forEach isTypeError (GltfRenderer.nodeGpuData r) drawNode
                drawNode_raises (recorded (frameHeader r) r)) as Hraises.
  exists body. split; [exact Hpass|].
  destruct (forEach _ _ _) as [[] r1|e r1] eqn:Hloop; cbn in Hbody; subst r1.
  - left. rewrite (bind_eq_Ok _ _ _ _ _ Hloop). unfold frameFooter. destruct (GltfRenderer.canvas r) as [width height].
    rewrite !bind_encode_recorded, encode_eq. rewrite !recorded_app.
    cbn [fst snd]. reflexivity.
  - right. destruct (Hraises e _ eq_refl) as [what ->]. exists what.
    rewrite (bind_eq_Throw _ _ _ _ _ Hloop), recorded_app. reflexivity.
Qed.

(** A frame that throws has thrown a [TypeError] while drawing: the pass
    it began is never ended, nothing is submitted and no further frame is
    requested. *)
Theorem renderGLTF_throw_leaves_pass_open (r : GltfRenderer.t) (e : JsError)
    (r' : GltfRenderer.t) :
  renderGLTF r = Throw e r' ->
  isTypeError e /\
  exists body,
    r' = recorded (frameHeader r ++ body) r /\
    forallb (fun c => negb (passCommand c)) body = true.
Proof.
  intros H. destruct (renderGLTF_cases r) as (body & Hpass & [Hok | [what Hthrow]]).
  - rewrite Hok in H. discriminate H.
  - rewrite Hthrow in H. injection H as <- <-.
    split; [exists what; reflexivity|]. exists body. split; [reflexivity | exact Hpass].
Qed.

(** A frame that returns has recorded its header, then only bindings and
    draws, then viewport, scissor, the end of the pass, its submission and
    the request for the next frame. *)
Theorem renderGLTF_brackets (r r' : GltfRenderer.t) :
  renderGLTF r = Ok tt r' ->
  exists body,
    GPUDevice.commands (GltfRenderer.device r')
    = GPUDevice.commands (GltfRenderer.device r) ++ frameHeader r ++ body ++ frameFooter r /\
    forallb (fun c => negb (passCommand c)) body = true.
Proof.
  intros H. destruct (renderGLTF_cases r) as (body & Hpass & [Hok | [what Hthrow]]).
  - rewrite Hok in H. injection H as <-. exists body. split; [reflexivity | exact Hpass].
  - rewrite Hthrow in H. discriminate H.
Qed.

Lemma renderGLTF_throw_leaves_pass_open_witness :
  exists body,
    stateOf (renderGLTF (stateOf (initNodeBindGroup (Scenario.fresh Scenario.twoTrianglesGroup))))
    = recorded
        (frameHeader (stateOf (initNodeBindGroup (Scenario.fresh Scenario.twoTrianglesGroup)))
         ++ body)
        (stateOf (initNodeBindGroup (Scenario.fresh Scenario.twoTrianglesGroup))) /\
    forallb (fun c => negb (passCommand c)) body = true.
Proof.
  assert (H : renderGLTF (stateOf (initNodeBindGroup (Scenario.fresh Scenario.twoTrianglesGroup)))
              = Throw (TypeError "gpuPrimitive is undefined")
                  (stateOf (renderGLTF
                     (stateOf (initNodeBindGroup (Scenario.fresh Scenario.twoTrianglesGroup))))))
    by (vm_compute; reflexivity).
  destruct (renderGLTF_throw_leaves_pass_open _ _ _ H) as (_ & body & Hbody & Hpass).
  exists body. split; [exact Hbody | exact Hpass].
Defined.

Lemma renderGLTF_brackets_witness :
  exists body,
    GPUDevice.commands
      (GltfRenderer.device
         (stateOf (renderGLTF
            (stateOf (init GPUDevice.empty (800, 600)%Z Scenario.twoTrianglesGroup true)))))
    = [BeginRenderPass "clear"; SetBindGroup 0 (Some 0%nat); SetBindGroup 1 (Some 1%nat)]
      ++ body
      ++ [SetViewport 0 0 800 600 0 1; SetScissorRect 0 0 800 600;
          EndPass; Submit; RequestAnimationFrame] /\
    forallb (fun c => negb (passCommand c)) body = true.
Proof.
  assert (H : renderGLTF
                (stateOf (init GPUDevice.empty (800, 600)%Z Scenario.twoTrianglesGroup true))
              = Ok tt (stateOf (renderGLTF
                  (stateOf (init GPUDevice.empty (800, 600)%Z Scenario.twoTrianglesGroup true)))))
    by (vm_compute; reflexivity).
  destruct (renderGLTF_brackets _ _ H) as (body & Hbody & Hpass).
  exists body. split; [exact Hbody | exact Hpass].
Defined.

(** ** Initialization, stage by stage *)

Lemma bind_ext {A B} (m : M A) (k1 k2 : A -> M B) r :
  (forall a r, k1 a r = k2 a r) -> bind m k1 r = bind m k2 r.
Proof. intros Hk. unfold bind. destruct (m r); [apply Hk | reflexivity]. Qed.

Lemma forOf_app {A L} (xs ys : list A) (body : L -> A -> M L) acc r :
  forOf (xs ++ ys) body acc r = bind (forOf xs body acc) (forOf ys body) r.
Proof.
  revert acc r. induction xs as [|x rest IH]; intros acc r; cbn [app forOf].
  - rewrite bind_ret. reflexivity.
  - rewrite bind_assoc. apply bind_ext. intros acc' r1. apply IH.
Qed.

Lemma forEach_app {A} (xs ys : list A) (body : A -> M unit) r :
  forEach (xs ++ ys) body r = bind (forEach xs body) (fun _ => forEach ys body) r.
Proof.
  unfold forEach. rewrite forOf_app. apply bind_ext. intros [] r1. reflexivity.
Qed.

Lemma forEach_flat_map {A B} (f : A -> list B) (xs : list A) (body : B -> M unit) r :
  forEach (flat_map f xs) body r = forEach xs (fun x => forEach (f x) body) r.
Proof.
  revert r. induction xs as [|x rest IH]; intros r; [reflexivity|].
  cbn [flat_map]. rewrite forEach_app. unfold forEach at 3. cbn [forOf].
  apply bind_ext. intros [] r1. apply IH.
Qed.

Lemma forEach_ext {A} (xs : list A) (body1 body2 : A -> M unit) r :
  (forall x r, body1 x r = body2 x r) -> forEach xs body1 r = forEach xs body2 r.
Proof.
  intros Hbody. unfold forEach. revert r.
  induction xs as [|x rest IH]; intros r; [reflexivity|].
  cbn [forOf]. cbv beta. unfold bind. rewrite Hbody.
  destruct (body2 x r) as [[] r1|e r1]; [apply IH | reflexivity].
Qed.

Lemma forEach_fmap {A B} (f : A -> B) (xs : list A) (body : B -> M unit) r :
  forEach (f <$> xs) body r = forEach xs (fun x => body (f x)) r.
Proof.
  unfold forEach. revert r.
  induction xs as [|x rest IH]; intros r; [reflexivity|].
  cbn [fmap list_fmap forOf]. apply bind_ext. intros [] r1. apply IH.
Qed.

Lemma imap_pair_fmap {A B} (f : nat -> A -> B) (l : list A) :
  imap f l = (fun entry => f (fst entry) (snd entry)) <$> imap pair l.
Proof.
  rewrite fmap_imap. apply imap_ext. reflexivity.
Qed.

(** The two nested loops of [initializeWebGPUAndGLTF] as one loop. *)
Lemma setupLoop_flat (g : GlTf.t) r :
  forEach (imap pair (GlTf.meshes g))
    (fun '(meshIndex, mesh) =>
       forEach (imap pair (Mesh.primitives mesh))
         (fun '(index, primitive) => setupPrimitive (meshIndex, index) primitive)) r
  = forEach (assetPrimitives g) (fun entry => setupPrimitive (fst entry) (snd entry)) r.
Proof.
  unfold assetPrimitives. rewrite forEach_flat_map.
  apply forEach_ext. intros [m mesh] r1. cbn [fst snd].
  unfold meshPrimitives.
  rewrite (imap_pair_fmap (fun i primitive => ((m, i), primitive))), forEach_fmap.
  apply forEach_ext. intros [i primitive] r2. reflexivity.
Qed.

Lemma initializeWebGPUAndGLTF_stages r r' :
  initializeWebGPUAndGLTF r = Ok tt r' <->
  exists r1 r2 r3 r4,
    loadGPUBuffers r = Ok tt r1 /\
    initConstantBindGroup r1 = Ok tt r2 /\
    initFrameBindGroup r2 = Ok tt r3 /\
    initNodeBindGroup r3 = Ok tt r4 /\
    forEach (assetPrimitives (gltfOf r4))
      (fun entry => setupPrimitive (fst entry) (snd entry)) (withPipelineLayout r4) = Ok tt r'.
Proof.
  unfold initializeWebGPUAndGLTF. split.
  - intros H.
    bind_inv H u1 r1 H1. destruct u1.
    bind_inv H u2 r2 H2. destruct u2.
    bind_inv H u3 r3 H3. destruct u3.
    bind_inv H u4 r4 H4. destruct u4.
    rewrite bind_this, bind_createPipelineLayout, bind_assign in H.
    rewrite setupLoop_flat in H.
    exists r1, r2, r3, r4. repeat (split; [assumption|]). exact H.
  - intros (r1 & r2 & r3 & r4 & H1 & H2 & H3 & H4 & H).
    rewrite (bind_eq_Ok _ _ _ _ _ H1), (bind_eq_Ok _ _ _ _ _ H2),
      (bind_eq_Ok _ _ _ _ _ H3), (bind_eq_Ok _ _ _ _ _ H4).
    rewrite bind_this, bind_createPipelineLayout, bind_assign.
    rewrite setupLoop_flat. exact H.
Qed.

Lemma storedFor_pipeline r primitive pipeline locals gpuPrimitive :
  storedFor r primitive pipeline locals = Some gpuPrimitive ->
  GPUPrimitiveInfo.pipeline gpuPrimitive = pipeline /\
  GPUPrimitiveInfo.buffers gpuPrimitive = Locals.primitiveGpuBuffers locals.
Proof.
  unfold storedFor. destruct (MeshPrimitive.indices primitive) as [indices|].
  - destruct (GlTf.accessors (gltfOf r) !! indices) as [accessor|]; [|discriminate].
    cbn. destruct (GltfRenderer.gpuBuffers r) as [buffers|]; [|discriminate].
    cbn. intros [= <-]. split; reflexivity.
  - intros [= <-]. split; reflexivity.
Qed.

(** Renderer code that never assigns a field keeps it. *)
Ltac kept :=
  repeat keeps_step;
  let H := fresh in intros ? H; exact H.

Lemma kept_Ok {X A} (field : GltfRenderer.t -> X) (m : M A) r a r' :
  (forall v, keeps (fieldIs field v) m) -> m r = Ok a r' -> field r' = field r.
Proof. intros Hm H. exact (keeps_Ok _ _ _ _ _ (Hm (field r)) eq_refl H). Qed.

Lemma setupLoop_Ok entries : forall r r',
  NoDup (fst <$> entries) ->
  forEach entries (fun entry => setupPrimitive (fst entry) (snd entry)) r = Ok tt r' ->
  setUp entries r r'.
Proof.
  induction entries as [|[key primitive] rest IH]; intros r r' Hkeys H.
  - injection H as <-. split; try reflexivity.
    + exists []. rewrite app_nil_r. repeat split. constructor.
    + intros k entry Hk. discriminate Hk.
  - unfold forEach in H. cbn [forOf fst snd] in H. bind_inv H u r1 H1. destruct u.
    apply NoDup_cons in Hkeys as [Hfresh Hkeys].
    assert (Hlayout1 : GltfRenderer.gltfPipelineLayout r1 = GltfRenderer.gltfPipelineLayout r).
    { apply (kept_Ok GltfRenderer.gltfPipelineLayout (setupPrimitive key primitive)
               _ _ _ ltac:(intros v; kept) H1). }
    apply setupPrimitive_Ok in H1
      as (locals & gpuPrimitive & descriptor & _ & Hstored & Hdata & Hpipes & _ & _
          & Hlayout & Hgroup & Hbuffers).
    apply storedFor_pipeline in Hstored as [Hpipeline _].
    destruct (IH r1 r' Hkeys H) as [Hg Hb Hl (created & Hc & Hlen & Hall) Hs Ho].
    split.
    + congruence.
    + congruence.
    + congruence.
    + exists (descriptor :: created). rewrite Hc, Hpipes, <- app_assoc.
      split; [reflexivity|]. split; [cbn; congruence|].
      constructor; [exact Hlayout|]. rewrite <- Hlayout1. exact Hall.
    + intros [|k] entry Hk.
      * injection Hk as <-. cbn [fst]. exists gpuPrimitive.
        rewrite Ho by exact Hfresh. rewrite Hdata, lookup_insert_eq.
        split; [reflexivity | lia].
      * destruct (Hs k entry Hk) as (gp & Hgp & Hp). exists gp. split; [exact Hgp|].
        rewrite Hp, Hpipes, length_app. cbn. lia.
    + intros key' Hkey'. cbn [fmap list_fmap fst] in Hkey'.
      apply not_elem_of_cons in Hkey' as [Hne Hrest].
      rewrite Ho by exact Hrest. rewrite Hdata. apply lookup_insert_ne. congruence.
Qed.

Lemma imap_index {A B} (g : nat -> B) (l : list A) :
  imap (fun i _ => g i) l = g <$> seq 0 (length l).
Proof.
  revert g. induction l as [|x rest IH]; intros g; [reflexivity|].
  cbn [imap length seq fmap list_fmap]. f_equal.
  rewrite <- fmap_S_seq, <- list_fmap_compose. apply (IH (g ∘ S)).
Qed.

Lemma meshPrimitives_keys (m : nat) (mesh : Mesh.t) :
  fst <$> meshPrimitives m mesh = pair m <$> seq 0 (length (Mesh.primitives mesh)).
Proof.
  unfold meshPrimitives. rewrite fmap_imap. apply (imap_index (pair m)).
Qed.

Lemma assetPrimitives_keys_from (meshes : list Mesh.t) : forall start : nat,
  NoDup (fst <$> flat_map (fun entry => meshPrimitives (fst entry) (snd entry))
                   (imap (fun i mesh => ((start + i)%nat, mesh)) meshes)) /\
  Forall (fun key : PrimitiveRef => (start <= fst key)%nat)
    (fst <$> flat_map (fun entry => meshPrimitives (fst entry) (snd entry))
               (imap (fun i mesh => ((start + i)%nat, mesh)) meshes)).
Proof.
  induction meshes as [|mesh rest IH]; intros start.
  - split; constructor.
  - cbn [imap flat_map fst snd]. rewrite fmap_app, meshPrimitives_keys, Nat.add_0_r.
    assert (Hshift : imap ((fun i mesh0 => ((start + i)%nat, mesh0)) ∘ S) rest
                     = imap (fun i mesh0 => ((S start + i)%nat, mesh0)) rest).
    { apply imap_ext. intros i x _. cbn. f_equal. lia. }
    rewrite Hshift. destruct (IH (S start)) as [Hnodup Hafter]. split.
    + apply NoDup_app. split; [|split; [|exact Hnodup]].
      * apply NoDup_fmap_2; [intros i j [= ->]; reflexivity | apply NoDup_seq].
      * intros key Hin Hlater.
        apply list_elem_of_fmap in Hin as (i & -> & _).
        rewrite Forall_forall in Hafter. specialize (Hafter _ Hlater). cbn in Hafter. lia.
    + apply Forall_app. split.
      * apply Forall_fmap, Forall_forall. intros i _. cbn. lia.
      * eapply Forall_impl; [exact Hafter|]. cbn. intros key Hkey. lia.
Qed.

Lemma assetPrimitives_keys (g : GlTf.t) : NoDup (fst <$> assetPrimitives g).
Proof. exact (proj1 (assetPrimitives_keys_from (GlTf.meshes g) 0)). Qed.

(** What the stages before the primitives leave alone. *)
Lemma stages_kept {X} (field : GltfRenderer.t -> X) r r1 r2 r3 r4 :
  (forall v, keeps (fieldIs field v) loadGPUBuffers) ->
  (forall v, keeps (fieldIs field v) initConstantBindGroup) ->
  (forall v, keeps (fieldIs field v) initFrameBindGroup) ->
  (forall v, keeps (fieldIs field v) initNodeBindGroup) ->
  loadGPUBuffers r = Ok tt r1 ->
  initConstantBindGroup r1 = Ok tt r2 ->
  initFrameBindGroup r2 = Ok tt r3 ->
  initNodeBindGroup r3 = Ok tt r4 ->
  field r4 = field r.
Proof.
  intros K1 K2 K3 K4 H1 H2 H3 H4.
  rewrite (kept_Ok field _ _ _ _ K4 H4), (kept_Ok field _ _ _ _ K3 H3),
    (kept_Ok field _ _ _ _ K2 H2). exact (kept_Ok field _ _ _ _ K1 H1).
Qed.

(** Initialization creates one render pipeline per primitive, in the
    order of the meshes and of their primitives, and stores for the k-th
    primitive a GPU state that refers to the k-th of them. *)
Theorem initializeWebGPUAndGLTF_pipelines (r r' : GltfRenderer.t) :
  initializeWebGPUAndGLTF r = Ok tt r' ->
  length (GPUDevice.renderPipelines (GltfRenderer.device r'))
  = (length (GPUDevice.renderPipelines (GltfRenderer.device r))
     + length (assetPrimitives (gltfOf r)))%nat /\
  forall k entry,
    assetPrimitives (gltfOf r) !! k = Some entry ->
    exists gpuPrimitive,
      GltfRenderer.primitiveGpuData r' !! fst entry = Some gpuPrimitive /\
      GPUPrimitiveInfo.pipeline gpuPrimitive
      = (length (GPUDevice.renderPipelines (GltfRenderer.device r)) + k)%nat.
Proof.
  intros H. apply initializeWebGPUAndGLTF_stages in H
    as (r1 & r2 & r3 & r4 & H1 & H2 & H3 & H4 & H).
  assert (Hgroup : GltfRenderer.gltf_group r4 = GltfRenderer.gltf_group r).
  { apply (stages_kept GltfRenderer.gltf_group r r1 r2 r3 r4);
      first [assumption | intros v; kept]. }
  assert (Hpipes : renderPipelinesOf r4 = renderPipelinesOf r).
  { apply (stages_kept renderPipelinesOf r r1 r2 r3 r4);
      first [assumption | intros v; kept]. }
  unfold renderPipelinesOf in Hpipes.
  unfold gltfOf in *. rewrite Hgroup in H.
  apply setupLoop_Ok in H; [|apply assetPrimitives_keys].
  destruct H as [_ _ _ (created & Hc & Hlen & _) Hs _]. cbn in Hc, Hs.
  rewrite Hpipes in Hc, Hs. split.
  - rewrite Hc, length_app, Hlen. reflexivity.
  - exact Hs.
Qed.

Lemma initializeWebGPUAndGLTF_pipelines_witness :
  exists gpuPrimitive,
    GltfRenderer.primitiveGpuData
      (stateOf (initializeWebGPUAndGLTF (Scenario.fresh Scenario.twoTrianglesGroup)))
      !! (0%nat, 1%nat) = Some gpuPrimitive /\
    GPUPrimitiveInfo.pipeline gpuPrimitive = 1%nat.
Proof.
  assert (H : initializeWebGPUAndGLTF (Scenario.fresh Scenario.twoTrianglesGroup)
              = Ok tt (stateOf (initializeWebGPUAndGLTF
                                  (Scenario.fresh Scenario.twoTrianglesGroup))))
    by (vm_compute; reflexivity).
  destruct (initializeWebGPUAndGLTF_pipelines _ _ H) as [_ Hall].
  exact (Hall 1%nat ((0%nat, 1%nat), Scenario.plainTriangle) eq_refl).
Defined.

Ltac run_in H :=
  repeat (first [ rewrite bind_assoc in H | rewrite bind_ret in H | rewrite bind_this in H
                | rewrite bind_assign in H | rewrite bind_onDevice in H
                | rewrite bind_createBuffer in H | rewrite bind_createBindGroupLayout in H
                | rewrite bind_createBindGroup in H | rewrite bind_createPipelineLayout in H
                | rewrite bind_createShaderModule in H | rewrite bind_createRenderPipeline in H
                | rewrite bind_encode in H | rewrite bind_writeBuffer in H ];
          cbv beta in H).

Ltac boundBy_leaf :=
  let g := fresh in let d := fresh in
  let H1 := fresh in let H2 := fresh in let H3 := fresh in let H4 := fresh in
  intros ? (g & d & H1 & H2 & H3 & H4); exists g, d;
  split; [exact H1|]; split;
  [ first [ exact H2 | cbn; apply lookup_app_l_Some; exact H2 ]
  | split; [exact H3 | exact H4] ].

Lemma groupUses_more group layout r r' :
  (forall g d, GPUDevice.bindGroups (GltfRenderer.device r) !! g = Some d ->
               GPUDevice.bindGroups (GltfRenderer.device r') !! g = Some d) ->
  groupUses group layout r -> groupUses group layout r'.
Proof. intros Hmore (g & d & H1 & H2 & H3 & H4). exists g, d. auto. Qed.

Ltac nodesBound_leaf :=
  let H := fresh in
  intros ? H; unfold nodesBound in *; cbn;
  first [ exact H
        | eapply Forall_impl; [exact H|];
          intros ?; apply groupUses_more; intros ? ?;
          first [ trivial | apply lookup_app_l_Some ] ].

Lemma Forall_mapSet {V} (P : nat * V -> Prop) key value (m : list (nat * V)) :
  Forall P m -> P (key, value) -> Forall P (mapSet key value m).
Proof.
  intros Hm Hnew. induction m as [|[k v] rest IH]; cbn.
  - repeat constructor. exact Hnew.
  - apply Forall_cons in Hm as [Hk Hrest].
    destruct (Nat.eqb_spec k key) as [->|Hne]; constructor; auto.
Qed.

Lemma setupMeshNodeBindGroup_bound node :
  keeps (fun r => is_Some (GltfRenderer.nodeBindGroupLayout r) /\ nodesBound r)
    (setupMeshNodeBindGroup node).
Proof.
  intros r [Hlayout Hbound]. unfold setupMeshNodeBindGroup. run. unfold assign. cbn [stateOf].
  split; [exact Hlayout|]. unfold nodesBound in *. cbn.
  apply Forall_mapSet.
  - eapply Forall_impl; [exact Hbound|]. intros entry. apply groupUses_more.
    intros g d. cbn. apply lookup_app_l_Some.
  - eexists _, _. split; [reflexivity|]. cbn. split; [apply list_lookup_middle; reflexivity|].
    split; [reflexivity | exact Hlayout].
Qed.

Lemma initNodeBindGroup_bound r r' :
  GltfRenderer.nodeGpuData r = [] ->
  initNodeBindGroup r = Ok tt r' ->
  is_Some (GltfRenderer.nodeBindGroupLayout r') /\ nodesBound r'.
Proof.
  intros Hempty H. unfold initNodeBindGroup in H. run_in H.
  apply (keeps_Ok (fun r => is_Some (GltfRenderer.nodeBindGroupLayout r) /\ nodesBound r))
    in H; [exact H | | ].
  - apply keeps_forEach. intros [index node]. destruct (Node.mesh node).
    + apply setupMeshNodeBindGroup_bound.
    + apply keeps_ret.
  - split; [cbn; eauto|]. unfold nodesBound. cbn. rewrite Hempty. constructor.
Qed.

Lemma initConstantBindGroup_bound r r' :
  initConstantBindGroup r = Ok tt r' ->
  boundBy GltfRenderer.constantBindGroup GltfRenderer.constantBindGroupLayout r'.
Proof.
  unfold initConstantBindGroup. intros H.
  rewrite bind_this in H.
  bind_inv H jointNum r1 H1.
  rewrite bind_createBuffer, bind_assign in H.
  bind_inv H buffer1 r2 H2. bind_inv H buffer2 r3 H3.
  rewrite bind_writeBuffer in H.
  bind_inv H u r4 H4. run_in H. unfold assign in H. injection H as <-.
  eexists _, _. split; [reflexivity|]. cbn.
  split; [apply list_lookup_middle; reflexivity|]. split; [reflexivity | eauto].
Qed.

Lemma initFrameBindGroup_bound r r' :
  initFrameBindGroup r = Ok tt r' ->
  boundBy GltfRenderer.frameBindGroup GltfRenderer.frameBindGroupLayout r'.
Proof.
  unfold initFrameBindGroup. intros H.
  rewrite bind_createBuffer, bind_assign, bind_this, bind_createBuffer, bind_assign in H.
  bind_inv H u1 r1 H1. bind_inv H u2 r2 H2.
  run_in H. unfold assign in H. injection H as <-.
  eexists _, _. split; [reflexivity|]. cbn.
  split; [apply list_lookup_middle; reflexivity|]. split; [reflexivity | eauto].
Qed.

Lemma setupLoop_keeps (I : GltfRenderer.t -> Prop) entries :
  (forall key primitive, keeps I (setupPrimitive key primitive)) ->
  keeps I (forEach entries (fun entry : PrimitiveRef * MeshPrimitive.t =>
                              setupPrimitive (fst entry) (snd entry))).
Proof. intros H. apply keeps_forEach. intros entry. apply H. Qed.

(** After [init], the pipeline layout lists the constant, frame and node
    bind-group layouts in this order; the bind groups a frame sets at
    indices 0, 1 and 2 were created with these layouts, and the pipeline of
    every primitive with this pipeline layout. *)
Theorem init_layouts (device : GPUDevice.t) (canvas : Z * Z) (gltf_group : GLTFGroup.t)
    (isFirstRenderer : bool) (r' : GltfRenderer.t) :
  init device canvas gltf_group isFirstRenderer = Ok tt r' ->
  exists constantLayout frameLayout nodeLayout pipelineLayout,
    GltfRenderer.gltfPipelineLayout r' = Some pipelineLayout /\
    GPUDevice.pipelineLayouts (GltfRenderer.device r') !! pipelineLayout
    = Some [Some constantLayout; Some frameLayout; Some nodeLayout] /\
    groupUses (GltfRenderer.constantBindGroup r') (Some constantLayout) r' /\
    groupUses (GltfRenderer.frameBindGroup r') (Some frameLayout) r' /\
    Forall (fun entry => groupUses (Some (snd entry)) (Some nodeLayout) r')
      (GltfRenderer.nodeGpuData r') /\
    forall k entry,
      assetPrimitives (GLTFGroup.gltf gltf_group) !! k = Some entry ->
      exists gpuPrimitive descriptor,
        GltfRenderer.primitiveGpuData r' !! fst entry = Some gpuPrimitive /\
        GPUDevice.renderPipelines (GltfRenderer.device r')
          !! GPUPrimitiveInfo.pipeline gpuPrimitive = Some descriptor /\
        GPURenderPipelineDescriptor.layout descriptor = Some pipelineLayout.
Proof.
  unfold init. set (r := newRenderer device canvas gltf_group isFirstRenderer).
  intros H. apply initializeWebGPUAndGLTF_stages in H
    as (r1 & r2 & r3 & r4 & H1 & H2 & H3 & H4 & H).
  set (r5 := withPipelineLayout r4) in *.
  assert (Hgroup : GltfRenderer.gltf_group r4 = gltf_group).
  { apply (stages_kept GltfRenderer.gltf_group r r1 r2 r3 r4);
      first [assumption | intros v; kept]. }
  (* the constant tier *)
  pose proof (initConstantBindGroup_bound _ _ H2) as Hc.
  pose proof (keeps_Ok
                (boundBy GltfRenderer.constantBindGroup GltfRenderer.constantBindGroupLayout)
                initFrameBindGroup _ _ _ ltac:(repeat keeps_step; boundBy_leaf) Hc H3) as Hc3.
  pose proof (keeps_Ok
                (boundBy GltfRenderer.constantBindGroup GltfRenderer.constantBindGroupLayout)
                initNodeBindGroup _ _ _ ltac:(repeat keeps_step; boundBy_leaf) Hc3 H4) as Hc4.
  assert (Hc5 : boundBy GltfRenderer.constantBindGroup GltfRenderer.constantBindGroupLayout r5)
    by exact Hc4.
  pose proof (keeps_Ok _ _ _ _ _
                (setupLoop_keeps
                   (boundBy GltfRenderer.constantBindGroup GltfRenderer.constantBindGroupLayout)
                   _ ltac:(intros; repeat keeps_step; boundBy_leaf)) Hc5 H)
    as Hc'.
  (* the frame tier *)
  pose proof (initFrameBindGroup_bound _ _ H3) as Hf.
  pose proof (keeps_Ok
                (boundBy GltfRenderer.frameBindGroup GltfRenderer.frameBindGroupLayout)
                initNodeBindGroup _ _ _ ltac:(repeat keeps_step; boundBy_leaf) Hf H4) as Hf4.
  assert (Hf5 : boundBy GltfRenderer.frameBindGroup GltfRenderer.frameBindGroupLayout r5)
    by exact Hf4.
  pose proof (keeps_Ok _ _ _ _ _
                (setupLoop_keeps
                   (boundBy GltfRenderer.frameBindGroup GltfRenderer.frameBindGroupLayout)
                   _ ltac:(intros; repeat keeps_step; boundBy_leaf)) Hf5 H)
    as Hf'.
  (* the node tier *)
  assert (Hempty : GltfRenderer.nodeGpuData r3 = []).
  { rewrite (kept_Ok GltfRenderer.nodeGpuData initFrameBindGroup _ _ _
               ltac:(intros v; kept) H3),
      (kept_Ok GltfRenderer.nodeGpuData initConstantBindGroup _ _ _
         ltac:(intros v; kept) H2),
      (kept_Ok GltfRenderer.nodeGpuData loadGPUBuffers _ _ _ ltac:(intros v; kept) H1).
    reflexivity. }
  destruct (initNodeBindGroup_bound _ _ Hempty H4) as [[nodeLayout Hn] Hnodes].
  assert (Hn5 : nodesBound r5) by exact Hnodes.
  pose proof (keeps_Ok _ _ _ _ _
                (setupLoop_keeps nodesBound
                   _ ltac:(intros; repeat keeps_step; nodesBound_leaf)) Hn5 H)
    as Hn'.
  (* the layouts stay *)
  pose proof (kept_Ok GltfRenderer.constantBindGroupLayout
                (forEach (assetPrimitives (gltfOf r4))
                   (fun entry => setupPrimitive (fst entry) (snd entry))) _ _ _
                ltac:(intros v; apply setupLoop_keeps; intros; kept) H) as Lc.
  pose proof (kept_Ok GltfRenderer.frameBindGroupLayout
                (forEach (assetPrimitives (gltfOf r4))
                   (fun entry => setupPrimitive (fst entry) (snd entry))) _ _ _
                ltac:(intros v; apply setupLoop_keeps; intros; kept) H) as Lf.
  pose proof (kept_Ok GltfRenderer.nodeBindGroupLayout
                (forEach (assetPrimitives (gltfOf r4))
                   (fun entry => setupPrimitive (fst entry) (snd entry))) _ _ _
                ltac:(intros v; apply setupLoop_keeps; intros; kept) H) as Ln.
  pose proof (kept_Ok pipelineLayoutsOf
                (forEach (assetPrimitives (gltfOf r4))
                   (fun entry => setupPrimitive (fst entry) (snd entry))) _ _ _
                ltac:(intros v; apply setupLoop_keeps; intros; kept) H) as Lp.
  unfold gltfOf in H. rewrite Hgroup in H.
  apply setupLoop_Ok in H; [|apply assetPrimitives_keys].
  destruct H as [_ _ Hl (created & Hcreated & Hlen & Hall) Hs _].
  destruct Hc' as (gc & dc & Hgc & Hdc & Hlc & [constantLayout Hcl]).
  destruct Hf' as (gf & df & Hgf & Hdf & Hlf & [frameLayout Hfl]).
  exists constantLayout, frameLayout, nodeLayout,
    (length (GPUDevice.pipelineLayouts (GltfRenderer.device r4))).
  split; [rewrite Hl; reflexivity|].
  split.
  { unfold pipelineLayoutsOf in Lp. rewrite Lp. cbn.
    rewrite list_lookup_middle by reflexivity.
    rewrite <- Hcl, <- Hfl, <- Hn, Lc, Lf. reflexivity. }
  split; [exists gc, dc; rewrite <- Hcl; eauto|].
  split; [exists gf, df; rewrite <- Hfl; eauto|].
  split.
  { unfold nodesBound in Hn'. rewrite Ln in Hn'. cbn in Hn'. rewrite Hn in Hn'. exact Hn'. }
  intros k entry Hk. destruct (Hs k entry Hk) as (gp & Hgp & Hp).
  assert (Hlt : (k < length created)%nat).
  { rewrite Hlen. apply lookup_lt_Some in Hk. exact Hk. }
  destruct (lookup_lt_is_Some_2 created k Hlt) as [descriptor Hd].
  exists gp, descriptor. split; [exact Hgp|]. split.
  - rewrite Hp, Hcreated. rewrite lookup_app_r by lia.
    rewrite Nat.add_comm, Nat.add_sub. exact Hd.
  - rewrite Forall_forall in Hall. apply Hall. eapply list_elem_of_lookup_2. exact Hd.
Qed.

Lemma init_layouts_witness :
  exists constantLayout frameLayout nodeLayout pipelineLayout,
    GltfRenderer.gltfPipelineLayout
      (stateOf (init GPUDevice.empty (800, 600)%Z Scenario.twoTrianglesGroup true))
    = Some pipelineLayout /\
    GPUDevice.pipelineLayouts
      (GltfRenderer.device
         (stateOf (init GPUDevice.empty (800, 600)%Z Scenario.twoTrianglesGroup true)))
      !! pipelineLayout
    = Some [Some constantLayout; Some frameLayout; Some nodeLayout].
Proof.
  assert (H : init GPUDevice.empty (800, 600)%Z Scenario.twoTrianglesGroup true
              = Ok tt (stateOf (init GPUDevice.empty (800, 600)%Z
                                  Scenario.twoTrianglesGroup true)))
    by (vm_compute; reflexivity).
  destruct (init_layouts _ _ _ _ _ H)
    as (constantLayout & frameLayout & nodeLayout & pipelineLayout & Hlayout & Hlayouts & _).
  exists constantLayout, frameLayout, nodeLayout, pipelineLayout.
  split; [exact Hlayout | exact Hlayouts].
Defined.

Lemma getVertexShaderModule_eq r :
  getVertexShaderModule r =
  match GltfRenderer.vertShaderModule r with
  | Some module => Ok module r
  | None =>
      Ok (length (shaderModulesOf r))
        (GltfRenderer.set_vertShaderModule (Some (length (shaderModulesOf r)))
           (GltfRenderer.set_device
              (DeviceUpdate.on_shaderModules (fun l => l ++ ["glTF vertex shader module"])
                 (GltfRenderer.device r)) r))
  end.
Proof.
  unfold getVertexShaderModule. rewrite bind_this.
  destruct (GltfRenderer.vertShaderModule r); [reflexivity|]. run. reflexivity.
Qed.

Lemma getFragmentShaderModule_eq r :
  getFragmentShaderModule r =
  match GltfRenderer.fragShaderModule r with
  | Some module => Ok module r
  | None =>
      Ok (length (shaderModulesOf r))
        (GltfRenderer.set_fragShaderModule (Some (length (shaderModulesOf r)))
           (GltfRenderer.set_device
              (DeviceUpdate.on_shaderModules (fun l => l ++ ["glTF fragment shader module"])
                 (GltfRenderer.device r)) r))
  end.
Proof.
  unfold getFragmentShaderModule. rewrite bind_this.
  destruct (GltfRenderer.fragShaderModule r); [reflexivity|]. run. reflexivity.
Qed.

(** The state [setupPrimitive] reaches: the modules are there, one more
    pipeline is created with them, and the primitive's GPU state stored. *)
Lemma setupPrimitive_state key primitive r r' :
  setupPrimitive key primitive r = Ok tt r' ->
  exists locals vertModule r1 fragModule r2 gpuPrimitive,
    getVertexShaderModule r = Ok vertModule r1 /\
    getFragmentShaderModule r1 = Ok fragModule r2 /\
    r' = GltfRenderer.set_primitiveGpuData
           (<[key := gpuPrimitive]> (GltfRenderer.primitiveGpuData r2))
           (GltfRenderer.set_device
              (DeviceUpdate.on_renderPipelines
                 (fun l => l ++ [pipelineDescriptor r2 vertModule fragModule
                                   (Locals.bufferLayout locals) primitive])
                 (GltfRenderer.device r2)) r2).
Proof.
  unfold setupPrimitive. intros H.
  bind_inv H locals r0 H0. apply buildVertexState_Ok in H0 as [-> _].
  bind_inv H vertModule r1 H1. bind_inv H fragModule r2 H2.
  rewrite bind_this, bind_createRenderPipeline in H. cbv beta in H.
  exists locals, vertModule, r1, fragModule, r2.
  destruct (MeshPrimitive.indices primitive) as [indices|].
  - rewrite bind_assoc in H. bind_inv H accessor r3 H3.
    apply accessorAt_Ok in H3 as (-> & _).
    rewrite bind_assoc in H. bind_inv H indexBuffer r3 H3.
    apply gpuBufferAt_Ok in H3 as (-> & _).
    rewrite bind_ret in H. unfold assign in H. injection H as <-.
    eexists. split; [exact H1|]. split; [exact H2|]. reflexivity.
  - rewrite bind_ret in H. unfold assign in H. injection H as <-.
    eexists. split; [exact H1|]. split; [exact H2|]. reflexivity.
Qed.

Lemma setupPrimitive_shares base pipelines0 key primitive r r' :
  sharesModules base pipelines0 r ->
  setupPrimitive key primitive r = Ok tt r' ->
  sharesModules base pipelines0 r' /\ renderPipelinesOf r' <> pipelines0.
Proof.
  intros (created & Hpipes & Hall & Hmodules) H.
  apply setupPrimitive_state in H
    as (locals & vertModule & r1 & fragModule & r2 & gpuPrimitive & H1 & H2 & ->).
  rewrite getVertexShaderModule_eq in H1. rewrite getFragmentShaderModule_eq in H2.
  unfold renderPipelinesOf, shaderModulesOf in *.
  destruct created as [|first created].
  - destruct Hmodules as (Hv & Hf & Hbase). rewrite Hv in H1. injection H1 as <- <-.
    cbn in H2. rewrite Hf in H2. injection H2 as <- <-. cbn. split.
    + eexists [_]. cbn. rewrite Hpipes, Hbase, length_app, <- app_assoc. cbn.
      split; [reflexivity|]. rewrite Nat.add_1_r, <- app_assoc.
      split; [|repeat split; reflexivity].
      repeat constructor.
    + rewrite Hpipes, app_nil_r. intros Heq.
      apply (f_equal length) in Heq. rewrite length_app in Heq. cbn in Heq. lia.
  - destruct Hmodules as (Hv & Hf & Hbase). rewrite Hv in H1. injection H1 as <- <-.
    rewrite Hf in H2. injection H2 as <- <-. cbn. split.
    + exists ((first :: created) ++
              [pipelineDescriptor r (length base) (S (length base))
                 (Locals.bufferLayout locals) primitive]).
      unfold renderPipelinesOf, shaderModulesOf. cbn.
      rewrite Hpipes, <- app_assoc. split; [reflexivity|].
      split; [apply (Forall_app _ (first :: created) [_]);
              split; [exact Hall | repeat constructor]|].
      repeat split; assumption.
    + rewrite Hpipes. intros Heq.
      apply (f_equal length) in Heq. rewrite !length_app in Heq. cbn in Heq. lia.
Qed.

Lemma setupLoop_shares base pipelines0 entries : forall r r',
  sharesModules base pipelines0 r ->
  forEach entries (fun entry => setupPrimitive (fst entry) (snd entry)) r = Ok tt r' ->
  sharesModules base pipelines0 r'.
Proof.
  induction entries as [|[key primitive] rest IH]; intros r r' Hr H.
  - injection H as <-. exact Hr.
  - unfold forEach in H. cbn [forOf fst snd] in H. bind_inv H u r1 H1. destruct u.
    apply (setupPrimitive_shares _ _ _ _ _ _ Hr) in H1 as [H1 _].
    exact (IH r1 r' H1 H).
Qed.

(** However many primitives the asset has, [init] creates one vertex and
    one fragment shader module (none when there is no primitive), and
    every pipeline it creates uses these two. *)
Theorem init_shares_shader_modules (device : GPUDevice.t) (canvas : Z * Z)
    (gltf_group : GLTFGroup.t) (isFirstRenderer : bool) (r' : GltfRenderer.t) :
  init device canvas gltf_group isFirstRenderer = Ok tt r' ->
  exists created,
    GPUDevice.renderPipelines (GltfRenderer.device r')
    = GPUDevice.renderPipelines device ++ created /\
    length created = length (assetPrimitives (GLTFGroup.gltf gltf_group)) /\
    Forall (fun descriptor =>
              GPURenderPipelineDescriptor.vertexModule descriptor
              = length (GPUDevice.shaderModules device) /\
              GPURenderPipelineDescriptor.fragmentModule descriptor
              = S (length (GPUDevice.shaderModules device))) created /\
    GPUDevice.shaderModules (GltfRenderer.device r')
    = GPUDevice.shaderModules device
      ++ match created with
         | [] => []
         | _ :: _ => ["glTF vertex shader module"; "glTF fragment shader module"]
         end.
Proof.
  unfold init. set (r := newRenderer device canvas gltf_group isFirstRenderer).
  intros H. apply initializeWebGPUAndGLTF_stages in H
    as (r1 & r2 & r3 & r4 & H1 & H2 & H3 & H4 & H).
  assert (Hgroup : GltfRenderer.gltf_group r4 = gltf_group).
  { apply (stages_kept GltfRenderer.gltf_group r r1 r2 r3 r4);
      first [assumption | intros v; kept]. }
  assert (Hpipes : renderPipelinesOf r4 = GPUDevice.renderPipelines device).
  { apply (stages_kept renderPipelinesOf r r1 r2 r3 r4);
      first [assumption | intros v; kept]. }
  assert (Hmodules : shaderModulesOf r4 = GPUDevice.shaderModules device).
  { apply (stages_kept shaderModulesOf r r1 r2 r3 r4);
      first [assumption | intros v; kept]. }
  assert (Hvert : GltfRenderer.vertShaderModule r4 = None).
  { apply (stages_kept GltfRenderer.vertShaderModule r r1 r2 r3 r4);
      first [assumption | intros v; kept]. }
  assert (Hfrag : GltfRenderer.fragShaderModule r4 = None).
  { apply (stages_kept GltfRenderer.fragShaderModule r r1 r2 r3 r4);
      first [assumption | intros v; kept]. }
  assert (Hshares : sharesModules (GPUDevice.shaderModules device)
                      (GPUDevice.renderPipelines device) (withPipelineLayout r4)).
  { exists []. rewrite app_nil_r. split; [exact Hpipes|]. split; [constructor|].
    repeat split; assumption. }
  pose proof (setupLoop_shares _ _ _ _ _ Hshares H) as (created & Hc & Hall & Hm).
  unfold gltfOf in H. rewrite Hgroup in H.
  apply setupLoop_Ok in H; [|apply assetPrimitives_keys].
  destruct H as [_ _ _ (created' & Hc' & Hlen & _) _ _].
  change (GPUDevice.renderPipelines (GltfRenderer.device (withPipelineLayout r4)))
    with (renderPipelinesOf r4) in Hc'.
  unfold renderPipelinesOf in *. rewrite Hpipes, Hc in Hc'.
  apply app_inv_head in Hc'. subst created'.
  exists created. split; [exact Hc|]. split; [exact Hlen|]. split; [exact Hall|].
  unfold shaderModulesOf in Hm.
  destruct created; destruct Hm as (_ & _ & ->); [rewrite app_nil_r|]; reflexivity.
Qed.

Lemma init_shares_shader_modules_witness :
  exists created,
    length created = 2%nat /\
    Forall (fun descriptor =>
              GPURenderPipelineDescriptor.vertexModule descriptor = 0%nat /\
              GPURenderPipelineDescriptor.fragmentModule descriptor = 1%nat) created /\
    length (GPUDevice.shaderModules
              (GltfRenderer.device
                 (stateOf (init GPUDevice.empty (800, 600)%Z
                             Scenario.twoTrianglesGroup true)))) = 2%nat.
Proof.
  assert (H : init GPUDevice.empty (800, 600)%Z Scenario.twoTrianglesGroup true
              = Ok tt (stateOf (init GPUDevice.empty (800, 600)%Z
                                  Scenario.twoTrianglesGroup true)))
    by (vm_compute; reflexivity).
  destruct (init_shares_shader_modules _ _ _ _ _ H)
    as (created & _ & Hlength & Hmodules & Hshaders).
  exists created. split; [exact Hlength|]. split; [exact Hmodules|].
  rewrite Hshaders. destruct created as [|first rest]; [discriminate Hlength | reflexivity].
Defined.

(** ** The constant tier of a skinned asset *)

Lemma newArrayBuffer_4 r :
  newArrayBuffer (4 * Float32Array_BYTES_PER_ELEMENT) r = Ok [0; 0; 0; 0]%Z r.
Proof. reflexivity. Qed.

Lemma float32Set_4 (a b c d : Z) r :
  float32Set [0; 0; 0; 0]%Z 0 4 (Some [a; b; c; d]) r = Ok [a; b; c; d] r.
Proof. reflexivity. Qed.

Lemma bind_skins0 {B} skins skin (k : Skin.t -> M B) r :
  GlTf.skins (gltfOf r) = Some skins -> skins !! 0%nat = Some skin ->
  bind skins0 k r
  = k skin (GltfRenderer.set_skin0Reads (S (GltfRenderer.skin0Reads r)) r).
Proof. intros H1 H2. apply bind_eq_Ok, (skins0_eq r skins skin H1 H2). Qed.

Lemma bind_accessorAt {B} index accessor (k : Accessor.t -> M B) r :
  GlTf.accessors (gltfOf r) !! index = Some accessor ->
  bind (accessorAt (Some index)) k r = k accessor r.
Proof. intros H. apply bind_eq_Ok, accessorAt_eq, H. Qed.

Lemma bind_gpuBufferAt {B} i buffers (k : option GPUBuffer -> M B) r :
  GltfRenderer.gpuBuffers r = Some buffers ->
  bind (gpuBufferAt i) k r = k (i ≫= (fun i => buffers !! i)) r.
Proof. intros H. apply bind_eq_Ok, gpuBufferAt_eq, H. Qed.

(** With a skin whose inverse-bind-matrix accessor exists, and the
    buffers loaded, the constant tier goes through: it creates one buffer
    only, the joint-info buffer, writes has-skin = 1 and the joint count to
    it, and binds as inverse bind matrices the buffer that was loaded for
    the accessor's buffer view. *)
Theorem initConstantBindGroup_skin (r : GltfRenderer.t) (skins : list Skin.t)
    (skin : Skin.t) (index : GlTfId) (accessor : Accessor.t) (handles : list GPUBuffer) :
  GlTf.skins (gltfOf r) = Some skins ->
  skins !! 0%nat = Some skin ->
  Skin.inverseBindMatrices skin = Some index ->
  GlTf.accessors (gltfOf r) !! index = Some accessor ->
  GltfRenderer.gpuBuffers r = Some handles ->
  exists r',
    initConstantBindGroup r = Ok tt r' /\
    GPUDevice.buffers (GltfRenderer.device r')
    = GPUDevice.buffers (GltfRenderer.device r) ++ [jointInfoDescriptor] /\
    GltfRenderer.jointInfoBuffer r'
    = Some (length (GPUDevice.buffers (GltfRenderer.device r))) /\
    GPUDevice.queueWrites (GltfRenderer.device r')
    = GPUDevice.queueWrites (GltfRenderer.device r)
      ++ [(length (GPUDevice.buffers (GltfRenderer.device r)), 0%Z,
           [1; Z.of_nat (length (Skin.joints skin)); 0; 0]%Z)] /\
    GltfRenderer.inverseBindMatrixBuffer r'
    = Accessor.bufferView accessor ≫= (fun i => handles !! i) /\
    GPUDevice.bindGroups (GltfRenderer.device r')
    = GPUDevice.bindGroups (GltfRenderer.device r)
      ++ [GPUBindGroupDescriptor.mk "Constant BindGroup"
            (GltfRenderer.constantBindGroupLayout r')
            [ (0%nat, GltfRenderer.jointInfoBuffer r');
              (1%nat, GltfRenderer.inverseBindMatrixBuffer r') ]] /\
    GltfRenderer.constantBindGroup r'
    = Some (length (GPUDevice.bindGroups (GltfRenderer.device r))).
Proof.
  intros Hskins Hskin Hinverse Haccessor Hhandles.
  unfold initConstantBindGroup. rewrite bind_this.
  unfold hasSkins at 1 2 3. rewrite Hskins. cbn [numberTruthy Z.eqb negb].
  rewrite bind_assoc, (bind_skins0 skins skin) by assumption.
  run.
  rewrite (bind_eq_Ok _ _ _ _ _ (newArrayBuffer_4 _)).
  rewrite (bind_eq_Ok _ _ _ _ _ (float32Set_4 _ _ _ _ _)).
  run.
  rewrite (bind_skins0 skins skin) by assumption.
  rewrite Hinverse. run.
  rewrite (bind_accessorAt index accessor) by assumption. cbv beta. run.
  rewrite (bind_gpuBufferAt _ handles) by assumption. cbv beta.
  run. unfold assign. eexists. split; [reflexivity|]. cbn.
  repeat split; reflexivity.
Qed.

Lemma initConstantBindGroup_skin_witness :
  exists r',
    initConstantBindGroup (Scenario2.loaded Rigged.group) = Ok tt r' /\
    GltfRenderer.inverseBindMatrixBuffer r' = Some 3%nat /\
    GPUDevice.queueWrites (GltfRenderer.device r') = [(4%nat, 0%Z, [1; 2; 0; 0]%Z)].
Proof.
  destruct (initConstantBindGroup_skin (Scenario2.loaded Rigged.group)
              [Skin.mk (Some 3%nat) [1%nat; 2%nat]] (Skin.mk (Some 3%nat) [1%nat; 2%nat])
              3%nat Rigged.inverseBind [0; 1; 2; 3]%nat
              eq_refl eq_refl eq_refl eq_refl eq_refl)
    as (r' & Hrun & _ & _ & Hwrites & Hbuffer & _).
  exists r'. split; [exact Hrun|]. split; [exact Hbuffer | exact Hwrites].
Defined.

(** ** Assets that initialise and draw *)









(** ** The node tier *)




(** ** Usages and handles of the loaded buffers *)












Lemma createBuffers_fresh usages n : forall start r r' handles,
  GltfRenderer.gpuBuffers r = Some handles ->
  forEach (seq start n) (createBufferForView usages) r = Ok tt r' ->
  GltfRenderer.gpuBuffers r'
  = Some (handles ++ seq (length (GPUDevice.buffers (GltfRenderer.device r))) n) /\
  length (GPUDevice.buffers (GltfRenderer.device r'))
  = (length (GPUDevice.buffers (GltfRenderer.device r)) + n)%nat.
Proof.
  induction n as [|n IH]; intros start r r' handles Hhandles H.
  - injection H as <-. rewrite app_nil_r, Nat.add_0_r. split; [exact Hhandles | reflexivity].
  - unfold forEach in *. cbn [seq forOf] in H. bind_inv H u r1 H1. destruct u.
    apply (createBufferForView_Ok _ _ _ _ _ Hhandles) in H1
      as [_ Hhandles1 (d & bytes & _ & Hbuffers1 & _)].
    apply (IH _ _ _ _ Hhandles1) in H as [Hrest Hlen].
    rewrite Hbuffers1, length_app in Hrest, Hlen. cbn [length] in Hrest, Hlen.
    rewrite Nat.add_1_r in Hrest. split.
    + rewrite Hrest, <- app_assoc. reflexivity.
    + rewrite Hlen. lia.
Qed.

Lemma loadGPUBuffers_handles (r r' : GltfRenderer.t) :
  loadGPUBuffers r = Ok tt r' ->
  GltfRenderer.gpuBuffers r'
  = Some (seq (length (GPUDevice.buffers (GltfRenderer.device r)))
            (length (GlTf.bufferViews (gltfOf r)))) /\
  length (GPUDevice.buffers (GltfRenderer.device r'))
  = (length (GPUDevice.buffers (GltfRenderer.device r))
     + length (GlTf.bufferViews (gltfOf r)))%nat.
Proof.
  unfold loadGPUBuffers. intros H.
  bind_inv H u1 r1 H1. apply markMeshes_Ok in H1 as [-> _].
  bind_inv H u2 r2 H2. apply markSkin_Ok in H2 as (Hgroup & Hdevice & _).
  rewrite bind_assign, bind_this in H.
  apply (createBuffers_fresh _ _ _ (GltfRenderer.set_gpuBuffers (Some []) r2) _ [] eq_refl)
    in H.
  change (gltfOf (GltfRenderer.set_gpuBuffers (Some []) r2))
    with (GLTFGroup.gltf (GltfRenderer.gltf_group r2)) in H.
  change (GltfRenderer.device (GltfRenderer.set_gpuBuffers (Some []) r2))
    with (GltfRenderer.device r2) in H.
  rewrite Hgroup, Hdevice in H. exact H.
Qed.

(** [loadGPUBuffers] creates one GPU buffer per buffer view and no other,
    and hands them out in the order of creation: buffer view [i] is served
    by the [i]-th buffer created, so no two views share a buffer. *)
Theorem loadGPUBuffers_fresh_handles (r r' : GltfRenderer.t) :
  loadGPUBuffers r = Ok tt r' ->
  GltfRenderer.gpuBuffers r'
  = Some (seq (length (GPUDevice.buffers (GltfRenderer.device r)))
            (length (GlTf.bufferViews (gltfOf r)))) /\
  length (GPUDevice.buffers (GltfRenderer.device r'))
  = (length (GPUDevice.buffers (GltfRenderer.device r))
     + length (GlTf.bufferViews (gltfOf r)))%nat /\
  NoDup (seq (length (GPUDevice.buffers (GltfRenderer.device r)))
           (length (GlTf.bufferViews (gltfOf r)))).
Proof.
  intros H. apply loadGPUBuffers_handles in H as [Hhandles Hlength].
  split; [exact Hhandles|]. split; [exact Hlength | apply NoDup_seq].
Qed.

Lemma loadGPUBuffers_fresh_handles_witness :
  GltfRenderer.gpuBuffers (stateOf (loadGPUBuffers (Scenario.fresh Scenario.twoTrianglesGroup)))
  = Some [0; 1; 2]%nat.
Proof.
  assert (H : loadGPUBuffers (Scenario.fresh Scenario.twoTrianglesGroup)
              = Ok tt (stateOf (loadGPUBuffers (Scenario.fresh Scenario.twoTrianglesGroup))))
    by (vm_compute; reflexivity).
  destruct (loadGPUBuffers_fresh_handles _ _ H) as (Hhandles & _ & _).
  exact Hhandles.
Defined.

(** A loop whose body neither returns nor changes the renderer on some
    element throws, the renderer unchanged, provided the body returns
    without changing the renderer on the other elements. *)
Lemma forOf_throws {A L} (I : L -> Prop) (P : A -> bool) (Q : JsError -> Prop)
    (xs : list A) (body : L -> A -> M L) (r : GltfRenderer.t) :
  (forall acc x, I acc -> P x = true -> exists acc', body acc x r = Ok acc' r /\ I acc') ->
  (forall acc x, I acc -> P x = false -> exists e, body acc x r = Throw e r /\ Q e) ->
  forall acc, I acc -> forallb P xs = false ->
  exists e, forOf xs body acc r = Throw e r /\ Q e.
Proof.
  intros Hok Hthrow. induction xs as [|x rest IH]; intros acc Hacc Hsome; [discriminate|].
  cbn [forallb forOf] in *. destruct (P x) eqn:Hx.
  - destruct (Hok acc x Hacc Hx) as (acc' & Hbody & Hacc').
    rewrite (bind_eq_Ok _ _ _ _ _ Hbody). apply IH; assumption.
  - destruct (Hthrow acc x Hacc Hx) as (e & Hbody & He).
    exists e. split; [apply bind_eq_Throw, Hbody | exact He].
Qed.

Lemma accessorAt_missing index r :
  GlTf.accessors (gltfOf r) !! index = None ->
  accessorAt (Some index) r = Throw (TypeError "accessor is undefined") r.
Proof. intros H. unfold accessorAt. rewrite bind_this. cbn. rewrite H. reflexivity. Qed.

Lemma markPrimitive_throws usages primitive r :
  accessorsExist (gltfOf r) (primitiveAccessors primitive) = false ->
  exists e, markPrimitive usages primitive r = Throw e r /\ isTypeError e.
Proof.
  unfold accessorsExist, primitiveAccessors, markPrimitive. rewrite forallb_app.
  intros H.
  destruct (MeshPrimitive.indices primitive) as [indices|].
  - cbn [forallb fst] in H.
    destruct (GlTf.accessors (gltfOf r) !! indices) as [accessor|] eqn:Hindices.
    + rewrite bind_assoc, (bind_accessorAt indices accessor) by exact Hindices.
      rewrite bind_ret. cbn [defined andb] in H.
      apply (forOf_throws (fun _ => True)
               (fun attribute => defined (GlTf.accessors (gltfOf r) !! attribute)));
        [ | | exact I | ].
      * intros acc x _ Hx. apply defined_Some in Hx as [accessor' Hx].
        rewrite (bind_accessorAt x accessor') by exact Hx. eexists. split; [reflexivity | exact I].
      * intros acc x _ Hx. destruct (GlTf.accessors (gltfOf r) !! x) eqn:Hmissing;
          [discriminate|].
        eexists. split; [apply bind_eq_Throw, accessorAt_missing, Hmissing|].
        eexists; reflexivity.
      * rewrite <- H. clear. induction (MeshPrimitive.attributes primitive) as [|[n a] l IH];
          [reflexivity|]. cbn. rewrite IH. reflexivity.
    + eexists. split; [apply bind_eq_Throw, bind_eq_Throw, accessorAt_missing, Hindices|].
      eexists; reflexivity.
  - rewrite bind_ret. cbn [forallb andb] in H.
    apply (forOf_throws (fun _ => True)
             (fun attribute => defined (GlTf.accessors (gltfOf r) !! attribute)));
      [ | | exact I | ].
    + intros acc x _ Hx. apply defined_Some in Hx as [accessor' Hx].
      rewrite (bind_accessorAt x accessor') by exact Hx. eexists. split; [reflexivity | exact I].
    + intros acc x _ Hx. destruct (GlTf.accessors (gltfOf r) !! x) eqn:Hmissing;
        [discriminate|].
      eexists. split; [apply bind_eq_Throw, accessorAt_missing, Hmissing|].
      eexists; reflexivity.
    + rewrite <- H. clear. induction (MeshPrimitive.attributes primitive) as [|[n a] l IH];
        [reflexivity|]. cbn. rewrite IH. reflexivity.
Qed.

Lemma markPrimitives_throws usages primitives r :
  accessorsExist (gltfOf r) (flat_map primitiveAccessors primitives) = false ->
  exists e, forOf primitives markPrimitive usages r = Throw e r /\ isTypeError e.
Proof.
  unfold accessorsExist. rewrite forallb_flat_map. intros H.
  apply (forOf_throws (fun _ => True)
           (fun primitive => accessorsExist (gltfOf r) (primitiveAccessors primitive)));
    [ | | exact I | exact H ].
  - intros acc x _ Hx. destruct (markPrimitive_returns acc x r Hx) as [acc' Hacc'].
    exists acc'. split; [exact Hacc' | exact I].
  - intros acc x _ Hx. apply markPrimitive_throws, Hx.
Qed.

Lemma markMeshes_throws usages r :
  accessorsExist (gltfOf r) (meshAccessors (gltfOf r)) = false ->
  exists e, markMeshes usages r = Throw e r /\ isTypeError e.
Proof.
  unfold accessorsExist, meshAccessors, markMeshes. rewrite forallb_flat_map, bind_this.
  intros H.
  apply (forOf_throws (fun _ => True)
           (fun mesh => accessorsExist (gltfOf r)
                          (flat_map primitiveAccessors (Mesh.primitives mesh))));
    [ | | exact I | exact H ].
  - intros acc mesh _ Hmesh. unfold accessorsExist in Hmesh.
    rewrite forallb_flat_map in Hmesh.
    destruct (forOf_returns (fun _ r' => r' = r)
                (fun primitive =>
                   accessorsExist (gltfOf r) (primitiveAccessors primitive) = true)
                (Mesh.primitives mesh) markPrimitive acc r eq_refl)
      as (acc' & r' & Hloop & ->).
    + apply Forall_forall. intros primitive Hin.
      rewrite forallb_forall in Hmesh. apply Hmesh, list_elem_of_In, Hin.
    + intros acc0 r0 primitive -> Hprimitive.
      destruct (markPrimitive_returns acc0 primitive r Hprimitive) as [acc' Hacc'].
      exists acc', r. split; [exact Hacc' | reflexivity].
    + exists acc'. split; [exact Hloop | exact I].
  - intros acc mesh _ Hmesh. apply markPrimitives_throws, Hmesh.
Qed.

(** When a primitive names, as its indices or for an attribute, an
    accessor the asset does not have, [loadGPUBuffers] throws a
    [TypeError] before it has created a buffer or touched the renderer. *)
Theorem loadGPUBuffers_missing_accessor (r : GltfRenderer.t) :
  accessorsExist (gltfOf r) (meshAccessors (gltfOf r)) = false ->
  exists what, loadGPUBuffers r = Throw (TypeError what) r.
Proof.
  intros H. destruct (markMeshes_throws BufferViewUsages.empty r H) as (e & He & [what ->]).
  exists what. unfold loadGPUBuffers. apply bind_eq_Throw, He.
Qed.

Lemma loadGPUBuffers_missing_accessor_witness :
  exists what,
    loadGPUBuffers (Scenario.fresh Edge.danglingGroup)
    = Throw (TypeError what) (Scenario.fresh Edge.danglingGroup).
Proof.
  apply (loadGPUBuffers_missing_accessor (Scenario.fresh Edge.danglingGroup)).
  reflexivity.
Defined.

(** ** Instance transforms and the frame tier *)



Lemma drop_repeat {A} (x : A) (n m : nat) : drop n (repeat x m) = repeat x (m - n).
Proof.
  revert n. induction m as [|m IH]; intros [|n]; try reflexivity. cbn. apply IH.
Qed.

Lemma padded_length (mat : mat4) : (length mat <= 16)%nat -> length (padded 16 mat) = 16%nat.
Proof. intros H. unfold padded. rewrite length_app, repeat_length. lia. Qed.

Lemma concat_padded_length (mats : list mat4) :
  Forall (fun mat => length mat <= 16)%nat mats ->
  length (concat (padded 16 <$> mats)) = (16 * length mats)%nat.
Proof.
  induction 1 as [|mat rest Hmat _ IH]; [reflexivity|].
  cbn [fmap list_fmap concat length]. rewrite length_app, padded_length, IH by exact Hmat. lia.
Qed.

Lemma slotted_length slots (mats : list mat4) :
  Forall (fun mat => length mat <= 16)%nat mats -> (length mats <= slots)%nat ->
  length (slotted slots mats) = (16 * slots)%nat.
Proof.
  intros Hmats Hlen. unfold slotted.
  rewrite length_app, concat_padded_length, repeat_length by exact Hmats. lia.
Qed.



Lemma newArrayBuffer_slots (slots : Z) r :
  (0 <= slots)%Z ->
  newArrayBuffer (16 * slots * Float32Array_BYTES_PER_ELEMENT) r
  = Ok (slotted (Z.to_nat slots) []) r.
Proof.
  intros H. rewrite newArrayBuffer_eq by (unfold Float32Array_BYTES_PER_ELEMENT; lia).
  unfold slotted, Float32Array_BYTES_PER_ELEMENT. cbn [fmap list_fmap concat app length].
  rewrite Z.div_mul by lia. do 2 f_equal. lia.
Qed.





Lemma float32Set_outside (buffer : list Z) (n index : nat) (mat : list Z) r :
  length buffer = (16 * n)%nat -> (n <= index)%nat \/ (16 < length mat)%nat ->
  exists what,
    float32Set buffer (Z.of_nat index * 16 * Float32Array_BYTES_PER_ELEMENT) 16 (Some mat) r
    = Throw (RangeError what) r.
Proof.
  intros Hlen Hout. unfold float32Set, Float32Array_BYTES_PER_ELEMENT.
  destruct (Z.ltb_spec (Z.of_nat (length buffer) * 4) (Z.of_nat index * 16 * 4 + 16 * 4));
    [eexists; reflexivity|].
  destruct (Z.ltb_spec 16 (Z.of_nat (length mat))); [eexists; reflexivity|]. lia.
Qed.

Lemma forallb_imap_pair {A} (P : nat * A -> bool) (l : list A) :
  forallb P (imap pair l) = true <-> forall i x, l !! i = Some x -> P (i, x) = true.
Proof.
  rewrite forallb_forall. split.
  - intros H i x Hi. apply H, list_elem_of_In, (list_elem_of_lookup_2 _ i).
    rewrite list_lookup_imap, Hi. reflexivity.
  - intros H [i x] Hin. apply list_elem_of_In, list_elem_of_lookup in Hin as [j Hj].
    rewrite list_lookup_imap in Hj. destruct (l !! j) as [y|] eqn:Hy; [|discriminate].
    injection Hj as <- <-. apply H, Hy.
Qed.

(** When there are more transforms than instances, a transform of more
    than 16 entries, or a negative instance count, [updateInstanceBuffer]
    throws a [RangeError] and nothing is written. *)
Theorem updateInstanceBuffer_out_of_range (r : GltfRenderer.t) :
  instancesReady (GltfRenderer.gltf_group r) = false ->
  exists what, updateInstanceBuffer r = Throw (RangeError what) r.
Proof.
  unfold instancesReady. intros Hready. unfold updateInstanceBuffer. rewrite bind_this.
  set (group := GltfRenderer.gltf_group r) in *.
  destruct (Z.leb_spec 0 (GLTFGroup.instanceCount group)) as [Hn|Hn].
  - rewrite (bind_eq_Ok _ _ _ _ _ (newArrayBuffer_slots _ r Hn)).
    cbn [andb] in Hready.
    set (n := Z.to_nat (GLTFGroup.instanceCount group)).
    assert (Hloop : forallb (fun p : nat * mat4 => (fst p <? n)%nat && mat4Fits (snd p))
                      (imap pair (GLTFGroup.transforms group)) = false).
    { destruct (forallb _ (imap pair _)) eqn:Hall; [|reflexivity].
      rewrite forallb_imap_pair in Hall. rewrite <- Hready. symmetry.
      apply andb_true_intro. split.
      - apply Z.leb_le.
        destruct (GLTFGroup.transforms group) as [|final rest _] using rev_ind;
          [cbn; lia|].
        specialize (Hall (length rest) final ltac:(apply list_lookup_middle; reflexivity)).
        apply andb_prop in Hall as [Hall _]. cbn in Hall. apply Nat.ltb_lt in Hall.
        rewrite length_app. cbn. subst n. lia.
      - apply forallb_forall. intros mat Hin.
        apply list_elem_of_In, list_elem_of_lookup in Hin as [i Hi].
        specialize (Hall i mat Hi). apply andb_prop in Hall as [_ Hall]. exact Hall. }
    destruct (forOf_throws (fun buffer : list Z => length buffer = (16 * n)%nat)
                (fun p : nat * mat4 => (fst p <? n)%nat && mat4Fits (snd p)) isRangeError
                (imap pair (GLTFGroup.transforms group))
                (fun buffer '(index, mat) =>
                   float32Set buffer (Z.of_nat index * 16 * Float32Array_BYTES_PER_ELEMENT)
                     16 (Some mat)) r) with (acc := slotted n []) as (e & He & [what ->]).
    + intros acc [index mat] Hacc Hp. apply andb_prop in Hp as [Hindex Hmat].
      apply Nat.ltb_lt in Hindex. apply Nat.leb_le in Hmat. cbn in Hindex, Hmat.
      apply float32Set_fits; assumption.
    + intros acc [index mat] Hacc Hp. cbn [fst snd] in Hp.
      destruct (float32Set_outside acc n index mat r Hacc) as [what Hwhat].
      * apply andb_false_iff in Hp as [Hp|Hp].
        -- left. apply Nat.ltb_ge, Hp.
        -- right. unfold mat4Fits in Hp. apply Nat.leb_gt, Hp.
      * eexists. split; [exact Hwhat | eexists; reflexivity].
    + apply slotted_length; [constructor | cbn; lia].
    + exact Hloop.
    + exists what. apply bind_eq_Throw, He.
  - unfold newArrayBuffer, Float32Array_BYTES_PER_ELEMENT.
    destruct (Z.ltb_spec (16 * GLTFGroup.instanceCount group * 4) 0); [|lia].
    eexists. reflexivity.
Qed.

Lemma updateInstanceBuffer_out_of_range_witness :
  exists what,
    updateInstanceBuffer (Scenario.fresh Edge.crowdedGroup)
    = Throw (RangeError what) (Scenario.fresh Edge.crowdedGroup).
Proof.
  apply (updateInstanceBuffer_out_of_range (Scenario.fresh Edge.crowdedGroup)).
  reflexivity.
Defined.





(** ** Primitives: failure, shader locations, topology *)

Lemma onThrow_bind {A B} (I : GltfRenderer.t -> Prop) (m : M A) (k : A -> M B) :
  keeps I m -> (forall a, onThrow I (k a)) -> onThrow I (bind m k).
Proof.
  intros Hm Hk r e r' Hr H. unfold bind in H. specialize (Hm r Hr).
  destruct (m r) as [a r1|e1 r1]; cbn in Hm.
  - exact (Hk a r1 e r' Hm H).
  - injection H as _ <-. exact Hm.
Qed.

Lemma onThrow_assign (I : GltfRenderer.t -> Prop) f : onThrow I (assign f).
Proof. intros r e r' _ H. discriminate H. Qed.

Lemma setupPrimitive_raises key primitive :
  raises isTypeError (setupPrimitive key primitive).
Proof. repeat raises_step; eexists; reflexivity. Qed.

Lemma setupPrimitive_onThrow key primitive data :
  onThrow (fieldIs GltfRenderer.primitiveGpuData data) (setupPrimitive key primitive).
Proof.
  unfold setupPrimitive.
  repeat (apply onThrow_bind; [kept | intros ?]).
  apply onThrow_assign.
Qed.

(** When [setupPrimitive] throws, it throws a [TypeError], and no GPU
    state is stored: [primitiveGpuData] is as it was. *)
Theorem setupPrimitive_throw_stores_nothing (key : PrimitiveRef)
    (primitive : MeshPrimitive.t) (r : GltfRenderer.t) (e : JsError) (r' : GltfRenderer.t) :
  setupPrimitive key primitive r = Throw e r' ->
  isTypeError e /\
  GltfRenderer.primitiveGpuData r' = GltfRenderer.primitiveGpuData r.
Proof.
  intros H. split.
  - exact (setupPrimitive_raises key primitive r e r' H).
  - exact (setupPrimitive_onThrow key primitive _ r e r' eq_refl H).
Qed.

Lemma setupPrimitive_throw_stores_nothing_witness :
  GltfRenderer.primitiveGpuData
    (stateOf (setupPrimitive (0%nat, 0%nat) Scenario.indexedTriangle
                (Scenario.fresh Scenario.twoTrianglesGroup)))
  = GltfRenderer.primitiveGpuData (Scenario.fresh Scenario.twoTrianglesGroup).
Proof.
  assert (H : setupPrimitive (0%nat, 0%nat) Scenario.indexedTriangle
                (Scenario.fresh Scenario.twoTrianglesGroup)
              = Throw (TypeError "gpuBuffers is undefined")
                  (stateOf (setupPrimitive (0%nat, 0%nat) Scenario.indexedTriangle
                              (Scenario.fresh Scenario.twoTrianglesGroup))))
    by (vm_compute; reflexivity).
  destruct (setupPrimitive_throw_stores_nothing _ _ _ _ _ H) as [_ Hdata].
  exact Hdata.
Defined.

Lemma layouts_locations r (ps : list Processed) : forall layouts,
  Some <$> layouts = layoutOf r <$> ps ->
  GPUVertexAttribute.shaderLocation <$> concat (GPUVertexBufferLayout.attributes <$> layouts)
  = snd <$> ps.
Proof.
  induction ps as [|p rest IH]; intros [|layout layouts] H; try discriminate H.
  - reflexivity.
  - cbn [fmap list_fmap] in H. injection H as Hp Hrest.
    cbn [fmap list_fmap concat]. rewrite fmap_app, (IH layouts Hrest).
    unfold layoutOf in Hp.
    destruct (accessorOf r p) as [accessor|]; [|discriminate]. cbn in Hp.
    destruct (bufferViewAt r (Accessor.bufferView accessor)) as [bufferView|]; [|discriminate].
    cbn in Hp. injection Hp as ->. reflexivity.
Qed.

Lemma found_locations primitive (locations : list (string * Z)) :
  sublist (snd <$> flat_map (foundIn primitive) locations)
    ((fun entry => JsNumber (snd entry)) <$> locations).
Proof.
  induction locations as [|entry rest IH]; [constructor|].
  cbn [flat_map fmap list_fmap]. unfold foundIn at 1.
  destruct (findAttribute _ _); cbn.
  - apply sublist_skip, IH.
  - apply sublist_cons, IH.
Qed.

(** For a primitive with no attribute named like a property of the
    [ShaderLocations] object, the shader locations its pipeline feeds are
    among 0, 1, 2, 3, in this order and none twice, and one vertex buffer
    is kept for binding per vertex-buffer layout. *)
Theorem setupPrimitive_shader_locations (key : PrimitiveRef) (primitive : MeshPrimitive.t)
    (r r' : GltfRenderer.t) :
  strayFree primitive = true ->
  setupPrimitive key primitive r = Ok tt r' ->
  exists gpuPrimitive descriptor,
    GltfRenderer.primitiveGpuData r' !! key = Some gpuPrimitive /\
    GPUDevice.renderPipelines (GltfRenderer.device r')
      !! GPUPrimitiveInfo.pipeline gpuPrimitive = Some descriptor /\
    sublist (shaderLocationsOf descriptor) [JsNumber 0; JsNumber 1; JsNumber 2; JsNumber 3] /\
    NoDup (shaderLocationsOf descriptor) /\
    length (GPUPrimitiveInfo.buffers gpuPrimitive)
    = length (GPURenderPipelineDescriptor.buffers descriptor).
Proof.
  intros Hstray H.
  destruct (setupPrimitive_shader_slot_order key primitive r r' Hstray H)
    as (gpuPrimitive & descriptor & Hdata & Hpipeline & Hlayouts & Hbuffers).
  exists gpuPrimitive, descriptor. split; [exact Hdata|]. split; [exact Hpipeline|].
  assert (Hsub : sublist (shaderLocationsOf descriptor)
                   [JsNumber 0; JsNumber 1; JsNumber 2; JsNumber 3]).
  { unfold shaderLocationsOf. rewrite (layouts_locations r _ _ Hlayouts).
    apply (found_locations primitive ShaderLocations). }
  split; [exact Hsub|]. split.
  - refine (sublist_NoDup _ _ _ Hsub).
    repeat (constructor; [rewrite ?elem_of_cons, elem_of_nil; intuition discriminate|]).
    constructor.
  - apply (f_equal length) in Hlayouts. apply (f_equal length) in Hbuffers.
    rewrite !length_fmap in Hlayouts. rewrite !length_fmap in Hbuffers. congruence.
Qed.

Lemma setupPrimitive_shader_locations_witness :
  exists gpuPrimitive descriptor,
    GltfRenderer.primitiveGpuData
      (stateOf (setupPrimitive (0%nat, 0%nat) Rigged.skinned (Scenario2.loaded Rigged.group)))
      !! (0%nat, 0%nat) = Some gpuPrimitive /\
    GPUDevice.renderPipelines
      (GltfRenderer.device
         (stateOf (setupPrimitive (0%nat, 0%nat) Rigged.skinned
                     (Scenario2.loaded Rigged.group))))
      !! GPUPrimitiveInfo.pipeline gpuPrimitive = Some descriptor /\
    NoDup (shaderLocationsOf descriptor) /\
    length (GPUPrimitiveInfo.buffers gpuPrimitive)
    = length (GPURenderPipelineDescriptor.buffers descriptor).
Proof.
  assert (H : setupPrimitive (0%nat, 0%nat) Rigged.skinned (Scenario2.loaded Rigged.group)
              = Ok tt (stateOf (setupPrimitive (0%nat, 0%nat) Rigged.skinned
                                  (Scenario2.loaded Rigged.group))))
    by (vm_compute; reflexivity).
  destruct (setupPrimitive_shader_locations (0%nat, 0%nat) Rigged.skinned _ _ eq_refl H)
    as (gpuPrimitive & descriptor & Hstored & Hpipeline & _ & Hdistinct & Hlength).
  exists gpuPrimitive, descriptor.
  split; [exact Hstored|]. split; [exact Hpipeline|]. split; [exact Hdistinct | exact Hlength].
Defined.

Lemma gpuPrimitiveTopologyForMode_defined (mode : option Z) :
  is_Some (GLTFUtil.gpuPrimitiveTopologyForMode mode)
  <-> exists m, mode = Some m /\ In m supportedModes.
Proof.
  unfold GLTFUtil.gpuPrimitiveTopologyForMode, supportedModes. destruct mode as [m|].
  - repeat lazymatch goal with
           | |- context [Z.eqb m ?c] =>
               destruct (Z.eqb_spec m c) as [->|?];
               [split; [intros _; eexists; split; [reflexivity | cbn; tauto] | eauto]|]
           end.
    split; [intros [? H]; discriminate H|].
    intros (m' & [= <-] & Hin). cbn in Hin. intuition congruence.
  - split; [intros [? H]; discriminate H | intros (m & H & _); discriminate H].
Qed.

(** The pipeline [setupPrimitive] creates has a topology exactly when
    the primitive's mode is points, lines, line strip, triangles or
    triangle strip; a primitive that leaves the mode out gets none. *)
Theorem setupPrimitive_topology (key : PrimitiveRef) (primitive : MeshPrimitive.t)
    (r r' : GltfRenderer.t) :
  setupPrimitive key primitive r = Ok tt r' ->
  exists descriptor,
    GPUDevice.renderPipelines (GltfRenderer.device r')
    = GPUDevice.renderPipelines (GltfRenderer.device r) ++ [descriptor] /\
    (is_Some (GPURenderPipelineDescriptor.topology descriptor)
     <-> exists m, MeshPrimitive.mode primitive = Some m /\ In m supportedModes).
Proof.
  intros H. apply setupPrimitive_Ok in H
    as (locals & gpuPrimitive & descriptor & _ & _ & _ & Hpipes & _ & Htopology & _).
  exists descriptor. split; [exact Hpipes|].
  rewrite Htopology. apply gpuPrimitiveTopologyForMode_defined.
Qed.

Lemma setupPrimitive_topology_witness :
  exists descriptor,
    GPUDevice.renderPipelines
      (GltfRenderer.device
         (stateOf (setupPrimitive (0%nat, 0%nat) Scenario.plainTriangle
                     (Scenario2.loaded Scenario.twoTrianglesGroup))))
    = [descriptor] /\
    is_Some (GPURenderPipelineDescriptor.topology descriptor).
Proof.
  assert (H : setupPrimitive (0%nat, 0%nat) Scenario.plainTriangle
                (Scenario2.loaded Scenario.twoTrianglesGroup)
              = Ok tt (stateOf (setupPrimitive (0%nat, 0%nat) Scenario.plainTriangle
                                  (Scenario2.loaded Scenario.twoTrianglesGroup))))
    by (vm_compute; reflexivity).
  destruct (setupPrimitive_topology _ _ _ _ H) as (descriptor & Hpipelines & Htopology).
  exists descriptor. split; [exact Hpipelines|].
  apply Htopology. exists GLTFUtil.GL_TRIANGLES. split; [reflexivity|].
  vm_compute. tauto.
Defined.

(** ** The camera buffer *)

Lemma float32Set_segment (before after xs : list Z) (n : nat) r :
  (length xs <= n)%nat ->
  float32Set (before ++ repeat 0%Z n ++ after)
    (Z.of_nat (length before) * Float32Array_BYTES_PER_ELEMENT) (Z.of_nat n) (Some xs) r
  = Ok (before ++ padded n xs ++ after) r.
Proof.
  intros Hxs. unfold float32Set, Float32Array_BYTES_PER_ELEMENT.
  rewrite !length_app, repeat_length.
  destruct (Z.ltb_spec (Z.of_nat (length before + (n + length after)) * 4)
              (Z.of_nat (length before) * 4 + Z.of_nat n * 4)); [lia|].
  destruct (Z.ltb_spec (Z.of_nat n) (Z.of_nat (length xs))); [lia|].
  unfold ret. f_equal. rewrite Z.div_mul by lia. rewrite Nat2Z.id.
  rewrite take_app_length, drop_app_add.
  rewrite drop_app_le by (rewrite repeat_length; exact Hxs).
  rewrite drop_repeat. unfold padded. rewrite <- !app_assoc. reflexivity.
Qed.

Lemma float32Set_long (buffer xs : list Z) (byteOffset len : Z) r :
  (len < Z.of_nat (length xs))%Z ->
  exists what, float32Set buffer byteOffset len (Some xs) r = Throw (RangeError what) r.
Proof.
  intros Hlong. unfold float32Set.
  destruct (_ <? _)%Z; [eexists; reflexivity|].
  destruct (Z.ltb_spec len (Z.of_nat (length xs))); [eexists; reflexivity | lia].
Qed.

Lemma padded_length_le n (xs : list Z) : (length xs <= n)%nat -> length (padded n xs) = n.
Proof. intros H. unfold padded. rewrite length_app, repeat_length. lia. Qed.




(** An argument longer than its place makes [updateCameraBuffer] throw a
    [RangeError]; nothing is written. *)
Theorem updateCameraBuffer_too_long (r : GltfRenderer.t) (projMat viewMat : mat4)
    (pos : list Z) (time : Z) :
  (16 < length projMat)%nat \/ (16 < length viewMat)%nat \/ (3 < length pos)%nat ->
  exists what, updateCameraBuffer projMat viewMat pos time r = Throw (RangeError what) r.
Proof.
  intros Hlong. unfold updateCameraBuffer.
  change (newArrayBuffer FRAMEBUFFERSIZE)
    with (newArrayBuffer (36 * Float32Array_BYTES_PER_ELEMENT)).
  rewrite (bind_eq_Ok _ _ _ _ _
             (newArrayBuffer_eq (36 * Float32Array_BYTES_PER_ELEMENT) r
                ltac:(unfold Float32Array_BYTES_PER_ELEMENT; lia))).
  change (Z.to_nat (36 * Float32Array_BYTES_PER_ELEMENT / Float32Array_BYTES_PER_ELEMENT))
    with (16 + (16 + (3 + 1)))%nat.
  rewrite !repeat_app.
  destruct (le_lt_dec (length projMat) 16) as [Hproj|Hproj].
  2:{ destruct (float32Set_long (repeat 0%Z 16 ++ repeat 0%Z 16 ++ repeat 0%Z 3 ++ repeat 0%Z 1)
                  projMat 0 16 r ltac:(lia)) as [what Hwhat].
      exists what. apply bind_eq_Throw, Hwhat. }
  rewrite (bind_eq_Ok _ _ _ _ _
             (float32Set_segment [] (repeat 0%Z 16 ++ repeat 0%Z 3 ++ repeat 0%Z 1)
                projMat 16 r Hproj)).
  cbn [app].
  destruct (le_lt_dec (length viewMat) 16) as [Hview|Hview].
  2:{ destruct (float32Set_long
                  (padded 16 projMat ++ repeat 0%Z 16 ++ repeat 0%Z 3 ++ repeat 0%Z 1)
                  viewMat (16 * Float32Array_BYTES_PER_ELEMENT) 16 r ltac:(lia))
        as [what Hwhat].
      exists what. apply bind_eq_Throw, Hwhat. }
  replace (16 * Float32Array_BYTES_PER_ELEMENT)%Z
    with (Z.of_nat (length (padded 16 projMat)) * Float32Array_BYTES_PER_ELEMENT)%Z
    by (rewrite padded_length_le by exact Hproj; reflexivity).
  rewrite (bind_eq_Ok _ _ _ _ _
             (float32Set_segment (padded 16 projMat) (repeat 0%Z 3 ++ repeat 0%Z 1)
                viewMat 16 r Hview)).
  destruct Hlong as [Hlong|[Hlong|Hlong]]; [lia | lia |].
  lazymatch goal with
  | |- context [float32Set ?buffer ?offset 3 (Some pos)] =>
      destruct (float32Set_long buffer pos offset 3 r ltac:(lia)) as [what Hwhat]
  end.
  exists what. apply bind_eq_Throw, Hwhat.
Qed.

Lemma updateCameraBuffer_too_long_witness :
  exists what,
    updateCameraBuffer Scenario.identity Scenario.identity [1; 2; 3; 4]%Z 9%Z
      (Scenario.fresh Scenario.twoTrianglesGroup)
    = Throw (RangeError what) (Scenario.fresh Scenario.twoTrianglesGroup).
Proof.
  apply (updateCameraBuffer_too_long (Scenario.fresh Scenario.twoTrianglesGroup)).
  right. right. cbn. lia.
Defined.

(** ** Loaded buffers and stored bindings *)

Lemma bindingOf_same r1 r2 p :
  GltfRenderer.gltf_group r1 = GltfRenderer.gltf_group r2 ->
  GltfRenderer.gpuBuffers r1 = GltfRenderer.gpuBuffers r2 ->
  bindingOf r1 p = bindingOf r2 p.
Proof.
  intros Hgroup Hbuffers. unfold bindingOf, accessorOf, gltfOf.
  rewrite Hgroup, Hbuffers. reflexivity.
Qed.

Lemma indexBindingOf_same r1 r2 primitive :
  GltfRenderer.gltf_group r1 = GltfRenderer.gltf_group r2 ->
  GltfRenderer.gpuBuffers r1 = GltfRenderer.gpuBuffers r2 ->
  indexBindingOf r1 primitive = indexBindingOf r2 primitive.
Proof.
  intros Hgroup Hbuffers. unfold indexBindingOf, gltfOf.
  rewrite Hgroup, Hbuffers. reflexivity.
Qed.

Lemma storedFor_index r primitive pipeline locals gpuPrimitive :
  storedFor r primitive pipeline locals = Some gpuPrimitive ->
  indexBindingOf r primitive
  = Some (GPUPrimitiveInfo.indexBuffer gpuPrimitive,
          GPUPrimitiveInfo.indexOffset gpuPrimitive,
          GPUPrimitiveInfo.indexType gpuPrimitive).
Proof.
  unfold storedFor, indexBindingOf. destruct (MeshPrimitive.indices primitive) as [indices|].
  - destruct (GlTf.accessors (gltfOf r) !! indices) as [accessor|]; [|discriminate].
    cbn. destruct (GltfRenderer.gpuBuffers r) as [buffers|]; [|discriminate].
    cbn. intros [= <-]. reflexivity.
  - intros [= <-]. reflexivity.
Qed.

Lemma setupLoop_bindings entries : forall r r',
  NoDup (fst <$> entries) ->
  forEach entries (fun entry => setupPrimitive (fst entry) (snd entry)) r = Ok tt r' ->
  forall entry,
    entry ∈ entries ->
    exists gpuPrimitive,
      GltfRenderer.primitiveGpuData r' !! fst entry = Some gpuPrimitive /\
      bindsBuffersOf r (snd entry) gpuPrimitive.
Proof.
  induction entries as [|[key primitive] rest IH]; intros r r' Hkeys H entry Hin.
  - apply elem_of_nil in Hin. contradiction.
  - unfold forEach in H. cbn [forOf fst snd] in H. bind_inv H u r1 H1. destruct u.
    apply NoDup_cons in Hkeys as [Hfresh Hkeys].
    pose proof (setupLoop_Ok rest r1 r' Hkeys H) as [_ _ _ _ _ Hothers].
    apply setupPrimitive_Ok in H1
      as (locals & gpuPrimitive & descriptor & Hlocals & Hstored & Hdata & _ & _ & _
          & _ & Hgroup & Hbuffers).
    apply elem_of_cons in Hin as [->|Hin].
    + exists gpuPrimitive. cbn [fst snd]. split.
      * rewrite Hothers by exact Hfresh. rewrite Hdata. apply lookup_insert_eq.
      * split.
        -- destruct Hlocals as [_ _ Hb _].
           rewrite (proj2 (storedFor_pipeline _ _ _ _ _ Hstored)). exact Hb.
        -- apply (storedFor_index _ _ _ _ _ Hstored).
    + destruct (IH r1 r' Hkeys H entry Hin) as (gp & Hgp & Hb & Hi).
      exists gp. split; [exact Hgp|]. split.
      * rewrite Hb. apply list_fmap_ext. intros _ p _. apply bindingOf_same; assumption.
      * rewrite <- Hi. symmetry. apply indexBindingOf_same; assumption.
Qed.

(** After [init], buffer view [v] is served by the [v]-th buffer created,
    and what is stored for a primitive binds these buffers: as vertex
    buffers, attribute by attribute in the order they were processed, the
    buffers of the views of the attributes' accessors at the accessors'
    offsets; as index buffer the buffer of the view of the index
    accessor, at its offset and with its index format. *)
Theorem init_binds_loaded_buffers (device : GPUDevice.t) (canvas : Z * Z)
    (gltf_group : GLTFGroup.t) (isFirstRenderer : bool) (r' : GltfRenderer.t) :
  init device canvas gltf_group isFirstRenderer = Ok tt r' ->
  GltfRenderer.gpuBuffers r'
  = Some (seq (length (GPUDevice.buffers device))
            (length (GlTf.bufferViews (GLTFGroup.gltf gltf_group)))) /\
  forall entry,
    entry ∈ assetPrimitives (GLTFGroup.gltf gltf_group) ->
    exists gpuPrimitive,
      GltfRenderer.primitiveGpuData r' !! fst entry = Some gpuPrimitive /\
      bindsBuffersOf r' (snd entry) gpuPrimitive.
Proof.
  unfold init. set (r := newRenderer device canvas gltf_group isFirstRenderer).
  intros H. apply initializeWebGPUAndGLTF_stages in H
    as (r1 & r2 & r3 & r4 & H1 & H2 & H3 & H4 & H).
  assert (Hgroup : GltfRenderer.gltf_group r4 = gltf_group).
  { apply (stages_kept GltfRenderer.gltf_group r r1 r2 r3 r4);
      first [assumption | intros v; kept]. }
  assert (Hb4 : GltfRenderer.gpuBuffers r4 = GltfRenderer.gpuBuffers r1).
  { rewrite (kept_Ok GltfRenderer.gpuBuffers initNodeBindGroup _ _ _
               ltac:(intros v; kept) H4),
      (kept_Ok GltfRenderer.gpuBuffers initFrameBindGroup _ _ _ ltac:(intros v; kept) H3),
      (kept_Ok GltfRenderer.gpuBuffers initConstantBindGroup _ _ _
         ltac:(intros v; kept) H2).
    reflexivity. }
  apply loadGPUBuffers_handles in H1 as [Hhandles _]. cbn in Hhandles.
  unfold gltfOf in H. rewrite Hgroup in H.
  pose proof (setupLoop_Ok _ _ _ (assetPrimitives_keys _) H) as [Hg' Hb' _ _ _ _].
  cbn in Hg', Hb'.
  split; [rewrite Hb', Hb4; exact Hhandles|].
  intros entry Hentry.
  destruct (setupLoop_bindings _ _ _ (assetPrimitives_keys _) H entry Hentry)
    as (gp & Hgp & Hb & Hi).
  exists gp. split; [exact Hgp|]. split.
  - rewrite Hb. apply list_fmap_ext. intros _ p _. apply bindingOf_same; symmetry; assumption.
  - rewrite <- Hi. apply indexBindingOf_same; assumption.
Qed.

Lemma init_binds_loaded_buffers_witness :
  exists gpuPrimitive,
    GltfRenderer.primitiveGpuData
      (stateOf (init GPUDevice.empty (800, 600)%Z Scenario.twoTrianglesGroup true))
      !! (0%nat, 0%nat) = Some gpuPrimitive /\
    GPUPrimitiveInfo.buffers gpuPrimitive = [GPUPrimitiveBufferInfo.mk (Some 0%nat) (Some 0%Z)] /\
    GPUPrimitiveInfo.indexBuffer gpuPrimitive = Some 1%nat /\
    GPUPrimitiveInfo.indexType gpuPrimitive = Some "uint16".
Proof.
  assert (H : init GPUDevice.empty (800, 600)%Z Scenario.twoTrianglesGroup true
              = Ok tt (stateOf (init GPUDevice.empty (800, 600)%Z
                                  Scenario.twoTrianglesGroup true)))
    by (vm_compute; reflexivity).
  destruct (init_binds_loaded_buffers _ _ _ _ _ H) as [Hhandles Hall].
  destruct (Hall ((0%nat, 0%nat), Scenario.indexedTriangle))
    as (gpuPrimitive & Hstored & Hvertex & Hindex).
  { apply elem_of_cons. left. reflexivity. }
  exists gpuPrimitive. split; [exact Hstored|].
  destruct gpuPrimitive as [pipeline buffers drawCount indexBuffer indexOffset indexType].
  cbn [GPUPrimitiveInfo.buffers GPUPrimitiveInfo.indexBuffer GPUPrimitiveInfo.indexOffset
       GPUPrimitiveInfo.indexType] in *.
  unfold indexBindingOf, bindingOf, accessorOf in Hvertex, Hindex.
  rewrite Hhandles in Hvertex, Hindex.
  vm_compute in Hvertex. vm_compute in Hindex.
  destruct buffers as [|b [|]]; try discriminate Hvertex.
  injection Hvertex as ->. injection Hindex as <- _ <-.
  repeat split; reflexivity.
Defined.

(** ** The format mapper, continued *)

(** The format mapper names a format exactly for the component types that
    have a byte size. *)
Theorem gpuFormatForAccessor_defined (accessor : Accessor.t) :
  is_Some (GLTFUtil.gpuFormatForAccessor accessor)
  <-> GLTFUtil.sizeForComponentType (Accessor.componentType accessor) <> 0%Z.
Proof.
  unfold GLTFUtil.gpuFormatForAccessor, GLTFUtil.sizeForComponentType.
  repeat (destruct (Z.eqb _ _); [split; [discriminate | eauto] |]).
  split; [intros [? H]; discriminate H | congruence].
Qed.

Lemma componentCountForType_cases (type : string) :
  In (GLTFUtil.componentCountForType type) [1; 2; 3; 4; 0]%Z.
Proof.
  unfold GLTFUtil.componentCountForType.
  repeat (destruct (String.eqb _ _); [cbn; tauto|]). cbn; tauto.
Qed.

(** Two accessors the format mapper gives the same format have the same
    component type and the same number of components (none counting as
    one), and, unless they hold floats, agree on being normalized. *)
Theorem gpuFormatForAccessor_injective (a b : Accessor.t) (format : string) :
  GLTFUtil.gpuFormatForAccessor a = Some format ->
  GLTFUtil.gpuFormatForAccessor b = Some format ->
  Accessor.componentType a = Accessor.componentType b /\
  Z.max 1 (GLTFUtil.componentCountForType (Accessor.type a))
  = Z.max 1 (GLTFUtil.componentCountForType (Accessor.type b)) /\
  (Accessor.componentType a <> GLTFUtil.GL_FLOAT ->
   GLTFUtil.truthy (Accessor.normalized a) = GLTFUtil.truthy (Accessor.normalized b)).
Proof.
  unfold GLTFUtil.gpuFormatForAccessor.
  pose proof (componentCountForType_cases (Accessor.type a)) as Ha.
  pose proof (componentCountForType_cases (Accessor.type b)) as Hb.
  destruct (GLTFUtil.truthy (Accessor.normalized a)), (GLTFUtil.truthy (Accessor.normalized b));
  cbn in Ha, Hb;
  repeat (destruct Ha as [<-|Ha]; [|try contradiction]);
  repeat (destruct Hb as [<-|Hb]; [|try contradiction]).
  all: repeat lazymatch goal with
       | |- context [Z.eqb ?x ?y] => destruct (Z.eqb_spec x y)
       end.
  all: intros H1 H2; try discriminate H1; try discriminate H2.
  all: vm_compute in H1, H2; rewrite <- H2 in H1; try discriminate H1.
  all: split; [congruence|]; split; [reflexivity|]; try reflexivity; try congruence.
Qed.

Lemma gpuFormatForAccessor_injective_witness :
  Accessor.componentType Scenario.triangleIndices = GLTFUtil.GL_UNSIGNED_SHORT /\
  Z.max 1 (GLTFUtil.componentCountForType "SCALAR")
  = Z.max 1 (GLTFUtil.componentCountForType "MAT2").
Proof.
  destruct (gpuFormatForAccessor_injective Scenario.triangleIndices
              (Accessor.mk None None GLTFUtil.GL_UNSIGNED_SHORT (Some false) 4 "MAT2")
              "uint16" eq_refl eq_refl) as (Htype & Hcount & _).
  split; [exact Htype | exact Hcount].
Defined.
